(** * file-cpp: lexical decomposition of Windows-style paths

    A shallow embedding of [file.h] (namespaces [util::utf8] and
    [util::wide]) and the properties of its path-decomposition functions.

    The C++ functions work on borrowed character ranges: a pair of
    pointers [_First], [_Last] into some storage, or a [string_view]
    (a data pointer and a size).  Here the storage is a list of code
    units, a pointer is an offset into it, and every read is checked
    against the storage: a read outside it (undefined behaviour in C++)
    makes the function return [None]. *)

From Stdlib Require Import Ascii String ZArith List Bool Arith Lia.
Import ListNotations.

(** ** Storage, pointers and views *)

(** A code unit is its integer value; [storage] is the live array that
    the caller's pointers point into. *)
Definition storage := list Z.
Definition ptr := nat.

(** [*p] for a pointer [p] into the storage. *)
Definition load (m : storage) (p : ptr) : option Z := nth_error m p.

(** [p[-1]]: no unit lies before the start of the storage. *)
Definition load_prev (m : storage) (p : ptr) : option Z :=
  match p with
  | O => None
  | S q => load m q
  end.

(** [a - b] on pointers is a signed difference. *)
Definition ptrdiff (a b : ptr) : Z := (Z.of_nat a - Z.of_nat b)%Z.

(** [std::string_view] / [std::wstring_view]: data pointer and size. *)
Record string_view : Set := mk_view { data : ptr; size : nat }.

(** [static_cast<size_t>(d)] for a pointer difference [d], with a 64-bit
    [size_t]: a negative difference wraps around. *)
Definition size_t (d : Z) : nat := Z.to_nat (d mod 2 ^ 64).

Definition view_end (v : string_view) : ptr := data v + size v.

(** The units [m[a], ..., m[b-1]]. *)
Definition span (m : storage) (a b : ptr) : list Z := firstn (b - a) (skipn a m).

(** The units a view denotes. *)
Definition contents (m : storage) (v : string_view) : list Z :=
  span m (data v) (view_end v).

(** A view is valid when it lies inside the storage; its size is a
    [size_t]. *)
Definition valid (m : storage) (v : string_view) : Prop :=
  view_end v <= length m /\ (Z.of_nat (size v) < 2 ^ 64)%Z.

(** ** Reads that may fail, and short-circuit operators *)

Notation "'do' x <- e ; k" :=
  (match e with Some x => k | None => None end)
  (at level 10, x name, e at level 100, k at level 200).

(** [a && b]: [b] is evaluated only when [a] is true. *)
Definition and_then (a b : option bool) : option bool :=
  match a with
  | Some true => b
  | Some false => Some false
  | None => None
  end.

(** [a || b]: [b] is evaluated only when [a] is false. *)
Definition or_else (a b : option bool) : option bool :=
  match a with
  | Some true => Some true
  | Some false => b
  | None => None
  end.

Definition not_ (a : option bool) : option bool := option_map negb a.

Infix "&&&" := and_then (at level 40, left associativity).
Infix "|||" := or_else (at level 50, left associativity).

(** [pred(p[i])] *)
Definition test (pred : Z -> bool) (m : storage) (p : ptr) : option bool :=
  option_map pred (load m p).

(** [p[i] == v] *)
Definition test_eq (v : Z) (m : storage) (p : ptr) : option bool :=
  test (fun c => (c =? v)%Z) m p.

(** ** The standard algorithms the library calls *)

(** [std::find_if(first, last, pred)]:
    [for (; first != last; ++first) if (pred( *first)) break; return first;]
    The counter [n] is the distance from the cursor to [last]. *)
Fixpoint find_if_loop (pred : Z -> bool) (m : storage) (n : nat) (p : ptr)
  : option ptr :=
  match n with
  | O => Some p
  | S n' =>
      do c <- load m p;
      if pred c then Some p else find_if_loop pred m n' (S p)
  end.

(** A range with [last] before [first] is not a range. *)
Definition find_if (pred : Z -> bool) (m : storage) (first last : ptr)
  : option ptr :=
  if last <? first then None else find_if_loop pred m (last - first) first.

(** [std::find_if_not(first, last, pred)] *)
Definition find_if_not (pred : Z -> bool) (m : storage) (first last : ptr)
  : option ptr :=
  find_if (fun c => negb (pred c)) m first last.

(** [std::find(first, last, value)] *)
Definition find (v : Z) (m : storage) (first last : ptr) : option ptr :=
  find_if (fun c => (c =? v)%Z) m first last.

(** The loop [while (stop != tail && pred(tail[-1])) --tail;] that
    [parent_path] and [find_filename] run on a tail pointer. *)
Fixpoint retreat_while (pred : Z -> bool) (m : storage) (stop tail : ptr)
  {struct tail} : option ptr :=
  if stop =? tail then Some tail
  else
    match tail with
    | O => None
    | S t =>
        do c <- load m t;
        if pred c then retreat_while pred m stop t else Some tail
    end.

(** Character constants. *)
Definition BACKSLASH : Z := 92.
Definition SLASH : Z := 47.
Definition COLON : Z := 58.
Definition DOT : Z := 46.
Definition QUESTION : Z := 63.
Definition LOWER_A : Z := 97.
Definition UPPER_A : Z := 65.

(** ** namespace util::wide (16-bit code units) *)

Module wide.

(** [(uint16_t) x] *)
Definition uint16_t (x : Z) : Z := (x mod 2 ^ 16)%Z.

(** The conversion of an [int] to [wchar_t], a 16-bit unsigned unit. *)
Definition wchar_t (x : Z) : Z := (x mod 2 ^ 16)%Z.

(** [c | (L'a' - L'A')] *)
Definition ascii_lowercase (c : Z) : Z := wchar_t (Z.lor c (LOWER_A - UPPER_A)).

(** [c & ~(L'a' - L'A')] *)
Definition ascii_uppercase (c : Z) : Z :=
  wchar_t (Z.land c (Z.lnot (LOWER_A - UPPER_A))).

(** [((uint16_t)(ascii_lowercase(_First[0]) - L'a') < 26) && _First[1] == L':'].
    pre: [_First] points to at least 2 units. *)
Definition is_drive_prefix (m : storage) (_First : ptr) : option bool :=
  option_map
    (fun c => (uint16_t (ascii_lowercase c - LOWER_A) <? 26)%Z)
    (load m _First)
  &&& test_eq COLON m (_First + 1).

(** Test if [[_First, _Last)] has a prefix of the form [X:]:
    [_Last - _First >= 2 && is_drive_prefix(_First)]. *)
Definition has_drive_letter_prefix (m : storage) (_First _Last : ptr)
  : option bool :=
  Some (ptrdiff _Last _First >=? 2)%Z &&& is_drive_prefix m _First.

(** [c == '\\' || c == '/'] *)
Definition is_slash (c : Z) : bool := (c =? BACKSLASH)%Z || (c =? SLASH)%Z.

(** Parse [[_First, _Last)] as a path and return the end of the root-name
    if it exists; otherwise [_First]. *)
Definition find_root_name_end (m : storage) (_First _Last : ptr) : option ptr :=
  if (ptrdiff _Last _First <? 2)%Z then Some _First
  else
    do drive <- has_drive_letter_prefix m _First _Last;
    if drive then Some (_First + 2)
    else
      do not_slash <- not_ (test is_slash m _First);
      if not_slash then Some _First
      else
        do device <-
          Some (ptrdiff _Last _First >=? 4)%Z
          &&& test is_slash m (_First + 3)
          &&& (Some (ptrdiff _Last _First =? 4)%Z
               ||| not_ (test is_slash m (_First + 4)))
          &&& ((test is_slash m (_First + 1)
                &&& (test_eq QUESTION m (_First + 2)
                     ||| test_eq DOT m (_First + 2)))
               ||| (test_eq QUESTION m (_First + 1)
                    &&& test_eq QUESTION m (_First + 2)));
        if device then Some (_First + 3)
        else
          do server <-
            Some (ptrdiff _Last _First >=? 3)%Z
            &&& test is_slash m (_First + 1)
            &&& not_ (test is_slash m (_First + 2));
          if server then find_if is_slash m (_First + 3) _Last
          else Some _First.

(** The root-name of [path] if it exists; otherwise an empty view. *)
Definition root_name (m : storage) (path : string_view) : option string_view :=
  let data := data path in
  let tail := data + size path in
  do e <- find_root_name_end m data tail;
  Some (mk_view data (size_t (ptrdiff e data))).

(** The start of the relative path of [[_First, _Last)]:
    [find_if_not(find_root_name_end(_First, _Last), _Last, is_slash)]. *)
Definition find_relative_path (m : storage) (_First _Last : ptr) : option ptr :=
  do e <- find_root_name_end m _First _Last;
  find_if_not is_slash m e _Last.

(** The relative path of [path] if it exists; otherwise an empty view. *)
Definition relative_path (m : storage) (path : string_view) : option string_view :=
  let data := data path in
  let tail := data + size path in
  do relative_path <- find_relative_path m data tail;
  Some (mk_view relative_path (size_t (ptrdiff tail relative_path))).

(** The parent path of [path]: the first loop removes a trailing filename,
    the second the trailing slashes. *)
Definition parent_path (m : storage) (path : string_view) : option string_view :=
  let data := data path in
  let tail := data + size path in
  do rel_path <- find_relative_path m data tail;
  do tail <- retreat_while (fun c => negb (is_slash c)) m rel_path tail;
  do tail <- retreat_while is_slash m rel_path tail;
  Some (mk_view data (size_t (ptrdiff tail data))).

(** The start of the filename of [[path, path_end)] if it exists;
    otherwise [path_end]. *)
Definition find_filename (m : storage) (path path_end : ptr) : option ptr :=
  do relative_path <- find_relative_path m path path_end;
  retreat_while (fun c => negb (is_slash c)) m relative_path path_end.

(** The filename of [path] if it exists; otherwise an empty view. *)
Definition filename (m : storage) (path : string_view) : option string_view :=
  let data := data path in
  let tail := data + size path in
  do f <- find_filename m data tail;
  Some (mk_view f (size_t (ptrdiff tail f))).

(** The loop [while (filename != --extension) if ( *extension == '.') return
    extension;] of [find_extension]; [extension] is the cursor before the
    decrement. *)
Fixpoint find_extension_scan (m : storage) (filename additional extension : ptr)
  {struct extension} : option ptr :=
  match extension with
  | O => None
  | S e =>
      if filename =? e then Some additional
      else
        do c <- load m e;
        if (c =? DOT)%Z then Some e
        else find_extension_scan m filename additional e
  end.

(** The dividing point between stem and extension in the filename
    [[filename, additional)].  [--extension] on a pointer to the start
    of the storage leaves the storage. *)
Definition find_extension (m : storage) (filename additional : ptr) : option ptr :=
  if filename =? additional then Some additional
  else
    match additional with
    | O => None
    | S extension =>
        if filename =? extension then Some additional
        else
          do dot <- test_eq DOT m extension;
          if dot then
            do dotdot <-
              Some (filename =? extension - 1)
              &&& option_map (fun c => (c =? DOT)%Z) (load_prev m extension);
            if dotdot then Some additional else Some extension
          else find_extension_scan m filename additional extension
    end.

(** The stem of [path] if it exists; otherwise an empty view.  The
    alternate data stream, from the first colon of the filename on, is
    left out. *)
Definition stem (m : storage) (path : string_view) : option string_view :=
  let data := data path in
  let tail := data + size path in
  do fname <- find_filename m data tail;
  do ads <- find COLON m fname tail;
  do exts <- find_extension m fname ads;
  Some (mk_view fname (size_t (ptrdiff exts fname))).

(** The extension of [path] if it exists; otherwise an empty view. *)
Definition extension (m : storage) (path : string_view) : option string_view :=
  let data := data path in
  let tail := data + size path in
  do fname <- find_filename m data tail;
  do addtional <- find COLON m fname tail;
  do exts <- find_extension m fname addtional;
  Some (mk_view exts (size_t (ptrdiff addtional exts))).

End wide.

(** ** namespace util::utf8 (8-bit code units) *)

Module utf8.

(** [(uint8_t) x] *)
Definition uint8_t (x : Z) : Z := (x mod 2 ^ 8)%Z.

(** [c | ('a' - 'A')].  Setting bit 5 keeps a [char] value a [char]
    value, so the conversion of the [int] result back to [char] is the
    identity. *)
Definition ascii_lowercase (c : Z) : Z := Z.lor c (LOWER_A - UPPER_A).

(** [c & ~('a' - 'A')] *)
Definition ascii_uppercase (c : Z) : Z := Z.land c (Z.lnot (LOWER_A - UPPER_A)).

(** [((uint8_t)((uint8_t)ascii_lowercase(_First[0]) - (uint8_t)'a') < 26)
     && _First[1] == ':'].
    pre: [_First] points to at least 2 units; when it does not, the read
    that misses the storage fails. *)
Definition is_drive_prefix (m : storage) (_First : ptr) : option bool :=
  option_map
    (fun c => (uint8_t (uint8_t (ascii_lowercase c) - uint8_t LOWER_A) <? 26)%Z)
    (load m _First)
  &&& test_eq COLON m (_First + 1).

(** Test if [[_First, _Last)] has a prefix of the form [X:]:
    [_Last - _First >= 2 && is_drive_prefix(_First)]. *)
Definition has_drive_letter_prefix (m : storage) (_First _Last : ptr)
  : option bool :=
  Some (ptrdiff _Last _First >=? 2)%Z &&& is_drive_prefix m _First.

(** [c == '\\' || c == '/'] *)
Definition is_slash (c : Z) : bool := (c =? BACKSLASH)%Z || (c =? SLASH)%Z.

(** Parse [[_First, _Last)] as a path and return the end of the root-name
    if it exists; otherwise [_First]. *)
Definition find_root_name_end (m : storage) (_First _Last : ptr) : option ptr :=
  if (ptrdiff _Last _First <? 2)%Z then Some _First
  else
    do drive <- has_drive_letter_prefix m _First _Last;
    if drive then Some (_First + 2)
    else
      do not_slash <- not_ (test is_slash m _First);
      if not_slash then Some _First
      else
        do device <-
          Some (ptrdiff _Last _First >=? 4)%Z
          &&& test is_slash m (_First + 3)
          &&& (Some (ptrdiff _Last _First =? 4)%Z
               ||| not_ (test is_slash m (_First + 4)))
          &&& ((test is_slash m (_First + 1)
                &&& (test_eq QUESTION m (_First + 2)
                     ||| test_eq DOT m (_First + 2)))
               ||| (test_eq QUESTION m (_First + 1)
                    &&& test_eq QUESTION m (_First + 2)));
        if device then Some (_First + 3)
        else
          do server <-
            Some (ptrdiff _Last _First >=? 3)%Z
            &&& test is_slash m (_First + 1)
            &&& not_ (test is_slash m (_First + 2));
          if server then find_if is_slash m (_First + 3) _Last
          else Some _First.

(** The root-name of [path] if it exists; otherwise an empty view. *)
Definition root_name (m : storage) (path : string_view) : option string_view :=
  let data := data path in
  let tail := data + size path in
  do e <- find_root_name_end m data tail;
  Some (mk_view data (size_t (ptrdiff e data))).

(** The start of the relative path of [[_First, _Last)]:
    [find_if_not(find_root_name_end(_First, _Last), _Last, is_slash)]. *)
Definition find_relative_path (m : storage) (_First _Last : ptr) : option ptr :=
  do e <- find_root_name_end m _First _Last;
  find_if_not is_slash m e _Last.

(** The relative path of [path] if it exists; otherwise an empty view. *)
Definition relative_path (m : storage) (path : string_view) : option string_view :=
  let data := data path in
  let tail := data + size path in
  do relative_path <- find_relative_path m data tail;
  Some (mk_view relative_path (size_t (ptrdiff tail relative_path))).

(** The parent path of [path]: the first loop removes a trailing filename,
    the second the trailing slashes. *)
Definition parent_path (m : storage) (path : string_view) : option string_view :=
  let data := data path in
  let tail := data + size path in
  do rel_path <- find_relative_path m data tail;
  do tail <- retreat_while (fun c => negb (is_slash c)) m rel_path tail;
  do tail <- retreat_while is_slash m rel_path tail;
  Some (mk_view data (size_t (ptrdiff tail data))).

(** The start of the filename of [[path, path_end)] if it exists;
    otherwise [path_end]. *)
Definition find_filename (m : storage) (path path_end : ptr) : option ptr :=
  do relative_path <- find_relative_path m path path_end;
  retreat_while (fun c => negb (is_slash c)) m relative_path path_end.

(** The filename of [path] if it exists; otherwise an empty view. *)
Definition filename (m : storage) (path : string_view) : option string_view :=
  let data := data path in
  let tail := data + size path in
  do f <- find_filename m data tail;
  Some (mk_view f (size_t (ptrdiff tail f))).

(** The loop [while (filename != --extension) if ( *extension == '.') return
    extension;] of [find_extension]; [extension] is the cursor before the
    decrement. *)
Fixpoint find_extension_scan (m : storage) (filename additional extension : ptr)
  {struct extension} : option ptr :=
  match extension with
  | O => None
  | S e =>
      if filename =? e then Some additional
      else
        do c <- load m e;
        if (c =? DOT)%Z then Some e
        else find_extension_scan m filename additional e
  end.

(** The dividing point between stem and extension in the filename
    [[filename, additional)].  [--extension] on a pointer to the start
    of the storage leaves the storage. *)
Definition find_extension (m : storage) (filename additional : ptr) : option ptr :=
  if filename =? additional then Some additional
  else
    match additional with
    | O => None
    | S extension =>
        if filename =? extension then Some additional
        else
          do dot <- test_eq DOT m extension;
          if dot then
            do dotdot <-
              Some (filename =? extension - 1)
              &&& option_map (fun c => (c =? DOT)%Z) (load_prev m extension);
            if dotdot then Some additional else Some extension
          else find_extension_scan m filename additional extension
    end.

(** The stem of [path] if it exists; otherwise an empty view.  The
    alternate data stream, from the first colon of the filename on, is
    left out. *)
Definition stem (m : storage) (path : string_view) : option string_view :=
  let data := data path in
  let tail := data + size path in
  do fname <- find_filename m data tail;
  do ads <- find COLON m fname tail;
  do exts <- find_extension m fname ads;
  Some (mk_view fname (size_t (ptrdiff exts fname))).

(** The extension of [path] if it exists; otherwise an empty view. *)
Definition extension (m : storage) (path : string_view) : option string_view :=
  let data := data path in
  let tail := data + size path in
  do fname <- find_filename m data tail;
  do addtional <- find COLON m fname tail;
  do exts <- find_extension m fname addtional;
  Some (mk_view exts (size_t (ptrdiff addtional exts))).

End utf8.

(** ** Running the functions on a whole string *)

Definition units (s : string) : list Z :=
  map (fun a => Z.of_nat (nat_of_ascii a)) (list_ascii_of_string s).

(** The view of the whole storage. *)
Definition whole (m : storage) : string_view := mk_view 0 (length m).

(** [f] applied to the path [s], as the units of the component it returns. *)
Definition on_path (f : storage -> string_view -> option string_view) (s : string)
  : option (list Z) :=
  option_map (contents (units s)) (f (units s) (whole (units s))).

(** * Definitions for the properties *)

(** ** Positions in a span *)

(** The position of the first unit of [l] that satisfies [pred], or the
    length of [l]. *)
Fixpoint find_index (pred : Z -> bool) (l : list Z) : nat :=
  match l with
  | [] => 0
  | c :: l' => if pred c then 0 else S (find_index pred l')
  end.

(** [r] is the first position of [[a, b)] whose unit satisfies [pred],
    or [b] when there is none. *)
Definition first_such (pred : Z -> bool) (m : storage) (a b r : ptr) : Prop :=
  a <= r <= b /\
  (forall i, a <= i < r -> pred (nth i m 0%Z) = false) /\
  (r < b -> pred (nth r m 0%Z) = true).

(** [r] is where the loop [while (stop != tail && pred(tail[-1])) --tail]
    leaves the tail: every unit of [[r, tail)] satisfies [pred], and [r] is
    [stop] or the unit before [r] does not. *)
Definition last_such (pred : Z -> bool) (m : storage) (stop tail r : ptr) : Prop :=
  stop <= r <= tail /\
  (forall i, r <= i < tail -> pred (nth i m 0%Z) = true) /\
  (stop < r -> pred (nth (r - 1) m 0%Z) = false).

(** ** The root-name grammar

    The decision order of the root-name grammar, on the units of a
    span.  [letter] is the test for a drive letter. *)

Section RootNameGrammar.

Variable letter : Z -> bool.

(** [X:] *)
Definition drive_form (s : list Z) : bool :=
  match s with
  | c0 :: c1 :: _ => letter c0 && (c1 =? COLON)%Z
  | _ => false
  end.

(** [\\?\$], [\\.\$] or [\??\$], where [$] is the end of the input or
    anything but a slash. *)
Definition device_form (s : list Z) : bool :=
  match s with
  | c0 :: c1 :: c2 :: c3 :: rest =>
      utf8.is_slash c0
      && ((utf8.is_slash c1 && ((c2 =? QUESTION)%Z || (c2 =? DOT)%Z))
          || ((c1 =? QUESTION)%Z && (c2 =? QUESTION)%Z))
      && utf8.is_slash c3
      && match rest with
         | [] => true
         | c4 :: _ => negb (utf8.is_slash c4)
         end
  | _ => false
  end.

(** [\\server]: two slashes and a third unit that is not a slash. *)
Definition server_form (s : list Z) : bool :=
  match s with
  | c0 :: c1 :: c2 :: _ =>
      utf8.is_slash c0 && utf8.is_slash c1 && negb (utf8.is_slash c2)
  | _ => false
  end.

(** The length of the root-name of [s]; the first rule that applies
    decides:
    - fewer than two units: no root-name;
    - a drive letter and a colon: these two units;
    - no slash in front: no root-name;
    - a device namespace: its three units;
    - a server: up to the first slash from position 3 on, or to the end;
    - otherwise: no root-name. *)
Definition root_name_length (s : list Z) : nat :=
  if length s <? 2 then 0
  else if drive_form s then 2
  else if negb (utf8.is_slash (hd 0%Z s)) then 0
  else if device_form s then 3
  else if server_form s then 3 + find_index utf8.is_slash (skipn 3 s)
  else 0.

End RootNameGrammar.

(** The drive-letter test of [utf8::is_drive_prefix]. *)
Definition utf8_letter (c : Z) : bool :=
  (utf8.uint8_t (utf8.uint8_t (utf8.ascii_lowercase c) - utf8.uint8_t LOWER_A) <? 26)%Z.

(** The drive-letter test of [wide::is_drive_prefix]. *)
Definition wide_letter (c : Z) : bool :=
  (wide.uint16_t (wide.ascii_lowercase c - LOWER_A) <? 26)%Z.

(** A root-name of the form [\??]. *)
Definition nt_device_root (s : list Z) : bool :=
  match s with
  | [c0; c1; c2] =>
      utf8.is_slash c0 && (c1 =? QUESTION)%Z && (c2 =? QUESTION)%Z
  | _ => false
  end.

(** ** The boundaries [util::utf8] computes *)

Definition not_slash (c : Z) : bool := negb (utf8.is_slash c).
Definition is_colon (c : Z) : bool := (c =? COLON)%Z.

(** The end of the root-name of [[first, last)]. *)
Definition root_end (m : storage) (first last : ptr) : ptr :=
  first + root_name_length utf8_letter (span m first last).

(** Where [find_extension] splits the filename [[fn, ad)]: the cases of
    the stem/extension grammar. *)
Inductive extension_start (m : storage) (fn ad : ptr) : ptr -> Prop :=
| ext_short :
    ad - fn <= 1 -> extension_start m fn ad ad
| ext_dotdot :
    ad = fn + 2 -> nth fn m 0%Z = DOT -> nth (fn + 1) m 0%Z = DOT ->
    extension_start m fn ad ad
| ext_trailing_dot :
    fn + 2 <= ad -> nth (ad - 1) m 0%Z = DOT ->
    ~ (ad = fn + 2 /\ nth fn m 0%Z = DOT) ->
    extension_start m fn ad (ad - 1)
| ext_interior_dot e :
    fn + 2 <= ad -> nth (ad - 1) m 0%Z <> DOT ->
    fn < e < ad -> nth e m 0%Z = DOT ->
    (forall i, e < i < ad -> nth i m 0%Z <> DOT) ->
    extension_start m fn ad e
| ext_no_dot :
    fn + 2 <= ad -> nth (ad - 1) m 0%Z <> DOT ->
    (forall i, fn < i < ad -> nth i m 0%Z <> DOT) ->
    extension_start m fn ad ad.

(** ** Drive letters *)

(** The values a [char] unit can have, whether [char] is signed or not. *)
Definition char_value (c : Z) : Prop := (-128 <= c <= 255)%Z.

(** [A-Z] or [a-z]. *)
Definition is_ascii_letter (c : Z) : bool :=
  ((UPPER_A <=? c)%Z && (c <=? 90)%Z) || ((LOWER_A <=? c)%Z && (c <=? 122)%Z).

(** Checking a boolean property on the [n] integers from [lo]. *)
Fixpoint all_from (P : Z -> bool) (lo : Z) (n : nat) : bool :=
  match n with
  | O => true
  | S n' => P lo && all_from P (lo + 1) n'
  end.

(** The root-name grammar with the drive letters [A-Z], [a-z]. *)
Definition root_name_end_spec (s : list Z) : nat :=
  root_name_length is_ascii_letter s.

(** ** The six component views

    The boundaries of a path [[first, last)]: the start [rel] of the
    relative path, the start [fname] of the filename, the end [pend] of
    the parent path, the start [ads] of the alternate data stream and the
    start [exts] of the extension. *)
Record boundaries (m : storage) (first last rel fname pend ads exts : ptr)
  : Prop := {
  b_rel : first_such not_slash m (root_end m first last) last rel;
  b_fname : last_such not_slash m rel last fname;
  b_pend : last_such utf8.is_slash m rel fname pend;
  b_ads : first_such is_colon m fname last ads;
  b_exts : extension_start m fname ads exts
}.

(** ** Views inside views *)

(** A component view lies inside the view it was cut from. *)
Definition sub_view (p v : string_view) : Prop :=
  data p <= data v /\ data v <= view_end v /\ view_end v <= view_end p.

(** The six span-returning functions of [util::utf8]. *)
Definition utf8_components
  : list (storage -> string_view -> option string_view) :=
  [utf8.root_name; utf8.relative_path; utf8.parent_path;
   utf8.filename; utf8.stem; utf8.extension].

(** ** The two widths *)

(** A unit value that both a narrow and a wide code unit can have. *)
Definition common_unit (c : Z) : Prop := (0 <= c <= 255)%Z.

(** ** Alternate data streams *)

(** A filename without its alternate-data-stream suffix: the units before
    its first colon. *)
Definition before_colon (l : list Z) : list Z :=
  firstn (find_index is_colon l) l.

(** The alternate-data-stream suffix of a filename: its units from the
    first colon on. *)
Definition ads_suffix (l : list Z) : list Z :=
  skipn (find_index is_colon l) l.

(** ** Parsing a component again *)

(** Parsing the component that [f] returns for the path [s] with [f]
    again returns it unchanged. *)
Definition reparse_is_identity
  (f : storage -> string_view -> option string_view) (s : string) : Prop :=
  forall v, f (units s) (whole (units s)) = Some v -> f (units s) v = Some v.

(** [f] applied to the path [s] and then to the view it returned: the
    units of the first and of the second result. *)
Definition twice (f : storage -> string_view -> option string_view) (s : string)
  : option (list Z * list Z) :=
  do v <- f (units s) (whole (units s));
  do v' <- f (units s) v;
  Some (contents (units s) v, contents (units s) v').

(** * Definitions for the further properties *)

(** The values a 16-bit wide unit can have. *)
Definition wide_unit (c : Z) : Prop := (0 <= c <= 65535)%Z.

(** The six span-returning functions of [util::wide]. *)
Definition wide_components
  : list (storage -> string_view -> option string_view) :=
  [wide.root_name; wide.relative_path; wide.parent_path;
   wide.filename; wide.stem; wide.extension].

(** ** The bodies the two namespaces share

    After [find_root_name_end] the functions of [util::wide] and
    [util::utf8] are the same text; these are their bodies over the
    root-name finder [fre] they call. *)

Section SharedBodies.

Variable fre : storage -> ptr -> ptr -> option ptr.

Definition shared_root_name (m : storage) (path : string_view)
  : option string_view :=
  let data := data path in
  let tail := data + size path in
  do e <- fre m data tail;
  Some (mk_view data (size_t (ptrdiff e data))).

Definition shared_find_relative_path (m : storage) (_First _Last : ptr)
  : option ptr :=
  do e <- fre m _First _Last;
  find_if_not utf8.is_slash m e _Last.

Definition shared_relative_path (m : storage) (path : string_view)
  : option string_view :=
  let data := data path in
  let tail := data + size path in
  do relative_path <- shared_find_relative_path m data tail;
  Some (mk_view relative_path (size_t (ptrdiff tail relative_path))).

Definition shared_parent_path (m : storage) (path : string_view)
  : option string_view :=
  let data := data path in
  let tail := data + size path in
  do rel_path <- shared_find_relative_path m data tail;
  do tail <- retreat_while (fun c => negb (utf8.is_slash c)) m rel_path tail;
  do tail <- retreat_while utf8.is_slash m rel_path tail;
  Some (mk_view data (size_t (ptrdiff tail data))).

Definition shared_find_filename (m : storage) (path path_end : ptr)
  : option ptr :=
  do relative_path <- shared_find_relative_path m path path_end;
  retreat_while (fun c => negb (utf8.is_slash c)) m relative_path path_end.

Definition shared_filename (m : storage) (path : string_view)
  : option string_view :=
  let data := data path in
  let tail := data + size path in
  do f <- shared_find_filename m data tail;
  Some (mk_view f (size_t (ptrdiff tail f))).

Definition shared_stem (m : storage) (path : string_view)
  : option string_view :=
  let data := data path in
  let tail := data + size path in
  do fname <- shared_find_filename m data tail;
  do ads <- find COLON m fname tail;
  do exts <- utf8.find_extension m fname ads;
  Some (mk_view fname (size_t (ptrdiff exts fname))).

Definition shared_extension (m : storage) (path : string_view)
  : option string_view :=
  let data := data path in
  let tail := data + size path in
  do fname <- shared_find_filename m data tail;
  do addtional <- find COLON m fname tail;
  do exts <- utf8.find_extension m fname addtional;
  Some (mk_view exts (size_t (ptrdiff addtional exts))).

End SharedBodies.

(** A wide unit as the narrow grammar sees it: a unit above 255 is no
    letter, slash, colon, dot or question mark, like the unit 0. *)
Definition narrow (c : Z) : Z := if (c <=? 255)%Z then c else 0%Z.

(** [g] only exchanges separators: it maps a slash to a slash and keeps
    every other unit. *)
Definition exchanges_separators (g : Z -> Z) : Prop :=
  forall c, if utf8.is_slash c then utf8.is_slash (g c) = true else g c = c.

(** Writing every separator as a backslash, or as a slash. *)
Definition to_backslash (c : Z) : Z := if (c =? SLASH)%Z then BACKSLASH else c.
Definition to_slash (c : Z) : Z := if (c =? BACKSLASH)%Z then SLASH else c.

(** A view moved [d] units up the storage. *)
Definition shift (d : nat) (v : string_view) : string_view :=
  mk_view (d + data v) (size v).

(** * Scenarios *)

Example scenario1_root : on_path utf8.root_name "C:\foo\bar" = Some (units "C:").
Proof. vm_compute. reflexivity. Qed.
Example scenario1_rel : on_path utf8.relative_path "C:\foo\bar" = Some (units "foo\bar").
Proof. vm_compute. reflexivity. Qed.
Example scenario1_parent : on_path utf8.parent_path "C:\foo\bar" = Some (units "C:\foo").
Proof. vm_compute. reflexivity. Qed.
Example scenario1_filename : on_path utf8.filename "C:\foo\bar" = Some (units "bar").
Proof. vm_compute. reflexivity. Qed.
Example scenario2_root : on_path utf8.root_name "\\server\share\x" = Some (units "\\server").
Proof. vm_compute. reflexivity. Qed.
Example scenario2_rel : on_path utf8.relative_path "\\server\share\x" = Some (units "share\x").
Proof. vm_compute. reflexivity. Qed.
Example scenario3_stem : on_path utf8.stem "archive.tar.gz" = Some (units "archive.tar").
Proof. vm_compute. reflexivity. Qed.
Example scenario3_ext : on_path utf8.extension "archive.tar.gz" = Some (units ".gz").
Proof. vm_compute. reflexivity. Qed.
Example scenario6_parent : on_path utf8.parent_path "/cat/dog/\//\" = Some (units "/cat/dog").
Proof. vm_compute. reflexivity. Qed.
Example device_root : on_path utf8.root_name "\\?\C:\dir" = Some (units "\\?").
Proof. vm_compute. reflexivity. Qed.
Example device_relative_path : on_path utf8.relative_path "\\?\C:\dir" = Some (units "C:\dir").
Proof. vm_compute. reflexivity. Qed.
Example drive_relative : on_path utf8.relative_path "C:dir\file" = Some (units "dir\file").
Proof. vm_compute. reflexivity. Qed.
Example wide_scenario1_root : on_path wide.root_name "C:\foo\bar" = Some (units "C:").
Proof. vm_compute. reflexivity. Qed.
Example wide_scenario1_parent : on_path wide.parent_path "C:\foo\bar" = Some (units "C:\foo").
Proof. vm_compute. reflexivity. Qed.
Example wide_scenario2_root : on_path wide.root_name "\\server\share\x" = Some (units "\\server").
Proof. vm_compute. reflexivity. Qed.
Example wide_scenario3_ext : on_path wide.extension "archive.tar.gz" = Some (units ".gz").
Proof. vm_compute. reflexivity. Qed.

(** The case-folding primitives on letters. *)
Example lowercase_A :
  (utf8.ascii_lowercase 65 = 97 /\ wide.ascii_lowercase 65 = 97)%Z.
Proof. split; reflexivity. Qed.
Example uppercase_z :
  (utf8.ascii_uppercase 122 = 90 /\ wide.ascii_uppercase 122 = 90)%Z.
Proof. split; reflexivity. Qed.

(** * Properties *)

(** ** Spans of the storage *)

Lemma span_length (m : storage) (a b : ptr) :
  b <= length m -> length (span m a b) = b - a.
Proof.
  intros Hb. unfold span.
  rewrite length_firstn, length_skipn. lia.
Qed.

Lemma span_empty (m : storage) (a b : ptr) : b <= a -> span m a b = [].
Proof.
  intros H. unfold span. replace (b - a) with 0 by lia. reflexivity.
Qed.

Lemma span_skipn (m : storage) (a b k : ptr) :
  skipn k (span m a b) = span m (a + k) b.
Proof.
  unfold span. rewrite skipn_firstn_comm, skipn_skipn.
  f_equal; [lia | f_equal; lia].
Qed.

Lemma span_firstn (m : storage) (a b c : ptr) :
  c <= b -> firstn (c - a) (span m a b) = span m a c.
Proof.
  intros H. unfold span. rewrite firstn_firstn. f_equal. lia.
Qed.

Lemma span_app (m : storage) (a b c : ptr) :
  a <= b -> b <= c -> span m a b ++ span m b c = span m a c.
Proof.
  intros Hab Hbc.
  rewrite <- (firstn_skipn (b - a) (span m a c)).
  rewrite span_firstn by lia. rewrite span_skipn.
  do 2 f_equal. lia.
Qed.

Lemma nth_error_span (m : storage) (a b i : ptr) :
  a + i < b -> nth_error (span m a b) i = nth_error m (a + i).
Proof.
  intros H. unfold span.
  rewrite nth_error_firstn.
  destruct (Nat.ltb_spec i (b - a)); [|lia].
  now rewrite nth_error_skipn.
Qed.

Lemma nth_span (m : storage) (a b i : ptr) :
  a + i < b -> nth i (span m a b) 0%Z = nth (a + i) m 0%Z.
Proof.
  intros H. unfold span. rewrite nth_firstn.
  destruct (Nat.ltb_spec i (b - a)); [|lia].
  apply nth_skipn.
Qed.

Lemma load_span (m : storage) (a b i : ptr) :
  a + i < b -> load m (a + i) = nth_error (span m a b) i.
Proof. intros H. unfold load. now rewrite nth_error_span. Qed.

Lemma load_nth (m : storage) (p : ptr) :
  p < length m -> load m p = Some (nth p m 0%Z).
Proof. intros H. unfold load. now apply nth_error_nth'. Qed.

Lemma skipn_head (m : storage) (p : ptr) :
  p < length m -> skipn p m = nth p m 0%Z :: skipn (S p) m.
Proof.
  revert m; induction p as [|p IH]; intros [|c m] H; simpl in *; try lia.
  - reflexivity.
  - apply IH. lia.
Qed.

Lemma span_head (m : storage) (a b : ptr) :
  a < b -> b <= length m -> span m a b = nth a m 0%Z :: span m (S a) b.
Proof.
  intros Hab Hb. unfold span.
  rewrite (skipn_head m a) by lia.
  replace (b - a) with (S (b - S a)) by lia. reflexivity.
Qed.

Lemma size_t_ptrdiff (a b : ptr) :
  a <= b -> (Z.of_nat (b - a) < 2 ^ 64)%Z -> size_t (ptrdiff b a) = b - a.
Proof.
  intros Hab Hlt. unfold size_t, ptrdiff.
  rewrite Z.mod_small by lia. lia.
Qed.

(** ** Searching a span *)

Lemma find_index_le pred l : find_index pred l <= length l.
Proof. induction l as [|c l IH]; simpl; [lia|]. destruct (pred c); lia. Qed.

Lemma find_index_before pred l i :
  i < find_index pred l -> pred (nth i l 0%Z) = false.
Proof.
  revert i; induction l as [|c l IH]; simpl; intros i Hi; [lia|].
  destruct (pred c) eqn:Hc; [lia|].
  destruct i; [assumption | apply IH; lia].
Qed.

Lemma find_index_at pred l :
  find_index pred l < length l -> pred (nth (find_index pred l) l 0%Z) = true.
Proof.
  induction l as [|c l IH]; simpl; intros H; [lia|].
  destruct (pred c) eqn:Hc; [assumption | apply IH; lia].
Qed.

Lemma find_index_firstn pred l :
  find_index pred (firstn (find_index pred l) l) = find_index pred l.
Proof.
  induction l as [|c l IH]; simpl; [reflexivity|].
  destruct (pred c) eqn:Hc; simpl; [reflexivity|]. now rewrite Hc, IH.
Qed.

Lemma find_if_loop_eq pred (m : storage) n p :
  p + n <= length m ->
  find_if_loop pred m n p = Some (p + find_index pred (span m p (p + n))).
Proof.
  revert p; induction n as [|n IH]; intros p Hle; simpl.
  - rewrite span_empty by lia. simpl. f_equal. lia.
  - rewrite load_nth by lia.
    rewrite span_head by lia.
    replace (p + S n) with (S p + n) by lia. simpl. destruct (pred (nth p m 0%Z)).
    + f_equal. lia.
    + rewrite IH by lia. f_equal. simpl. lia.
Qed.

Lemma find_if_eq pred (m : storage) a b :
  a <= b -> b <= length m ->
  find_if pred m a b = Some (a + find_index pred (span m a b)).
Proof.
  intros Hab Hb. unfold find_if.
  destruct (Nat.ltb_spec b a); [lia|].
  rewrite find_if_loop_eq by lia. repeat f_equal. lia.
Qed.

Lemma first_such_unique pred m a b r r' :
  first_such pred m a b r -> first_such pred m a b r' -> r = r'.
Proof.
  intros (Hr & Hbefore & Hat) (Hr' & Hbefore' & Hat').
  destruct (Nat.lt_trichotomy r r') as [Hlt | [Heq | Hgt]]; [|assumption|].
  - rewrite Hbefore' in Hat by lia. discriminate Hat. lia.
  - rewrite Hbefore in Hat' by lia. discriminate Hat'. lia.
Qed.

Lemma find_if_spec pred (m : storage) a b :
  a <= b -> b <= length m ->
  exists r, find_if pred m a b = Some r /\ first_such pred m a b r.
Proof.
  intros Hab Hb. exists (a + find_index pred (span m a b)).
  split; [now apply find_if_eq|].
  pose proof (find_index_le pred (span m a b)) as Hle.
  rewrite span_length in Hle by assumption.
  repeat split; try lia.
  - intros i Hi.
    replace i with (a + (i - a)) by lia.
    rewrite <- (nth_span m a b) by lia.
    apply find_index_before. lia.
  - intros Hlt. rewrite <- (nth_span m a b) by lia.
    apply find_index_at. rewrite span_length by assumption. lia.
Qed.

Lemma find_if_first_such pred (m : storage) a b r :
  b <= length m -> first_such pred m a b r -> find_if pred m a b = Some r.
Proof.
  intros Hb Hr.
  destruct (find_if_spec pred m a b) as (r' & Heq & Hr'); try assumption.
  - destruct Hr as (Hr & _). lia.
  - rewrite Heq. f_equal. eapply first_such_unique; eassumption.
Qed.

Lemma last_such_unique pred m stop tail r r' :
  last_such pred m stop tail r -> last_such pred m stop tail r' -> r = r'.
Proof.
  intros (Hr & Hall & Hprev) (Hr' & Hall' & Hprev').
  destruct (Nat.lt_trichotomy r r') as [Hlt | [Heq | Hgt]]; [|assumption|].
  - rewrite Hall in Hprev' by lia. discriminate Hprev'. lia.
  - rewrite Hall' in Hprev by lia. discriminate Hprev. lia.
Qed.

Lemma retreat_while_spec pred (m : storage) stop tail :
  stop <= tail -> tail <= length m ->
  exists r, retreat_while pred m stop tail = Some r /\ last_such pred m stop tail r.
Proof.
  induction tail as [|t IH]; intros Hst Ht.
  - exists 0. simpl. destruct (Nat.eqb_spec stop 0); [|lia].
    split; [reflexivity|]. repeat split; intros; lia.
  - simpl. destruct (Nat.eqb_spec stop (S t)) as [->|Hne].
    + exists (S t). split; [reflexivity|]. repeat split; intros; lia.
    + rewrite load_nth by lia.
      destruct (pred (nth t m 0%Z)) eqn:Hp.
      * destruct IH as (r & Heq & Hr & Hall & Hprev); try lia.
        exists r. split; [assumption|].
        split; [lia | split]; [|assumption].
        intros i Hi. destruct (Nat.eq_dec i t) as [->|]; [assumption|].
        apply Hall. lia.
      * exists (S t). split; [reflexivity|].
        split; [lia | split]; [intros; lia|].
        intros _. simpl. now rewrite Nat.sub_0_r.
Qed.

Lemma retreat_while_last_such pred (m : storage) stop tail r :
  tail <= length m -> last_such pred m stop tail r ->
  retreat_while pred m stop tail = Some r.
Proof.
  intros Ht Hr.
  destruct (retreat_while_spec pred m stop tail) as (r' & Heq & Hr'); try assumption.
  - destruct Hr as (Hr & _). lia.
  - rewrite Heq. f_equal. eapply last_such_unique; eassumption.
Qed.

(** ** [find_root_name_end] follows the root-name grammar *)

Lemma ptrdiff_ltb (a b k : nat) :
  a <= b -> (ptrdiff b a <? Z.of_nat k)%Z = (b - a <? k).
Proof.
  intros H. unfold ptrdiff.
  destruct (Z.ltb_spec (Z.of_nat b - Z.of_nat a) (Z.of_nat k));
    destruct (Nat.ltb_spec (b - a) k); lia.
Qed.

Lemma ptrdiff_geb (a b k : nat) :
  a <= b -> (ptrdiff b a >=? Z.of_nat k)%Z = (k <=? b - a).
Proof.
  intros H. unfold ptrdiff. rewrite Z.geb_leb.
  destruct (Z.leb_spec (Z.of_nat k) (Z.of_nat b - Z.of_nat a));
    destruct (Nat.leb_spec k (b - a)); lia.
Qed.

Lemma ptrdiff_eqb (a b k : nat) :
  a <= b -> (ptrdiff b a =? Z.of_nat k)%Z = (b - a =? k).
Proof.
  intros H. unfold ptrdiff.
  destruct (Z.eqb_spec (Z.of_nat b - Z.of_nat a) (Z.of_nat k));
    destruct (Nat.eqb_spec (b - a) k); lia.
Qed.

Arguments utf8.is_slash : simpl never.
Arguments utf8_letter : simpl never.
Arguments wide_letter : simpl never.

Ltac case_bools :=
  repeat match goal with
    | |- context [utf8_letter ?c] => destruct (utf8_letter c) eqn:?; simpl
    | |- context [wide_letter ?c] => destruct (wide_letter c) eqn:?; simpl
    | |- context [utf8.is_slash ?c] => destruct (utf8.is_slash c) eqn:?; simpl
    | |- context [(?c =? ?d)%Z] => destruct (c =? d)%Z eqn:?; simpl
    end.

Ltac ptrdiff_to_nat :=
  change 2%Z with (Z.of_nat 2); change 3%Z with (Z.of_nat 3);
  change 4%Z with (Z.of_nat 4);
  rewrite ?ptrdiff_ltb, ?ptrdiff_geb, ?ptrdiff_eqb by assumption.

Lemma utf8_find_root_name_end_eq (m : storage) (first last : ptr) :
  first <= last -> last <= length m ->
  utf8.find_root_name_end m first last
  = Some (first + root_name_length utf8_letter (span m first last)).
Proof.
  intros Hfl Hl.
  pose proof (span_length m first last Hl) as Hlen.
  assert (Hload : forall i, first + i < last ->
                            load m (first + i) = nth_error (span m first last) i)
    by (intros; now apply load_span).
  assert (Hload0 : first < last -> load m first = nth_error (span m first last) 0).
  { intros H. rewrite <- (Hload 0) by lia. f_equal. lia. }
  assert (Hfind : find_if utf8.is_slash m (first + 3) last
                  = if 3 <=? last - first
                    then Some (first + (3 + find_index utf8.is_slash
                                              (skipn 3 (span m first last))))
                    else None).
  { destruct (Nat.leb_spec 3 (last - first)).
    - rewrite find_if_eq by lia. rewrite span_skipn. f_equal. lia.
    - unfold find_if. destruct (Nat.ltb_spec last (first + 3)); [reflexivity | lia]. }
  unfold utf8.find_root_name_end, utf8.has_drive_letter_prefix,
    utf8.is_drive_prefix, test_eq, test, root_name_length.
  fold utf8_letter.
  rewrite Hfind. clear Hfind.
  ptrdiff_to_nat.
  rewrite <- Hlen in *.
  destruct (span m first last) as [|c0 [|c1 [|c2 [|c3 [|c4 s]]]]];
    simpl in Hlen; simpl;
    rewrite ?Hload0, ?(Hload 1), ?(Hload 2), ?(Hload 3), ?(Hload 4) by lia;
    simpl; case_bools; f_equal; lia.
Qed.

Lemma wide_find_root_name_end_eq (m : storage) (first last : ptr) :
  first <= last -> last <= length m ->
  wide.find_root_name_end m first last
  = Some (first + root_name_length wide_letter (span m first last)).
Proof.
  intros Hfl Hl.
  pose proof (span_length m first last Hl) as Hlen.
  assert (Hload : forall i, first + i < last ->
                            load m (first + i) = nth_error (span m first last) i)
    by (intros; now apply load_span).
  assert (Hload0 : first < last -> load m first = nth_error (span m first last) 0).
  { intros H. rewrite <- (Hload 0) by lia. f_equal. lia. }
  assert (Hfind : find_if utf8.is_slash m (first + 3) last
                  = if 3 <=? last - first
                    then Some (first + (3 + find_index utf8.is_slash
                                              (skipn 3 (span m first last))))
                    else None).
  { destruct (Nat.leb_spec 3 (last - first)).
    - rewrite find_if_eq by lia. rewrite span_skipn. f_equal. lia.
    - unfold find_if. destruct (Nat.ltb_spec last (first + 3)); [reflexivity | lia]. }
  unfold wide.find_root_name_end, wide.has_drive_letter_prefix,
    wide.is_drive_prefix, test_eq, test, root_name_length.
  fold wide_letter. change wide.is_slash with utf8.is_slash.
  rewrite Hfind. clear Hfind.
  ptrdiff_to_nat.
  rewrite <- Hlen in *.
  destruct (span m first last) as [|c0 [|c1 [|c2 [|c3 [|c4 s]]]]];
    simpl in Hlen; simpl;
    rewrite ?Hload0, ?(Hload 1), ?(Hload 2), ?(Hload 3), ?(Hload 4) by lia;
    simpl; case_bools; f_equal; lia.
Qed.

(** ** Facts about slashes and the root-name grammar *)

Lemma is_slash_true (c : Z) :
  utf8.is_slash c = true <-> (c = BACKSLASH \/ c = SLASH)%Z.
Proof.
  unfold utf8.is_slash. rewrite orb_true_iff, !Z.eqb_eq. reflexivity.
Qed.

Lemma is_slash_false (c : Z) :
  utf8.is_slash c = false <-> (c <> BACKSLASH /\ c <> SLASH)%Z.
Proof.
  unfold utf8.is_slash. rewrite orb_false_iff, !Z.eqb_neq. reflexivity.
Qed.

(** Turn boolean tests on units into (in)equalities and let [lia] decide. *)
Ltac units_lia :=
  repeat match goal with
    | H : utf8.is_slash _ = true |- _ => apply is_slash_true in H
    | H : utf8.is_slash _ = false |- _ => apply is_slash_false in H
    | H : (_ =? _)%Z = true |- _ => apply Z.eqb_eq in H
    | H : (_ =? _)%Z = false |- _ => apply Z.eqb_neq in H
    end;
  unfold BACKSLASH, SLASH, COLON, DOT, QUESTION in *; lia.

Section RootNameFacts.

Variable letter : Z -> bool.

Lemma root_name_length_le (s : list Z) :
  root_name_length letter s <= length s.
Proof.
  unfold root_name_length.
  destruct s as [|c0 [|c1 [|c2 s]]]; simpl; try lia.
  - repeat match goal with
      | |- context [if ?b then _ else _] => destruct b
      end; lia.
  - pose proof (find_index_le utf8.is_slash s).
    repeat match goal with
      | |- context [if ?b then _ else _] => destruct b
      end; lia.
Qed.

(** A span that has no drive prefix and does not start with a slash has
    no root-name. *)
Lemma root_name_length_none (s : list Z) :
  drive_form letter s = false ->
  utf8.is_slash (hd 0%Z s) = false ->
  root_name_length letter s = 0.
Proof.
  intros Hd Hs. unfold root_name_length. rewrite Hd, Hs. simpl.
  now destruct (length s <? 2).
Qed.

(** The shapes a root-name can take. *)
Lemma root_name_length_cases (s : list Z) :
  root_name_length letter s = 0
  \/ (root_name_length letter s = 2 /\ drive_form letter s = true)
  \/ (root_name_length letter s = 3 /\ drive_form letter s = false
      /\ device_form s = true)
  \/ (exists c0 c1 c2 rest,
         s = c0 :: c1 :: c2 :: rest
         /\ drive_form letter s = false /\ device_form s = false
         /\ utf8.is_slash c0 = true /\ utf8.is_slash c1 = true
         /\ utf8.is_slash c2 = false
         /\ root_name_length letter s = 3 + find_index utf8.is_slash rest).
Proof.
  unfold root_name_length.
  destruct (length s <? 2); [now left|].
  destruct (drive_form letter s) eqn:Hdrive; [right; left; now split|].
  destruct (utf8.is_slash (hd 0%Z s)) eqn:H0; simpl; [|now left].
  destruct (device_form s) eqn:Hdev; [right; right; left; now repeat split|].
  destruct (server_form s) eqn:Hsrv; [|now left].
  do 3 right.
  destruct s as [|c0 [|c1 [|c2 rest]]]; try discriminate Hsrv.
  simpl in Hsrv. apply andb_true_iff in Hsrv. destruct Hsrv as [Hsrv H2].
  apply andb_true_iff in Hsrv. destruct Hsrv as [_ H1].
  apply negb_true_iff in H2.
  exists c0, c1, c2, rest. now repeat split.
Qed.

Lemma drive_form_inv (s : list Z) :
  drive_form letter s = true ->
  exists c0 s', s = c0 :: COLON :: s' /\ letter c0 = true.
Proof.
  destruct s as [|c0 [|c1 s']]; simpl; try discriminate.
  intros H. apply andb_true_iff in H. destruct H as [Hl Hc].
  apply Z.eqb_eq in Hc. subst c1. now exists c0, s'.
Qed.

Lemma device_form_inv (s : list Z) :
  device_form s = true ->
  exists c0 c1 c2 c3 rest,
    s = c0 :: c1 :: c2 :: c3 :: rest
    /\ utf8.is_slash c0 = true /\ utf8.is_slash c3 = true
    /\ utf8.is_slash (hd 0%Z rest) = false
    /\ ((utf8.is_slash c1 = true /\ (c2 = QUESTION \/ c2 = DOT))
        \/ (c1 = QUESTION /\ c2 = QUESTION)).
Proof.
  destruct s as [|c0 [|c1 [|c2 [|c3 rest]]]]; simpl; try discriminate.
  intros H.
  repeat (apply andb_true_iff in H; let H' := fresh "H" in destruct H as [H H']).
  exists c0, c1, c2, c3, rest. repeat split; try assumption.
  - destruct rest as [|c4 rest]; simpl.
    + apply is_slash_false. unfold BACKSLASH, SLASH. lia.
    + now apply negb_true_iff.
  - apply orb_true_iff in H2. destruct H2 as [H2|H2];
      apply andb_true_iff in H2; destruct H2 as [Ha Hb].
    + left. split; [assumption|].
      apply orb_true_iff in Hb. destruct Hb as [Hb|Hb]; apply Z.eqb_eq in Hb; auto.
    + right. apply Z.eqb_eq in Ha, Hb. auto.
Qed.

(** A root-name does not end in a slash. *)
Lemma root_name_length_last (s : list Z) :
  0 < root_name_length letter s ->
  utf8.is_slash (nth (root_name_length letter s - 1) s 0%Z) = false.
Proof.
  intros Hpos.
  destruct (root_name_length_cases s)
    as [H | [(H & Hd) | [(H & _ & Hd) | (c0 & c1 & c2 & rest & -> & _ & _ & _ & _ & H2 & H)]]];
    rewrite H in *.
  - lia.
  - apply drive_form_inv in Hd. destruct Hd as (c0 & s' & -> & _).
    simpl. apply is_slash_false. unfold COLON, BACKSLASH, SLASH. lia.
  - apply device_form_inv in Hd.
    destruct Hd as (c0 & c1 & c2 & c3 & rest & -> & _ & _ & _ & Hform).
    simpl. apply is_slash_false. unfold BACKSLASH, SLASH, QUESTION, DOT in *. lia.
  - clear H Hpos.
    pose proof (find_index_before utf8.is_slash rest) as Hbefore.
    destruct (find_index utf8.is_slash rest) as [|k]; simpl.
    + assumption.
    + apply Hbefore. lia.
Qed.

(** Parsing a root-name again gives the same root-name, except for the
    form [\??], which is a root-name only in front of a slash. *)
Lemma root_name_length_idem (s : list Z) :
  nt_device_root (firstn (root_name_length letter s) s) = false ->
  root_name_length letter (firstn (root_name_length letter s) s)
  = root_name_length letter s.
Proof.
  destruct (root_name_length_cases s)
    as [H | [(H & Hd) | [(H & Hnd & Hd) | (c0 & c1 & c2 & rest & -> & Hnd & _ & H0 & H1 & H2 & H)]]];
    rewrite H; clear H.
  - reflexivity.
  - apply drive_form_inv in Hd. destruct Hd as (c0 & s' & -> & Hl).
    intros _. unfold root_name_length. simpl. rewrite Hl. reflexivity.
  - apply device_form_inv in Hd.
    destruct Hd as (c0 & c1 & c2 & c3 & rest & -> & H0 & _ & _ & Hform).
    simpl in Hnd. unfold root_name_length. simpl. rewrite Hnd, H0. simpl.
    destruct Hform as [(H1 & Hc2) | (Hc1 & Hc2)].
    + intros _. rewrite H1.
      replace (utf8.is_slash c2) with false; [reflexivity|].
      symmetry. apply is_slash_false.
      unfold BACKSLASH, SLASH, QUESTION, DOT in *. lia.
    + subst c1 c2. rewrite !Z.eqb_refl. discriminate.
  - intros _. simpl in Hnd. unfold root_name_length.
    pose proof (find_index_firstn utf8.is_slash rest) as Hidem.
    pose proof (find_index_before utf8.is_slash rest 0) as Hfirst.
    simpl. rewrite Hnd, H0, H1, H2. simpl.
    rewrite Hidem.
    destruct (find_index utf8.is_slash rest) as [|k]; simpl; [reflexivity|].
    destruct rest as [|c3 rest]; simpl in *; [reflexivity|].
    rewrite Hfirst by lia. rewrite andb_false_r. reflexivity.
Qed.

End RootNameFacts.

(** ** The boundaries [util::utf8] computes *)

Lemma root_end_bounds (m : storage) (first last : ptr) :
  first <= last -> last <= length m ->
  first <= root_end m first last <= last.
Proof.
  intros Hfl Hl. unfold root_end.
  pose proof (root_name_length_le utf8_letter (span m first last)) as H.
  rewrite span_length in H by assumption. lia.
Qed.

Lemma utf8_find_relative_path_spec (m : storage) (first last : ptr) :
  first <= last -> last <= length m ->
  exists rel,
    utf8.find_relative_path m first last = Some rel
    /\ first_such not_slash m (root_end m first last) last rel.
Proof.
  intros Hfl Hl. unfold utf8.find_relative_path.
  rewrite utf8_find_root_name_end_eq by assumption.
  apply find_if_spec; [|assumption].
  now apply root_end_bounds.
Qed.

Lemma utf8_find_filename_spec (m : storage) (first last : ptr) :
  first <= last -> last <= length m ->
  exists rel fname,
    utf8.find_relative_path m first last = Some rel
    /\ first_such not_slash m (root_end m first last) last rel
    /\ utf8.find_filename m first last = Some fname
    /\ last_such not_slash m rel last fname.
Proof.
  intros Hfl Hl.
  destruct (utf8_find_relative_path_spec m first last Hfl Hl) as (rel & Hrel & Hfs).
  destruct (retreat_while_spec not_slash m rel last) as (fname & Hf & Hls);
    [apply Hfs | assumption |].
  exists rel, fname. unfold utf8.find_filename. rewrite Hrel. auto.
Qed.

Lemma find_extension_scan_spec (m : storage) (fn ad ext : ptr) :
  fn < ext -> ext <= length m ->
  exists e,
    utf8.find_extension_scan m fn ad ext = Some e
    /\ ((fn < e < ext /\ nth e m 0%Z = DOT
         /\ forall i, e < i < ext -> nth i m 0%Z <> DOT)
        \/ (e = ad /\ forall i, fn < i < ext -> nth i m 0%Z <> DOT)).
Proof.
  induction ext as [|e' IH]; intros Hlt Hle; [lia|].
  simpl. destruct (Nat.eqb_spec fn e') as [->|Hne].
  - exists ad. split; [reflexivity|]. right. split; [reflexivity|]. intros; lia.
  - rewrite load_nth by lia.
    destruct (Z.eqb_spec (nth e' m 0%Z) DOT) as [Hdot|Hdot].
    + exists e'. split; [reflexivity|]. left.
      split; [lia|]. split; [assumption|]. intros; lia.
    + destruct IH as (e & Heq & He); try lia.
      exists e. split; [assumption|].
      destruct He as [(Hr & Hd & Hno) | (-> & Hno)]; [left | right].
      * split; [lia|]. split; [assumption|].
        intros i Hi. destruct (Nat.eq_dec i e') as [->|]; [assumption|].
        apply Hno. lia.
      * split; [reflexivity|].
        intros i Hi. destruct (Nat.eq_dec i e') as [->|]; [assumption|].
        apply Hno. lia.
Qed.

Lemma utf8_find_extension_spec (m : storage) (fn ad : ptr) :
  fn <= ad -> ad <= length m ->
  exists e, utf8.find_extension m fn ad = Some e /\ extension_start m fn ad e.
Proof.
  intros Hle Hl. unfold utf8.find_extension.
  destruct (Nat.eqb_spec fn ad) as [->|Hne].
  { exists ad. split; [reflexivity|]. apply ext_short. lia. }
  destruct ad as [|ext]; [lia|].
  destruct (Nat.eqb_spec fn ext) as [->|Hne'].
  { exists (S ext). split; [reflexivity|]. apply ext_short. lia. }
  unfold test_eq, test. rewrite load_nth by lia. simpl option_map.
  destruct (Z.eqb_spec (nth ext m 0%Z) DOT) as [Hdot|Hdot].
  - destruct ext as [|ext']; [lia|].
    unfold load_prev. rewrite load_nth by lia.
    simpl. rewrite Nat.sub_0_r.
    destruct (Nat.eqb_spec fn ext') as [->|Hne'']; simpl.
    + destruct (Z.eqb_spec (nth ext' m 0%Z) DOT) as [Hdot'|Hdot'].
      * exists (S (S ext')). split; [reflexivity|].
        apply ext_dotdot; [lia | assumption |].
        now replace (ext' + 1) with (S ext') by lia.
      * exists (S ext'). split; [reflexivity|].
        replace (S ext') with (S (S ext') - 1) at 2 by lia.
        apply ext_trailing_dot; [lia | |tauto].
        now replace (S (S ext') - 1) with (S ext') by lia.
    + exists (S ext'). split; [reflexivity|].
      replace (S ext') with (S (S ext') - 1) at 2 by lia.
      apply ext_trailing_dot; [lia | |lia].
      now replace (S (S ext') - 1) with (S ext') by lia.
  - destruct (find_extension_scan_spec m fn (S ext) ext) as (e & Heq & He);
      try lia.
    exists e. split; [assumption|].
    assert (Hlast : nth (S ext - 1) m 0%Z <> DOT)
      by now replace (S ext - 1) with ext by lia.
    destruct He as [(Hr & Hd & Hno) | (-> & Hno)].
    + apply ext_interior_dot; try assumption; try lia.
      intros i Hi. destruct (Nat.eq_dec i ext) as [->|]; [assumption|].
      apply Hno. lia.
    + apply ext_no_dot; try assumption; try lia.
      intros i Hi. destruct (Nat.eq_dec i ext) as [->|]; [assumption|].
      apply Hno. lia.
Qed.

Lemma extension_start_bounds (m : storage) (fn ad e : ptr) :
  fn <= ad -> extension_start m fn ad e -> fn <= e <= ad.
Proof. intros Hle He. destruct He; lia. Qed.

(** ** Drive letters *)

Lemma is_ascii_letter_true (c : Z) :
  is_ascii_letter c = true <-> (65 <= c <= 90 \/ 97 <= c <= 122)%Z.
Proof.
  unfold is_ascii_letter, UPPER_A, LOWER_A.
  rewrite orb_true_iff, !andb_true_iff, !Z.leb_le. reflexivity.
Qed.

Lemma all_from_spec (P : Z -> bool) (n : nat) :
  forall lo, all_from P lo n = true ->
  forall c, (lo <= c < lo + Z.of_nat n)%Z -> P c = true.
Proof.
  induction n as [|n IH]; intros lo H c Hc; [lia|].
  simpl in H. apply andb_true_iff in H. destruct H as [Hlo Hrest].
  destruct (Z.eq_dec c lo) as [->|Hne]; [assumption|].
  apply (IH (lo + 1)%Z); [assumption | lia].
Qed.

Lemma utf8_letter_ascii (c : Z) :
  char_value c -> utf8_letter c = is_ascii_letter c.
Proof.
  intros Hc. apply eqb_prop.
  apply (all_from_spec (fun c => eqb (utf8_letter c) (is_ascii_letter c)) 384 (-128)%Z).
  - vm_compute. reflexivity.
  - unfold char_value in Hc. lia.
Qed.

Lemma wide_letter_utf8 (c : Z) :
  (0 <= c <= 255)%Z -> wide_letter c = utf8_letter c.
Proof.
  intros Hc. apply eqb_prop.
  apply (all_from_spec (fun c => eqb (wide_letter c) (utf8_letter c)) 256 0%Z).
  - vm_compute. reflexivity.
  - lia.
Qed.

Lemma char_value_nth (m : storage) (i : nat) :
  Forall char_value m -> char_value (nth i m 0%Z).
Proof.
  intros H. destruct (nth_in_or_default i m 0%Z) as [Hin | ->].
  - rewrite Forall_forall in H. now apply H.
  - unfold char_value. lia.
Qed.

Lemma hd_span (m : storage) (a b : ptr) :
  hd 0%Z (span m a b) = if a <? b then nth a m 0%Z else 0%Z.
Proof.
  destruct (Nat.ltb_spec a b).
  - rewrite <- (Nat.add_0_r a) at 2. rewrite <- (nth_span m a b 0) by lia.
    now destruct (span m a b).
  - now rewrite span_empty by lia.
Qed.

Lemma root_name_length_letter (letter letter' : Z -> bool) (s : list Z) :
  letter (hd 0%Z s) = letter' (hd 0%Z s) ->
  root_name_length letter s = root_name_length letter' s.
Proof.
  intros H. unfold root_name_length.
  destruct s as [|c0 [|c1 s]]; try reflexivity.
  simpl in *. now rewrite H.
Qed.

Lemma utf8_has_drive_letter_prefix_eq (m : storage) (first last : ptr) :
  first <= last -> last <= length m ->
  utf8.has_drive_letter_prefix m first last
  = Some ((2 <=? last - first)
          && utf8_letter (nth first m 0%Z)
          && (nth (first + 1) m 0%Z =? COLON)%Z).
Proof.
  intros Hfl Hl. unfold utf8.has_drive_letter_prefix, utf8.is_drive_prefix.
  fold utf8_letter. unfold test_eq, test.
  ptrdiff_to_nat.
  destruct (Nat.leb_spec 2 (last - first)); simpl; [|reflexivity].
  rewrite !load_nth by lia. simpl.
  now destruct (utf8_letter (nth first m 0%Z)).
Qed.

Lemma root_end_spec (m : storage) (first last : ptr) :
  Forall char_value m ->
  root_end m first last = first + root_name_end_spec (span m first last).
Proof.
  intros Hm. unfold root_end, root_name_end_spec. f_equal.
  apply root_name_length_letter, utf8_letter_ascii.
  rewrite hd_span. destruct (first <? last).
  - now apply char_value_nth.
  - unfold char_value. lia.
Qed.

(** ** The six component views *)

Lemma boundaries_order m first last rel fname pend ads exts :
  first <= last -> last <= length m ->
  boundaries m first last rel fname pend ads exts ->
  first <= root_end m first last /\ root_end m first last <= rel
  /\ rel <= pend /\ pend <= fname /\ fname <= exts /\ exts <= ads /\ ads <= last.
Proof.
  intros Hfl Hl [Hrel Hfname Hpend Hads Hexts].
  pose proof (root_end_bounds m first last Hfl Hl).
  destruct Hrel as (? & _), Hfname as (? & _), Hpend as (? & _), Hads as (? & _).
  assert (fname <= exts <= ads)
    by (apply (extension_start_bounds m); [lia | assumption]).
  lia.
Qed.

(** Every function of [util::utf8] returns, and returns the view between
    the boundaries it is named after. *)
Lemma utf8_views (m : storage) (p : string_view) :
  valid m p ->
  exists rel fname pend ads exts,
    boundaries m (data p) (view_end p) rel fname pend ads exts
    /\ utf8.find_relative_path m (data p) (view_end p) = Some rel
    /\ utf8.find_filename m (data p) (view_end p) = Some fname
    /\ utf8.root_name m p
       = Some (mk_view (data p) (root_end m (data p) (view_end p) - data p))
    /\ utf8.relative_path m p = Some (mk_view rel (view_end p - rel))
    /\ utf8.parent_path m p = Some (mk_view (data p) (pend - data p))
    /\ utf8.filename m p = Some (mk_view fname (view_end p - fname))
    /\ utf8.stem m p = Some (mk_view fname (exts - fname))
    /\ utf8.extension m p = Some (mk_view exts (ads - exts)).
Proof.
  intros [Hv Hsz].
  assert (Hfl : data p <= view_end p) by (unfold view_end; lia).
  destruct (utf8_find_filename_spec m _ _ Hfl Hv)
    as (rel & fname & Hrel & Hfs & Hfname & Hls).
  assert (Hfname' : retreat_while not_slash m rel (view_end p) = Some fname).
  { unfold utf8.find_filename in Hfname. now rewrite Hrel in Hfname. }
  destruct (retreat_while_spec utf8.is_slash m rel fname) as (pend & Hpend & Hlp);
    [apply Hls | destruct Hls as (? & _); lia |].
  destruct (find_if_spec is_colon m fname (view_end p)) as (ads & Hads & Hfa);
    [apply Hls | assumption |].
  destruct (utf8_find_extension_spec m fname ads) as (exts & Hexts & Hes);
    [apply Hfa | destruct Hfa as (? & _); lia |].
  exists rel, fname, pend, ads, exts.
  split; [now constructor|].
  unfold utf8.root_name, utf8.relative_path, utf8.parent_path, utf8.filename,
    utf8.stem, utf8.extension, find.
  fold (view_end p). fold not_slash. fold is_colon.
  rewrite utf8_find_root_name_end_eq by assumption.
  rewrite Hrel, Hfname, Hfname', Hpend, Hads, Hexts.
  pose proof (root_end_bounds m _ _ Hfl Hv) as Hre.
  destruct Hfs as (? & _), Hls as (? & _), Hlp as (? & _), Hfa as (? & _).
  pose proof (extension_start_bounds m fname ads exts ltac:(lia) Hes).
  unfold view_end in *.
  fold (root_end m (data p) (data p + size p)).
  rewrite !size_t_ptrdiff by lia.
  repeat split; reflexivity.
Qed.

(** * Auxiliary facts *)

Lemma valid_range (m : storage) (p : string_view) :
  valid m p -> data p <= view_end p /\ view_end p <= length m.
Proof. intros [Hv _]. unfold view_end in *. lia. Qed.

Lemma contents_view (m : storage) (a b : ptr) :
  a <= b -> contents m (mk_view a (b - a)) = span m a b.
Proof.
  intros H. unfold contents, view_end. simpl. f_equal. lia.
Qed.

Lemma valid_sub (m : storage) (p : string_view) (a b : ptr) :
  valid m p -> data p <= a -> a <= b -> b <= view_end p ->
  valid m (mk_view a (b - a)).
Proof.
  intros [Hv Hsz] Ha Hab Hb. unfold valid, view_end in *. simpl. split; lia.
Qed.

Lemma view_end_mk (a b : ptr) : a <= b -> view_end (mk_view a (b - a)) = b.
Proof. intros H. unfold view_end. simpl. lia. Qed.

(** Validity of a concrete view, and of the units of a concrete string. *)
Ltac valid_by_computation :=
  split; [vm_compute; lia | vm_compute; reflexivity].

Ltac chars_by_computation :=
  repeat (apply Forall_cons;
          [unfold char_value; vm_compute; split; discriminate|]);
  apply Forall_nil.

Lemma components_defined (m : storage) (p : string_view) :
  valid m p ->
  forall f, In f utf8_components ->
            exists v, f m p = Some v /\ sub_view p v /\ valid m v.
Proof.
  intros Hv.
  destruct (valid_range m p Hv) as [Hfl Hl].
  destruct (utf8_views m p Hv)
    as (rel & fname & pend & ads & exts & Hb & _ & _
        & Hroot & Hrp & Hpp & Hfn & Hst & Hex).
  pose proof (boundaries_order _ _ _ _ _ _ _ _ Hfl Hl Hb) as Hord.
  intros f Hf. unfold utf8_components in Hf. simpl in Hf.
  destruct Hf as [<- | [<- | [<- | [<- | [<- | [<- | []]]]]]];
    eexists; (split; [eassumption|]);
    (split; [unfold sub_view, view_end in *; simpl; lia
            | apply (valid_sub m p); [assumption | lia..]]).
Qed.

Lemma components_bounds (m : storage) (p : string_view) :
  valid m p ->
  forall f v, In f utf8_components -> f m p = Some v ->
              valid m v /\ sub_view p v.
Proof.
  intros Hv f v Hf Heq.
  destruct (components_defined m p Hv f Hf) as (v' & Heq' & Hsub & Hvv).
  rewrite Heq in Heq'. injection Heq' as <-. now split.
Qed.

Lemma last_nth (l : list Z) : last l 0%Z = nth (length l - 1) l 0%Z.
Proof.
  induction l as [|a [|b l] IH]; try reflexivity.
  change (last (a :: b :: l) 0%Z) with (last (b :: l) 0%Z).
  rewrite IH. simpl. now rewrite Nat.sub_0_r.
Qed.

Lemma span_dotdot (m : storage) (fn ad : ptr) :
  ad <= length m ->
  span m fn ad = [DOT; DOT]
  <-> ad = fn + 2 /\ nth fn m 0%Z = DOT /\ nth (fn + 1) m 0%Z = DOT.
Proof.
  intros Hl. split.
  - intros H. pose proof (span_length m fn ad Hl) as Hlen.
    rewrite H in Hlen. simpl in Hlen.
    pose proof (nth_span m fn ad 0 ltac:(lia)) as H0.
    pose proof (nth_span m fn ad 1 ltac:(lia)) as H1.
    rewrite H in H0, H1. simpl in H0, H1.
    rewrite Nat.add_0_r in H0. split; [lia|]. now split.
  - intros (-> & H0 & H1).
    rewrite span_head by lia. rewrite span_head by lia.
    rewrite span_empty by lia.
    replace (S fn) with (fn + 1) by lia. now rewrite H0, H1.
Qed.

(** The rules of the stem/extension grammar, read off [extension_start]. *)
Lemma extension_start_rules (m : storage) (fn ad e : ptr) :
  fn < ad -> extension_start m fn ad e ->
  (ad = fn + 1 -> e = ad)
  /\ (ad = fn + 2 /\ nth fn m 0%Z = DOT /\ nth (fn + 1) m 0%Z = DOT -> e = ad)
  /\ (fn + 2 <= ad -> nth (ad - 1) m 0%Z = DOT ->
      ~ (ad = fn + 2 /\ nth fn m 0%Z = DOT /\ nth (fn + 1) m 0%Z = DOT) ->
      e = ad - 1)
  /\ (fn + 2 <= ad -> nth (ad - 1) m 0%Z <> DOT ->
      forall i, fn < i < ad -> nth i m 0%Z = DOT ->
                (forall j, i < j < ad -> nth j m 0%Z <> DOT) -> e = i)
  /\ (fn + 2 <= ad -> nth (ad - 1) m 0%Z <> DOT ->
      (forall i, fn < i < ad -> nth i m 0%Z <> DOT) -> e = ad).
Proof.
  intros Hlt He. repeat split.
  - intros Hone. destruct He; lia.
  - intros (Had & H0 & H1).
    destruct He as [Hs | Hd _ _ | Hlen Hdot Hnd | e Hlen Hndot Hr Hdot Hno
                   | Hlen Hndot Hno]; try reflexivity.
    + exfalso. apply Hnd. now split.
    + exfalso. apply Hndot. now replace (ad - 1) with (fn + 1) by lia.
  - intros H2 Hdot' Hnd'.
    destruct He as [Hs | Hd H0 H1 | Hlen Hdot Hnd | e Hlen Hndot Hr Hdot Hno
                   | Hlen Hndot Hno];
      first [reflexivity | lia | exfalso; now apply Hndot].
  - intros H2 Hndot' i Hi Hdoti Hnoi.
    destruct He as [Hs | Hd H0 H1 | Hlen Hdot Hnd | e Hlen Hndot Hr Hdot Hno
                   | Hlen Hndot Hno];
      try lia; try (exfalso; now apply Hndot').
    + exfalso. apply Hndot'. now replace (ad - 1) with (fn + 1) by lia.
    + destruct (Nat.lt_trichotomy e i) as [Hlt' | [Heq | Hgt]];
        [|assumption|].
      * exfalso. apply (Hno i); [lia | assumption].
      * exfalso. apply (Hnoi e); [lia | assumption].
    + exfalso. apply (Hno i); [lia | assumption].
  - intros H2 Hndot' Hnoi.
    destruct He as [Hs | Hd H0 H1 | Hlen Hdot Hnd | e Hlen Hndot Hr Hdot Hno
                   | Hlen Hndot Hno];
      first [reflexivity | exfalso; now apply Hndot' | idtac].
    exfalso. apply (Hnoi e); [lia | assumption].
Qed.

Lemma contents_nil (m : storage) (a b : ptr) :
  a <= b -> b <= length m ->
  contents m (mk_view a (b - a)) = [] <-> a = b.
Proof.
  intros Hab Hb. rewrite contents_view by assumption. split.
  - intros H. pose proof (span_length m a b Hb) as Hlen.
    rewrite H in Hlen. simpl in Hlen. lia.
  - intros ->. apply span_empty. lia.
Qed.

Lemma wide_is_drive_prefix_eq (m : storage) (first : ptr) :
  Forall common_unit m ->
  wide.is_drive_prefix m first = utf8.is_drive_prefix m first.
Proof.
  intros Hm. unfold wide.is_drive_prefix, utf8.is_drive_prefix.
  fold wide_letter. fold utf8_letter.
  destruct (load m first) as [c|] eqn:Hc; [|reflexivity].
  simpl. rewrite wide_letter_utf8; [reflexivity|].
  rewrite Forall_forall in Hm. apply Hm.
  eapply nth_error_In. exact Hc.
Qed.

Lemma wide_find_root_name_end_utf8 (m : storage) (first last : ptr) :
  Forall common_unit m ->
  wide.find_root_name_end m first last = utf8.find_root_name_end m first last.
Proof.
  intros Hm.
  unfold wide.find_root_name_end, utf8.find_root_name_end,
    wide.has_drive_letter_prefix, utf8.has_drive_letter_prefix.
  now rewrite wide_is_drive_prefix_eq.
Qed.

Lemma wide_find_relative_path_utf8 (m : storage) (first last : ptr) :
  Forall common_unit m ->
  wide.find_relative_path m first last = utf8.find_relative_path m first last.
Proof.
  intros Hm. unfold wide.find_relative_path, utf8.find_relative_path.
  now rewrite wide_find_root_name_end_utf8.
Qed.

Lemma wide_find_filename_utf8 (m : storage) (first last : ptr) :
  Forall common_unit m ->
  wide.find_filename m first last = utf8.find_filename m first last.
Proof.
  intros Hm. unfold wide.find_filename, utf8.find_filename.
  now rewrite wide_find_relative_path_utf8.
Qed.

Lemma first_such_index pred (m : storage) (a b r : ptr) :
  b <= length m -> first_such pred m a b r ->
  r = a + find_index pred (span m a b).
Proof.
  intros Hb Hr.
  pose proof (find_if_first_such pred m a b r Hb Hr) as H.
  rewrite find_if_eq in H; [congruence | | assumption].
  destruct Hr as (Hr & _). lia.
Qed.

Lemma first_such_not_in (m : storage) (a b r : ptr) (v : Z) :
  r <= length m ->
  first_such (fun c => (c =? v)%Z) m a b r -> ~ In v (span m a r).
Proof.
  intros Hl (Hr & Hbefore & _) Hin.
  destruct (In_nth _ _ 0%Z Hin) as (i & Hi & Hnth).
  rewrite span_length in Hi by assumption.
  rewrite nth_span in Hnth by lia.
  specialize (Hbefore (a + i) ltac:(lia)).
  rewrite Hnth, Z.eqb_refl in Hbefore. discriminate.
Qed.

Lemma drive_form_span (letter : Z -> bool) (m : storage) (a b : ptr) :
  a <= b -> b <= length m ->
  drive_form letter (span m a b)
  = (2 <=? b - a) && letter (nth a m 0%Z) && (nth (a + 1) m 0%Z =? COLON)%Z.
Proof.
  intros Hab Hb. destruct (Nat.leb_spec 2 (b - a)).
  - rewrite span_head by lia. rewrite (span_head m (S a)) by lia.
    simpl. now replace (a + 1) with (S a) by lia.
  - pose proof (span_length m a b Hb) as Hlen.
    destruct (span m a b) as [|c0 [|c1 s]]; try reflexivity.
    simpl in Hlen. lia.
Qed.

Lemma root_end_plain (m : storage) (a b : ptr) :
  a <= b -> b <= length m ->
  utf8.has_drive_letter_prefix m a b = Some false ->
  (a < b -> utf8.is_slash (nth a m 0%Z) = false) ->
  root_end m a b = a.
Proof.
  intros Hab Hb Hd Hs. unfold root_end.
  rewrite root_name_length_none; [lia | |].
  - rewrite utf8_has_drive_letter_prefix_eq in Hd by assumption.
    rewrite drive_form_span by assumption. congruence.
  - rewrite hd_span. destruct (Nat.ltb_spec a b); [auto|reflexivity].
Qed.

Lemma no_colon_no_drive (m : storage) (a b : ptr) :
  a <= b -> b <= length m ->
  (forall i, a <= i < b -> is_colon (nth i m 0%Z) = false) ->
  utf8.has_drive_letter_prefix m a b = Some false.
Proof.
  intros Hab Hb Hno. rewrite utf8_has_drive_letter_prefix_eq by assumption.
  f_equal. destruct (Nat.leb_spec 2 (b - a)); [|reflexivity].
  specialize (Hno (a + 1) ltac:(lia)). unfold is_colon in Hno.
  rewrite Hno. apply andb_false_r.
Qed.

(** A span without drive prefix that does not start with a slash is its
    own relative path. *)
Lemma find_relative_path_plain (m : storage) (a b : ptr) :
  a <= b -> b <= length m ->
  utf8.has_drive_letter_prefix m a b = Some false ->
  (a < b -> utf8.is_slash (nth a m 0%Z) = false) ->
  utf8.find_relative_path m a b = Some a.
Proof.
  intros Hab Hb Hd Hs.
  destruct (utf8_find_relative_path_spec m a b Hab Hb) as (rel & Heq & Hrel).
  rewrite Heq. f_equal.
  rewrite root_end_plain in Hrel by assumption.
  apply (first_such_unique not_slash m a b); [assumption|].
  split; [lia|]. split; [intros; lia|].
  intros Hlt. unfold not_slash. now rewrite Hs.
Qed.

(** A span without drive prefix and without slashes is its own filename. *)
Lemma find_filename_plain (m : storage) (a b : ptr) :
  a <= b -> b <= length m ->
  utf8.has_drive_letter_prefix m a b = Some false ->
  (forall i, a <= i < b -> utf8.is_slash (nth i m 0%Z) = false) ->
  utf8.find_filename m a b = Some a.
Proof.
  intros Hab Hb Hd Hs. unfold utf8.find_filename.
  rewrite find_relative_path_plain; try assumption.
  - apply retreat_while_last_such; [assumption|].
    split; [lia|]. split; [|intros; lia].
    intros i Hi. unfold not_slash. now rewrite Hs.
  - intros Hlt. apply Hs. lia.
Qed.

Lemma root_name_length_nt_device (letter : Z -> bool) (s : list Z) :
  nt_device_root s = true -> root_name_length letter s = 0.
Proof.
  destruct s as [|c0 [|c1 [|c2 [|c3 s]]]]; try discriminate.
  simpl. intros H.
  apply andb_true_iff in H. destruct H as [H H2].
  apply andb_true_iff in H. destruct H as [H0 H1].
  unfold root_name_length. simpl. rewrite H0. simpl.
  replace (c1 =? COLON)%Z with false by (symmetry; units_lia).
  replace (utf8.is_slash c1) with false
    by (symmetry; apply is_slash_false; units_lia).
  rewrite andb_false_r. reflexivity.
Qed.

Lemma root_name_reparse (m : storage) (p r : string_view) :
  valid m p -> utf8.root_name m p = Some r ->
  utf8.root_name m r
  = Some (if nt_device_root (contents m r) then mk_view (data r) 0 else r).
Proof.
  intros Hv Hr.
  destruct (valid_range m p Hv) as [Hfl Hl].
  destruct (utf8_views m p Hv) as (? & ? & ? & ? & ? & _ & _ & _ & Hroot & _).
  pose proof (root_end_bounds m _ _ Hfl Hl) as Hre.
  rewrite Hroot in Hr. injection Hr as <-.
  assert (Hvr : valid m (mk_view (data p) (root_end m (data p) (view_end p) - data p)))
    by (apply (valid_sub m p); [assumption | lia..]).
  destruct (utf8_views m _ Hvr) as (? & ? & ? & ? & ? & _ & _ & _ & Hroot' & _).
  rewrite Hroot'. rewrite view_end_mk, contents_view by lia.
  cbn [data]. f_equal.
  assert (Hspan : span m (data p) (root_end m (data p) (view_end p))
                  = firstn (root_name_length utf8_letter
                              (span m (data p) (view_end p)))
                      (span m (data p) (view_end p))).
  { unfold root_end at 1.
    rewrite <- (span_firstn m (data p) (view_end p)) by apply Hre.
    f_equal. unfold root_end. lia. }
  unfold root_end at 1. rewrite Hspan.
  destruct (nt_device_root _) eqn:Hnt.
  - rewrite root_name_length_nt_device by assumption. f_equal. lia.
  - rewrite root_name_length_idem by assumption. reflexivity.
Qed.

Lemma relative_path_reparse (m : storage) (p v : string_view) :
  valid m p -> utf8.relative_path m p = Some v ->
  utf8.has_drive_letter_prefix m (data v) (view_end v) = Some false ->
  utf8.relative_path m v = Some v.
Proof.
  intros Hv Hr Hd.
  destruct (valid_range m p Hv) as [Hfl Hl].
  destruct (utf8_views m p Hv)
    as (rel & fname & pend & ads & exts & Hb & _ & _ & _ & Hrp & _).
  pose proof (boundaries_order _ _ _ _ _ _ _ _ Hfl Hl Hb) as Hord.
  destruct Hb as [(_ & _ & Hat) _ _ _ _].
  rewrite Hrp in Hr. injection Hr as <-.
  rewrite view_end_mk in Hd by lia. cbn [data] in Hd.
  assert (Hvv : valid m (mk_view rel (view_end p - rel)))
    by (apply (valid_sub m p); [assumption | lia..]).
  destruct (utf8_views m _ Hvv)
    as (rel' & ? & ? & ? & ? & _ & Hrel' & _ & _ & Hrp' & _).
  rewrite Hrp'. rewrite view_end_mk in * by lia. cbn [data] in *.
  rewrite find_relative_path_plain in Hrel'; try assumption; try lia.
  - injection Hrel' as <-. reflexivity.
  - intros Hlt. apply negb_true_iff. now apply Hat.
Qed.

Lemma filename_reparse (m : storage) (p v : string_view) :
  valid m p -> utf8.filename m p = Some v ->
  utf8.has_drive_letter_prefix m (data v) (view_end v) = Some false ->
  utf8.filename m v = Some v.
Proof.
  intros Hv Hr Hd.
  destruct (valid_range m p Hv) as [Hfl Hl].
  destruct (utf8_views m p Hv)
    as (rel & fname & pend & ads & exts & Hb & _ & _ & _ & _ & _ & Hfn & _).
  pose proof (boundaries_order _ _ _ _ _ _ _ _ Hfl Hl Hb) as Hord.
  destruct Hb as [_ (_ & Hall & _) _ _ _].
  rewrite Hfn in Hr. injection Hr as <-.
  rewrite view_end_mk in Hd by lia. cbn [data] in Hd.
  assert (Hvv : valid m (mk_view fname (view_end p - fname)))
    by (apply (valid_sub m p); [assumption | lia..]).
  destruct (utf8_views m _ Hvv)
    as (? & fname' & ? & ? & ? & _ & _ & Hff' & _ & _ & _ & Hfn' & _).
  rewrite Hfn'. rewrite view_end_mk in * by lia. cbn [data] in *.
  rewrite find_filename_plain in Hff'; try assumption; try lia.
  - injection Hff' as <-. reflexivity.
  - intros i Hi. apply negb_true_iff. now apply Hall.
Qed.

Lemma parent_path_fixed (m : storage) (v : string_view) :
  valid m v ->
  utf8.parent_path m v = Some v
  <-> exists e, utf8.relative_path m v = Some e /\ size e = 0.
Proof.
  intros Hv.
  destruct (valid_range m v Hv) as [Hfl Hl].
  destruct (utf8_views m v Hv)
    as (rel & fname & pend & ads & exts & Hb & _ & _ & _ & Hrp & Hpp & _).
  pose proof (boundaries_order _ _ _ _ _ _ _ _ Hfl Hl Hb) as Hord.
  destruct Hb as [_ (_ & _ & Hprev) (_ & _ & Hprev') _ _].
  rewrite Hrp, Hpp. unfold not_slash in Hprev.
  split.
  - intros Hfix. eexists. split; [reflexivity|]. simpl.
    destruct v as [d n]. injection Hfix as Hfix.
    unfold view_end in *. simpl in *.
    assert (pend = d + n) by lia. subst pend.
    assert (fname = d + n) by lia. subst fname.
    destruct (Nat.eq_dec rel (d + n)) as [->|Hne]; [lia|].
    specialize (Hprev ltac:(lia)). specialize (Hprev' ltac:(lia)).
    rewrite Hprev' in Hprev. discriminate.
  - intros (e & He & Hsz). injection He as <-. simpl in Hsz.
    destruct v as [d n]. unfold view_end in *. simpl in *.
    do 2 f_equal. lia.
Qed.

Lemma stem_reparse (m : storage) (p v : string_view) :
  valid m p -> utf8.stem m p = Some v ->
  utf8.stem m v = Some v
  <-> exists e, utf8.extension m v = Some e /\ size e = 0.
Proof.
  intros Hv Hs.
  destruct (valid_range m p Hv) as [Hfl Hl].
  destruct (utf8_views m p Hv)
    as (rel & fname & pend & ads & exts & Hb & _ & _ & _ & _ & _ & _ & Hst & _).
  pose proof (boundaries_order _ _ _ _ _ _ _ _ Hfl Hl Hb) as Hord.
  destruct Hb as [_ (_ & Hall & _) _ Hads _].
  rewrite Hst in Hs. injection Hs as <-.
  assert (Hvv : valid m (mk_view fname (exts - fname)))
    by (apply (valid_sub m p); [assumption | lia..]).
  destruct (utf8_views m _ Hvv)
    as (? & fname' & ? & ads' & exts' & Hb' & _ & Hff' & _ & _ & _ & _
        & Hst' & Hex').
  rewrite view_end_mk in * by lia. cbn [data] in *.
  assert (Hnc : forall i, fname <= i < exts -> is_colon (nth i m 0%Z) = false)
    by (intros; apply Hads; lia).
  rewrite find_filename_plain in Hff'; try lia.
  2:{ apply no_colon_no_drive; [lia.. | assumption]. }
  2:{ intros i Hi. apply negb_true_iff. apply Hall. lia. }
  injection Hff' as <-.
  destruct Hb' as [_ _ _ Hads' Hexts'].
  assert (Ha : ads' = exts).
  { apply (first_such_unique is_colon m fname exts); [assumption|].
    split; [lia|]. split; [assumption | intros; lia]. }
  subst ads'.
  pose proof (extension_start_bounds m fname exts exts' ltac:(lia) Hexts')
    as Hbe.
  rewrite Hst', Hex'. split.
  - intros Hfix. injection Hfix as Hfix.
    eexists. split; [reflexivity|]. simpl. lia.
  - intros (e & He & Hsz). injection He as <-. simpl in Hsz.
    do 2 f_equal. lia.
Qed.

Lemma extension_start_again (m : storage) (fn ad e e' : ptr) :
  fn <= ad -> extension_start m fn ad e -> extension_start m e ad e' ->
  e' = ad.
Proof.
  intros Hle He He'.
  destruct He as [Hs | Hd H0 H1 | Hlen Hdot Hnd | e Hlen Hndot Hr Hdot Hno
                 | Hlen Hndot Hno].
  - pose proof (extension_start_bounds m ad ad e' ltac:(lia) He'). lia.
  - pose proof (extension_start_bounds m ad ad e' ltac:(lia) He'). lia.
  - assert (Hlt : ad - 1 < ad) by lia.
    destruct (extension_start_rules m (ad - 1) ad e' Hlt He') as (R1 & _).
    apply R1. lia.
  - assert (He2 : e + 2 <= ad).
    { destruct (Nat.eq_dec e (ad - 1)) as [->|]; [contradiction | lia]. }
    assert (Hlt : e < ad) by lia.
    destruct (extension_start_rules m e ad e' Hlt He') as (_ & _ & _ & _ & R5).
    now apply R5.
  - pose proof (extension_start_bounds m ad ad e' ltac:(lia) He'). lia.
Qed.

Lemma extension_reparse (m : storage) (p v : string_view) :
  valid m p -> utf8.extension m p = Some v ->
  utf8.extension m v = Some (mk_view (view_end v) 0).
Proof.
  intros Hv Hs.
  destruct (valid_range m p Hv) as [Hfl Hl].
  destruct (utf8_views m p Hv)
    as (rel & fname & pend & ads & exts & Hb & _ & _ & _ & _ & _ & _ & _ & Hex).
  pose proof (boundaries_order _ _ _ _ _ _ _ _ Hfl Hl Hb) as Hord.
  destruct Hb as [_ (_ & Hall & _) _ Hads Hexts].
  rewrite Hex in Hs. injection Hs as <-.
  assert (Hvv : valid m (mk_view exts (ads - exts)))
    by (apply (valid_sub m p); [assumption | lia..]).
  destruct (utf8_views m _ Hvv)
    as (? & fname' & ? & ads' & exts' & Hb' & _ & Hff' & _ & _ & _ & _
        & _ & Hex').
  rewrite view_end_mk in * by lia. cbn [data] in *.
  assert (Hnc : forall i, exts <= i < ads -> is_colon (nth i m 0%Z) = false)
    by (intros; apply Hads; lia).
  rewrite find_filename_plain in Hff'; try lia.
  2:{ apply no_colon_no_drive; [lia.. | assumption]. }
  2:{ intros i Hi. apply negb_true_iff. apply Hall. lia. }
  injection Hff' as <-.
  destruct Hb' as [_ _ _ Hads' Hexts'].
  assert (Ha : ads' = ads).
  { apply (first_such_unique is_colon m exts ads); [assumption|].
    split; [lia|]. split; [assumption | intros; lia]. }
  subst ads'.
  assert (He : exts' = ads)
    by (apply (extension_start_again m fname ads exts); [lia | assumption..]).
  subst exts'. rewrite Hex'. do 2 f_equal. lia.
Qed.

(** * The properties of the specification *)

(** C1. [find_root_name_end] returns the boundary of the six-step
    decision order ([root_name_end_spec], on the units of the span), and
    [root_name] is the view from the start of the path to that boundary. *)
Theorem find_root_name_end_decision_order (m : storage) (p : string_view)
  (Hv : valid m p) (Hm : Forall char_value m) :
  utf8.find_root_name_end m (data p) (view_end p)
  = Some (data p + root_name_end_spec (contents m p))
  /\ utf8.root_name m p
     = Some (mk_view (data p) (root_name_end_spec (contents m p))).
Proof.
  destruct (valid_range m p Hv) as [Hfl Hl].
  destruct (utf8_views m p Hv) as (rel & fname & pend & ads & exts & _ & _ & _ & Hroot & _).
  rewrite utf8_find_root_name_end_eq by assumption.
  fold (root_end m (data p) (view_end p)).
  rewrite Hroot, root_end_spec by assumption.
  unfold contents. split; [reflexivity|]. do 2 f_equal. lia.
Qed.

Lemma find_root_name_end_decision_order_witness :
  valid (units "\\server\share") (whole (units "\\server\share"))
  /\ Forall char_value (units "\\server\share")
  /\ utf8.find_root_name_end (units "\\server\share") 0 14 = Some 8.
Proof.
  assert (Hv : valid (units "\\server\share") (whole (units "\\server\share")))
    by valid_by_computation.
  assert (Hm : Forall char_value (units "\\server\share"))
    by chars_by_computation.
  split; [exact Hv | split; [exact Hm|]].
  exact (proj1 (find_root_name_end_decision_order _ _ Hv Hm)).
Defined.

(** C2. On a non-empty filename [f] = [[fn, ad)], [find_extension]
    returns [fn + k] where: [k] is the whole length when [f] has one unit
    or is [..]; [k] is the position of the trailing dot when [f] ends in a
    dot; otherwise [k] is the position of the rightmost dot that is not in
    position 0, and the whole length when there is none. *)
Theorem find_extension_rules (m : storage) (fn ad : ptr)
  (Hlt : fn < ad) (Hl : ad <= length m) :
  (exists k,
      utf8.find_extension m fn ad = Some (fn + k)
      /\ k <= length (span m fn ad)
      /\ (length (span m fn ad) = 1 -> k = 1)
      /\ (span m fn ad = [DOT; DOT] -> k = 2)
      /\ (2 <= length (span m fn ad) -> last (span m fn ad) 0%Z = DOT ->
          span m fn ad <> [DOT; DOT] -> k = length (span m fn ad) - 1)
      /\ (2 <= length (span m fn ad) -> last (span m fn ad) 0%Z <> DOT ->
          forall i, 1 <= i < length (span m fn ad) ->
                    nth i (span m fn ad) 0%Z = DOT ->
                    (forall j, i < j < length (span m fn ad) ->
                               nth j (span m fn ad) 0%Z <> DOT) ->
                    k = i)
      /\ (2 <= length (span m fn ad) -> last (span m fn ad) 0%Z <> DOT ->
          (forall i, 1 <= i < length (span m fn ad) ->
                     nth i (span m fn ad) 0%Z <> DOT) ->
          k = length (span m fn ad)))
  /\ on_path utf8.stem "archive.tar.gz" = Some (units "archive.tar")
  /\ on_path utf8.extension "archive.tar.gz" = Some (units ".gz")
  /\ on_path utf8.stem ".." = Some (units "..")
  /\ on_path utf8.extension ".." = Some (units "")
  /\ on_path utf8.stem ".bashrc" = Some (units ".bashrc")
  /\ on_path utf8.extension ".bashrc" = Some (units "")
  /\ on_path utf8.stem "x." = Some (units "x")
  /\ on_path utf8.extension "x." = Some (units ".").
Proof.
  split; [|repeat split; vm_compute; reflexivity].
  destruct (utf8_find_extension_spec m fn ad) as (e & Heq & He); try lia.
  pose proof (extension_start_bounds m fn ad e ltac:(lia) He) as Hb.
  pose proof (extension_start_rules m fn ad e Hlt He)
    as (R1 & R2 & R3 & R4 & R5).
  pose proof (span_dotdot m fn ad Hl) as Hdd.
  assert (Hnth : forall i, i < ad - fn ->
                           nth i (span m fn ad) 0%Z = nth (fn + i) m 0%Z)
    by (intros; apply nth_span; lia).
  assert (Hlast : last (span m fn ad) 0%Z = nth (ad - 1) m 0%Z).
  { rewrite last_nth, span_length by assumption.
    rewrite Hnth by lia. f_equal. lia. }
  rewrite Hlast, span_length by assumption.
  exists (e - fn). replace (fn + (e - fn)) with e by lia.
  split; [assumption|]. split; [lia|].
  split; [intros; assert (e = ad) by (apply R1; lia); lia|].
  split; [intros H; assert (e = ad) by (apply R2, Hdd, H);
          apply Hdd in H; lia|].
  split; [intros H2 Hdot Hne;
          assert (e = ad - 1)
            by (apply R3; [lia | assumption | now rewrite <- Hdd]);
          lia|].
  split.
  - intros H2 Hndot i Hi Hdot Hno.
    assert (e = fn + i); [|lia].
    apply R4; try lia; try assumption.
    + now rewrite <- Hnth by lia.
    + intros j Hj. replace j with (fn + (j - fn)) by lia.
      rewrite <- Hnth by lia. apply Hno. lia.
  - intros H2 Hndot Hno.
    assert (e = ad); [|lia].
    apply R5; try lia; try assumption.
    intros i Hi. replace i with (fn + (i - fn)) by lia.
    rewrite <- Hnth by lia. apply Hno. lia.
Qed.

Lemma find_extension_rules_witness :
  0 < 14 /\ 14 <= length (units "archive.tar.gz")
  /\ exists k,
      utf8.find_extension (units "archive.tar.gz") 0 14 = Some (0 + k)
      /\ k <= length (span (units "archive.tar.gz") 0 14).
Proof.
  assert (H0 : 0 < 14) by lia.
  assert (H1 : 14 <= length (units "archive.tar.gz")) by (vm_compute; lia).
  split; [exact H0 | split; [exact H1|]].
  destruct (proj1 (find_extension_rules (units "archive.tar.gz") 0 14 H0 H1))
    as (k & Heq & Hk & _).
  exists k. split; assumption.
Defined.

(** C3. [parent_path] is the prefix [[first, t2)]: from [last] the tail
    retreats to [t1] while it is above the start of the relative path and
    the unit before it is not a slash, then from [t1] to [t2] while it is
    above the start of the relative path and the unit before it is a
    slash. *)
Theorem parent_path_two_passes (m : storage) (p : string_view)
  (Hv : valid m p) :
  (exists rel t1 t2,
      utf8.find_relative_path m (data p) (view_end p) = Some rel
      /\ last_such not_slash m rel (view_end p) t1
      /\ last_such utf8.is_slash m rel t1 t2
      /\ data p <= t2
      /\ utf8.parent_path m p = Some (mk_view (data p) (t2 - data p)))
  /\ on_path utf8.parent_path "/cat/dog/\//\" = Some (units "/cat/dog")
  /\ on_path utf8.parent_path "C:\foo\bar" = Some (units "C:\foo").
Proof.
  split; [|split; vm_compute; reflexivity].
  destruct (valid_range m p Hv) as [Hfl Hl].
  destruct (utf8_views m p Hv)
    as (rel & fname & pend & ads & exts & Hb & Hrel & _ & _ & _ & Hpp & _).
  pose proof (boundaries_order _ _ _ _ _ _ _ _ Hfl Hl Hb) as Hord.
  destruct Hb as [_ Hfname Hpend _ _].
  exists rel, fname, pend. repeat split; try assumption; try apply Hfname;
    try apply Hpend; lia.
Qed.

Lemma parent_path_two_passes_witness :
  valid (units "/cat/dog/\//\") (whole (units "/cat/dog/\//\"))
  /\ exists rel t1 t2,
      utf8.find_relative_path (units "/cat/dog/\//\") 0 13 = Some rel
      /\ last_such not_slash (units "/cat/dog/\//\") rel 13 t1
      /\ last_such utf8.is_slash (units "/cat/dog/\//\") rel t1 t2
      /\ 0 <= t2
      /\ utf8.parent_path (units "/cat/dog/\//\") (whole (units "/cat/dog/\//\"))
         = Some (mk_view 0 (t2 - 0)).
Proof.
  assert (Hv : valid (units "/cat/dog/\//\") (whole (units "/cat/dog/\//\")))
    by valid_by_computation.
  split; [exact Hv|].
  exact (proj1 (parent_path_two_passes _ _ Hv)).
Defined.

(** C4, as the code has it.  Parsing a returned component with the
    function that returned it gives the same view only under a condition
    on the component: for [root_name], that it is not of the form [\??]
    (which parses to the empty view); for [relative_path] and [filename],
    that it has no drive-letter prefix; for [parent_path], that its
    relative path is empty; for [stem], that it has no extension of its
    own.  The extension of an extension is always empty. *)
Theorem reparse_components (m : storage) (p : string_view)
  (Hv : valid m p) :
  (forall r, utf8.root_name m p = Some r ->
             utf8.root_name m r
             = Some (if nt_device_root (contents m r)
                     then mk_view (data r) 0 else r))
  /\ (forall v, utf8.relative_path m p = Some v ->
                utf8.has_drive_letter_prefix m (data v) (view_end v)
                = Some false ->
                utf8.relative_path m v = Some v)
  /\ (forall v, utf8.filename m p = Some v ->
                utf8.has_drive_letter_prefix m (data v) (view_end v)
                = Some false ->
                utf8.filename m v = Some v)
  /\ (forall v, utf8.parent_path m p = Some v ->
                (utf8.parent_path m v = Some v
                 <-> exists e, utf8.relative_path m v = Some e /\ size e = 0))
  /\ (forall v, utf8.stem m p = Some v ->
                (utf8.stem m v = Some v
                 <-> exists e, utf8.extension m v = Some e /\ size e = 0))
  /\ (forall v, utf8.extension m p = Some v ->
                utf8.extension m v = Some (mk_view (view_end v) 0)).
Proof.
  split; [intros; now apply (root_name_reparse m p)|].
  split; [intros; now apply (relative_path_reparse m p)|].
  split; [intros; now apply (filename_reparse m p)|].
  split.
  { intros v Hpp. apply parent_path_fixed.
    destruct (components_bounds m p Hv utf8.parent_path v) as [Hvv _];
      [unfold utf8_components; simpl; tauto | assumption | assumption]. }
  split; [intros; now apply (stem_reparse m p)|].
  intros; now apply (extension_reparse m p).
Qed.

Lemma reparse_components_witness :
  valid (units "dir/a.b.c") (whole (units "dir/a.b.c"))
  /\ forall v,
      utf8.extension (units "dir/a.b.c") (whole (units "dir/a.b.c")) = Some v ->
      utf8.extension (units "dir/a.b.c") v = Some (mk_view (view_end v) 0).
Proof.
  assert (Hv : valid (units "dir/a.b.c") (whole (units "dir/a.b.c")))
    by valid_by_computation.
  split; [exact Hv|].
  exact (proj2 (proj2 (proj2 (proj2 (proj2 (reparse_components _ _ Hv)))))).
Defined.

(** C4 as stated fails for each of the six functions: parsing the
    returned view again gives another view. *)
Lemma reparse_changes_components :
  (~ reparse_is_identity utf8.root_name "\??\x"
   /\ ~ reparse_is_identity utf8.relative_path "/C:foo"
   /\ ~ reparse_is_identity utf8.parent_path "a/b/c"
   /\ ~ reparse_is_identity utf8.filename "a/C:b"
   /\ ~ reparse_is_identity utf8.stem "a.b.c"
   /\ ~ reparse_is_identity utf8.extension "a.b")
  /\ twice utf8.root_name "\??\x" = Some (units "\??", units "")
  /\ twice utf8.relative_path "/C:foo" = Some (units "C:foo", units "foo")
  /\ twice utf8.parent_path "a/b/c" = Some (units "a/b", units "a")
  /\ twice utf8.filename "a/C:b" = Some (units "C:b", units "b")
  /\ twice utf8.stem "a.b.c" = Some (units "a.b", units "a")
  /\ twice utf8.extension "a.b" = Some (units ".b", units "").
Proof.
  split; [|repeat split; vm_compute; reflexivity].
  repeat split; intros H;
    pose proof (H _ ltac:(vm_compute; reflexivity)) as H';
    vm_compute in H'; discriminate H'.
Qed.

(** C5, as the code has it.  [stem] followed by [extension] is the
    filename cut at its first colon, and neither of the two holds a unit
    of the alternate-data-stream suffix. *)
Theorem stem_extension_partition (m : storage) (p : string_view)
  (Hv : valid m p) :
  (exists f s e,
      utf8.filename m p = Some f
      /\ utf8.stem m p = Some s
      /\ utf8.extension m p = Some e
      /\ data s = data f /\ view_end s = data e
      /\ contents m s ++ contents m e = before_colon (contents m f)
      /\ ~ In COLON (contents m s) /\ ~ In COLON (contents m e))
  /\ on_path utf8.stem "name:stream" = Some (units "name")
  /\ on_path utf8.extension "name:stream" = Some (units "").
Proof.
  split; [|split; vm_compute; reflexivity].
  destruct (valid_range m p Hv) as [Hfl Hl].
  destruct (utf8_views m p Hv)
    as (rel & fname & pend & ads & exts & Hb & _ & _ & _ & _ & _
        & Hfn & Hst & Hex).
  pose proof (boundaries_order _ _ _ _ _ _ _ _ Hfl Hl Hb) as Hord.
  destruct Hb as [_ _ _ Hads _].
  exists (mk_view fname (view_end p - fname)), (mk_view fname (exts - fname)),
    (mk_view exts (ads - exts)).
  do 3 (split; [assumption|]).
  split; [reflexivity|].
  split; [unfold view_end; simpl; lia|].
  rewrite !contents_view by lia.
  assert (Happ : span m fname exts ++ span m exts ads = span m fname ads)
    by (apply span_app; lia).
  assert (Hno : ~ In COLON (span m fname ads))
    by (apply (first_such_not_in m fname (view_end p)); [lia | exact Hads]).
  split.
  - rewrite Happ. unfold before_colon.
    pose proof (first_such_index is_colon m fname (view_end p) ads Hl Hads)
      as Hk.
    replace (find_index is_colon (span m fname (view_end p)))
      with (ads - fname) by lia.
    symmetry. apply span_firstn. lia.
  - rewrite <- Happ in Hno. split; intros Hin; apply Hno, in_or_app; auto.
Qed.

Lemma stem_extension_partition_witness :
  valid (units "dir/name.txt:stream") (whole (units "dir/name.txt:stream"))
  /\ exists f s e,
      utf8.filename (units "dir/name.txt:stream")
        (whole (units "dir/name.txt:stream")) = Some f
      /\ utf8.stem (units "dir/name.txt:stream")
           (whole (units "dir/name.txt:stream")) = Some s
      /\ utf8.extension (units "dir/name.txt:stream")
           (whole (units "dir/name.txt:stream")) = Some e
      /\ data s = data f /\ view_end s = data e
      /\ contents (units "dir/name.txt:stream") s
         ++ contents (units "dir/name.txt:stream") e
         = before_colon (contents (units "dir/name.txt:stream") f)
      /\ ~ In COLON (contents (units "dir/name.txt:stream") s)
      /\ ~ In COLON (contents (units "dir/name.txt:stream") e).
Proof.
  assert (Hv : valid (units "dir/name.txt:stream")
                 (whole (units "dir/name.txt:stream")))
    by valid_by_computation.
  split; [exact Hv|].
  exact (proj1 (stem_extension_partition _ _ Hv)).
Defined.

(** C5 as stated fails: [filename] returns the alternate-data-stream
    suffix, alone when the filename starts with the colon and behind the
    rest of the filename otherwise. *)
Lemma filename_returns_ads_suffix :
  on_path utf8.filename "dir/:stream" = Some (ads_suffix (units ":stream"))
  /\ ads_suffix (units ":stream") = units ":stream"
  /\ on_path utf8.filename "name:stream"
     = Some (units "name" ++ ads_suffix (units "name:stream"))
  /\ ads_suffix (units "name:stream") = units ":stream".
Proof. repeat split; vm_compute; reflexivity. Qed.

(** C6. [find_relative_path] returns the first position at or after the
    end of the root-name whose unit is not a slash, or [last]; the units
    in between are slashes, and root-name, separators and relative path
    together are the path. *)
Theorem relative_path_coverage (m : storage) (p : string_view)
  (Hv : valid m p) :
  exists e rel r v,
    utf8.find_root_name_end m (data p) (view_end p) = Some e
    /\ utf8.find_relative_path m (data p) (view_end p) = Some rel
    /\ utf8.root_name m p = Some r
    /\ utf8.relative_path m p = Some v
    /\ e <= rel <= view_end p
    /\ (forall i, e <= i < rel -> utf8.is_slash (nth i m 0%Z) = true)
    /\ (rel < view_end p -> utf8.is_slash (nth rel m 0%Z) = false)
    /\ data r = data p /\ view_end r = e
    /\ data v = rel /\ view_end v = view_end p
    /\ contents m r ++ span m e rel ++ contents m v = contents m p.
Proof.
  destruct (valid_range m p Hv) as [Hfl Hl].
  destruct (utf8_views m p Hv)
    as (rel & fname & pend & ads & exts & Hb & Hrel & _ & Hroot & Hrp & _).
  pose proof (boundaries_order _ _ _ _ _ _ _ _ Hfl Hl Hb) as Hord.
  destruct Hb as [(Hr & Hbefore & Hat) _ _ _ _].
  exists (root_end m (data p) (view_end p)), rel,
    (mk_view (data p) (root_end m (data p) (view_end p) - data p)),
    (mk_view rel (view_end p - rel)).
  split; [now apply utf8_find_root_name_end_eq|].
  split; [assumption|]. split; [assumption|]. split; [assumption|].
  split; [assumption|].
  split. { intros i Hi. apply negb_false_iff. now apply Hbefore. }
  split. { intros Hlt. apply negb_true_iff. now apply Hat. }
  rewrite !contents_view by lia.
  assert (Hw : contents m p = span m (data p) (view_end p)) by reflexivity.
  rewrite Hw, !span_app by lia.
  unfold view_end in *. simpl.
  repeat split; lia.
Qed.

Lemma relative_path_coverage_witness :
  valid (units "C:\\foo") (whole (units "C:\\foo"))
  /\ exists e rel r v,
    utf8.find_root_name_end (units "C:\\foo") 0 7 = Some e
    /\ utf8.find_relative_path (units "C:\\foo") 0 7 = Some rel
    /\ utf8.root_name (units "C:\\foo") (whole (units "C:\\foo")) = Some r
    /\ utf8.relative_path (units "C:\\foo") (whole (units "C:\\foo")) = Some v
    /\ e <= rel <= 7
    /\ (forall i, e <= i < rel ->
                  utf8.is_slash (nth i (units "C:\\foo") 0%Z) = true)
    /\ (rel < 7 -> utf8.is_slash (nth rel (units "C:\\foo") 0%Z) = false)
    /\ data r = 0 /\ view_end r = e
    /\ data v = rel /\ view_end v = 7
    /\ contents (units "C:\\foo") r ++ span (units "C:\\foo") e rel
       ++ contents (units "C:\\foo") v
       = contents (units "C:\\foo") (whole (units "C:\\foo")).
Proof.
  assert (Hv : valid (units "C:\\foo") (whole (units "C:\\foo")))
    by valid_by_computation.
  split; [assumption|].
  exact (relative_path_coverage _ _ Hv).
Defined.

(** C7. Each of [root_name], [relative_path], [parent_path], [filename],
    [stem] and [extension] returns a view inside the input view.  The
    storage is an argument the functions only read. *)
Theorem components_within_input (m : storage) (p : string_view)
  (Hv : valid m p) :
  forall f, In f utf8_components ->
            exists v, f m p = Some v /\ sub_view p v.
Proof.
  intros f Hf.
  destruct (components_defined m p Hv f Hf) as (v & Heq & Hsub & _).
  exists v. now split.
Qed.

Lemma components_within_input_witness :
  valid (units "C:\foo\bar.txt") (whole (units "C:\foo\bar.txt"))
  /\ forall f, In f utf8_components ->
               exists v, f (units "C:\foo\bar.txt") (whole (units "C:\foo\bar.txt"))
                         = Some v
                         /\ sub_view (whole (units "C:\foo\bar.txt")) v.
Proof.
  assert (Hv : valid (units "C:\foo\bar.txt") (whole (units "C:\foo\bar.txt")))
    by valid_by_computation.
  split; [assumption|].
  exact (components_within_input _ _ Hv).
Defined.

(** C8. [has_drive_letter_prefix] is true exactly for a span of at least
    two units that starts with a letter [A-Z] or [a-z] followed by a
    colon.  It reads the two units only after the length check: it
    returns for every span of the storage, and returns the same when the
    storage ends where the span ends. *)
Theorem has_drive_letter_prefix_iff (m : storage) (first last : ptr)
  (Hfl : first <= last) (Hl : last <= length m) (Hm : Forall char_value m) :
  (exists b,
      utf8.has_drive_letter_prefix m first last = Some b
      /\ (b = true <->
          2 <= last - first
          /\ (65 <= nth first m 0 <= 90 \/ 97 <= nth first m 0 <= 122)%Z
          /\ nth (first + 1) m 0%Z = COLON))
  /\ utf8.has_drive_letter_prefix (firstn last m) first last
     = utf8.has_drive_letter_prefix m first last
  /\ utf8.has_drive_letter_prefix (units "c:") 0 2 = Some true
  /\ utf8.has_drive_letter_prefix (units "C:") 0 2 = Some true
  /\ utf8.has_drive_letter_prefix (units "1:") 0 2 = Some false
  /\ utf8.has_drive_letter_prefix (units "c") 0 1 = Some false
  /\ utf8.has_drive_letter_prefix (units "") 0 0 = Some false.
Proof.
  split; [|split; [|repeat split; vm_compute; reflexivity]].
  - rewrite utf8_has_drive_letter_prefix_eq by assumption.
    eexists. split; [reflexivity|].
    rewrite !andb_true_iff, Nat.leb_le, Z.eqb_eq.
    rewrite utf8_letter_ascii by now apply char_value_nth.
    rewrite is_ascii_letter_true. tauto.
  - rewrite !utf8_has_drive_letter_prefix_eq;
      try assumption; [|rewrite length_firstn; lia].
    destruct (Nat.leb_spec 2 (last - first)); [|reflexivity].
    rewrite !nth_firstn.
    destruct (Nat.ltb_spec first last); [|lia].
    destruct (Nat.ltb_spec (first + 1) last); [|lia].
    reflexivity.
Qed.

Lemma has_drive_letter_prefix_iff_witness :
  0 <= 2 /\ 2 <= length (units "x:") /\ Forall char_value (units "x:")
  /\ exists b,
      utf8.has_drive_letter_prefix (units "x:") 0 2 = Some b
      /\ (b = true <->
          2 <= 2 - 0
          /\ (65 <= nth 0 (units "x:") 0 <= 90
              \/ 97 <= nth 0 (units "x:") 0 <= 122)%Z
          /\ nth (0 + 1) (units "x:") 0%Z = COLON).
Proof.
  assert (H0 : 0 <= 2) by lia.
  assert (H1 : 2 <= length (units "x:")) by (simpl; lia).
  assert (H2 : Forall char_value (units "x:"))
    by chars_by_computation.
  split; [exact H0 | split; [exact H1 | split; [exact H2|]]].
  exact (proj1 (has_drive_letter_prefix_iff (units "x:") 0 2 H0 H1 H2)).
Defined.

(** The guard matters: on a span of one unit at the end of the storage
    [is_drive_prefix] itself reads outside the storage. *)
Example is_drive_prefix_needs_two_units :
  utf8.is_drive_prefix (units "c") 0 = None.
Proof. reflexivity. Qed.

(** C9. [find_filename] retreats from [last] while it is above the start
    of the relative path and the unit before it is not a slash;
    [filename] is the view from there to [last].  It is empty exactly
    when nothing follows the root-name, only slashes follow it, or the
    path ends in a slash. *)
Theorem filename_from_find_filename (m : storage) (p : string_view)
  (Hv : valid m p) :
  (exists e rel f,
      utf8.find_root_name_end m (data p) (view_end p) = Some e
      /\ utf8.find_relative_path m (data p) (view_end p) = Some rel
      /\ utf8.find_filename m (data p) (view_end p) = Some f
      /\ last_such not_slash m rel (view_end p) f
      /\ utf8.filename m p = Some (mk_view f (view_end p - f))
      /\ (contents m (mk_view f (view_end p - f)) = []
          <-> e = view_end p
              \/ (e < view_end p
                  /\ forall i, e <= i < view_end p ->
                               utf8.is_slash (nth i m 0%Z) = true)
              \/ (data p < view_end p
                  /\ utf8.is_slash (nth (view_end p - 1) m 0%Z) = true)))
  /\ on_path utf8.filename "/cat/dog/" = Some (units "")
  /\ on_path utf8.filename "C:\foo\bar" = Some (units "bar").
Proof.
  split; [|split; vm_compute; reflexivity].
  destruct (valid_range m p Hv) as [Hfl Hl].
  destruct (utf8_views m p Hv)
    as (rel & fname & pend & ads & exts & Hb & Hrel & Hff & _ & _ & _ & Hfn & _).
  pose proof (boundaries_order _ _ _ _ _ _ _ _ Hfl Hl Hb) as Hord.
  destruct Hb as [(Hr & Hbefore & Hat) Hfname _ _ _].
  exists (root_end m (data p) (view_end p)), rel, fname.
  split; [now apply utf8_find_root_name_end_eq|].
  do 4 (split; [assumption|]).
  rewrite contents_nil by lia.
  destruct Hfname as (Hf & Hall & Hprev).
  unfold not_slash in *.
  split.
  - intros ->.
    destruct (Nat.eq_dec rel (view_end p)) as [Heq | Hne].
    + destruct (Nat.eq_dec (root_end m (data p) (view_end p)) (view_end p));
        [now left|].
      right; left. split; [lia|].
      intros i Hi. apply negb_false_iff, Hbefore. lia.
    + right; right. split; [lia|].
      apply negb_false_iff, Hprev. lia.
  - intros [He | [(He & Hsl) | (Hne & Hsl)]].
    + lia.
    + destruct (Nat.eq_dec rel (view_end p)) as [Heq | Hne]; [lia|].
      specialize (Hat ltac:(lia)). rewrite Hsl in Hat by lia. discriminate.
    + destruct (Nat.eq_dec fname (view_end p)) as [Heq | Hne']; [assumption|].
      specialize (Hall (view_end p - 1) ltac:(lia)).
      rewrite Hsl in Hall. discriminate.
Qed.

Lemma filename_from_find_filename_witness :
  valid (units "C:\foo\bar") (whole (units "C:\foo\bar"))
  /\ exists e rel f,
      utf8.find_root_name_end (units "C:\foo\bar") 0 10 = Some e
      /\ utf8.find_relative_path (units "C:\foo\bar") 0 10 = Some rel
      /\ utf8.find_filename (units "C:\foo\bar") 0 10 = Some f
      /\ last_such not_slash (units "C:\foo\bar") rel 10 f
      /\ utf8.filename (units "C:\foo\bar") (whole (units "C:\foo\bar"))
         = Some (mk_view f (10 - f)).
Proof.
  assert (Hv : valid (units "C:\foo\bar") (whole (units "C:\foo\bar")))
    by valid_by_computation.
  split; [exact Hv|].
  destruct (proj1 (filename_from_find_filename _ _ Hv))
    as (e & rel & f & He & Hrel & Hf & Hls & Hfn & _).
  exists e, rel, f. repeat split; try assumption; apply Hls.
Defined.

(** C10. On a storage whose units have a value both widths can hold, every
    function of [util::wide] returns what the function of the same name
    of [util::utf8] returns: the same boundary, the same view. *)
Theorem wide_utf8_grammar_identical (m : storage)
  (Hm : Forall common_unit m) :
  (forall c, wide.is_slash c = utf8.is_slash c)
  /\ (forall first, wide.is_drive_prefix m first = utf8.is_drive_prefix m first)
  /\ (forall first last,
         wide.has_drive_letter_prefix m first last
         = utf8.has_drive_letter_prefix m first last)
  /\ (forall first last,
         wide.find_root_name_end m first last
         = utf8.find_root_name_end m first last)
  /\ (forall first last,
         wide.find_relative_path m first last
         = utf8.find_relative_path m first last)
  /\ (forall first last,
         wide.find_filename m first last = utf8.find_filename m first last)
  /\ (forall first last,
         wide.find_extension m first last = utf8.find_extension m first last)
  /\ (forall p, wide.root_name m p = utf8.root_name m p)
  /\ (forall p, wide.relative_path m p = utf8.relative_path m p)
  /\ (forall p, wide.parent_path m p = utf8.parent_path m p)
  /\ (forall p, wide.filename m p = utf8.filename m p)
  /\ (forall p, wide.stem m p = utf8.stem m p)
  /\ (forall p, wide.extension m p = utf8.extension m p).
Proof.
  split; [reflexivity|].
  split; [intros; now apply wide_is_drive_prefix_eq|].
  split.
  { intros. unfold wide.has_drive_letter_prefix, utf8.has_drive_letter_prefix.
    now rewrite wide_is_drive_prefix_eq. }
  split; [intros; now apply wide_find_root_name_end_utf8|].
  split; [intros; now apply wide_find_relative_path_utf8|].
  split; [intros; now apply wide_find_filename_utf8|].
  split; [reflexivity|].
  split.
  { intros. unfold wide.root_name, utf8.root_name.
    now rewrite wide_find_root_name_end_utf8. }
  split.
  { intros. unfold wide.relative_path, utf8.relative_path.
    now rewrite wide_find_relative_path_utf8. }
  split.
  { intros. unfold wide.parent_path, utf8.parent_path.
    now rewrite wide_find_relative_path_utf8. }
  split.
  { intros. unfold wide.filename, utf8.filename.
    now rewrite wide_find_filename_utf8. }
  split.
  { intros. unfold wide.stem, utf8.stem.
    now rewrite wide_find_filename_utf8. }
  intros. unfold wide.extension, utf8.extension.
  now rewrite wide_find_filename_utf8.
Qed.

Lemma wide_utf8_grammar_identical_witness :
  Forall common_unit (units "\\?\C:\a.txt:ads")
  /\ wide.stem (units "\\?\C:\a.txt:ads") (whole (units "\\?\C:\a.txt:ads"))
     = utf8.stem (units "\\?\C:\a.txt:ads") (whole (units "\\?\C:\a.txt:ads")).
Proof.
  assert (Hm : Forall common_unit (units "\\?\C:\a.txt:ads"))
    by (repeat (apply Forall_cons;
                [unfold common_unit; vm_compute; split; discriminate|]);
        apply Forall_nil).
  split; [exact Hm|].
  apply (wide_utf8_grammar_identical _ Hm).
Defined.

(** * Further properties *)

(** ** Case folding *)

Lemma all_from_range (P : Z -> bool) (lo hi : Z) :
  all_from P lo (Z.to_nat (hi - lo + 1)) = true ->
  forall c, (lo <= c <= hi)%Z -> P c = true.
Proof.
  intros H c Hc. apply (all_from_spec P _ lo H). lia.
Qed.

(** X1. On the ASCII letters the case-folding primitives of both
    namespaces are the case conversions: [ascii_lowercase] adds 32 to an
    upper-case letter and keeps a lower-case one, [ascii_uppercase]
    subtracts 32 from a lower-case letter and keeps an upper-case one. *)
Theorem ascii_case_on_letters (c : Z) (Hc : is_ascii_letter c = true) :
  utf8.ascii_lowercase c = (if (c <=? 90)%Z then c + 32 else c)%Z
  /\ utf8.ascii_uppercase c = (if (c <=? 90)%Z then c else c - 32)%Z
  /\ wide.ascii_lowercase c = utf8.ascii_lowercase c
  /\ wide.ascii_uppercase c = utf8.ascii_uppercase c
  /\ is_ascii_letter (utf8.ascii_lowercase c) = true
  /\ is_ascii_letter (utf8.ascii_uppercase c) = true.
Proof.
  apply is_ascii_letter_true in Hc.
  assert (Hr : (65 <= c <= 122)%Z) by lia.
  pose proof (all_from_range
    (fun c => implb (is_ascii_letter c)
      ((utf8.ascii_lowercase c =? (if c <=? 90 then c + 32 else c))
       && (utf8.ascii_uppercase c =? (if c <=? 90 then c else c - 32))
       && (wide.ascii_lowercase c =? utf8.ascii_lowercase c)
       && (wide.ascii_uppercase c =? utf8.ascii_uppercase c)
       && is_ascii_letter (utf8.ascii_lowercase c)
       && is_ascii_letter (utf8.ascii_uppercase c))%Z)
    65 122 ltac:(vm_compute; reflexivity) c Hr) as H.
  assert (Hl : is_ascii_letter c = true) by now apply is_ascii_letter_true.
  cbv beta in H. rewrite Hl in H. cbn [implb] in H.
  repeat (apply andb_true_iff in H; destruct H as [H ?]).
  repeat split; try (apply Z.eqb_eq); assumption.
Qed.

Lemma ascii_case_on_letters_witness :
  is_ascii_letter 81 = true
  /\ utf8.ascii_lowercase 81 = (if (81 <=? 90)%Z then 81 + 32 else 81)%Z.
Proof.
  assert (H : is_ascii_letter 81 = true) by reflexivity.
  split; [exact H|].
  exact (proj1 (ascii_case_on_letters 81 H)).
Defined.

(** Reading a checked boolean conjunction back as propositions. *)
Ltac bool_to_prop H :=
  cbv beta in H;
  repeat rewrite ?andb_true_iff, ?orb_true_iff, ?Z.eqb_eq, ?Z.leb_le,
    ?negb_true_iff, ?Z.eqb_neq in H.

(** X2. On every [char] value the two primitives of [util::utf8] only
    touch bit 5: each is idempotent, each undoes the other's effect,
    [ascii_lowercase c] is [ascii_uppercase c + 32], every unit is its own
    lower case or its own upper case, and the result is again a value of
    the same (signed or unsigned) [char] type. *)
Theorem utf8_ascii_case_algebra (c : Z) (Hc : char_value c) :
  utf8.ascii_lowercase (utf8.ascii_lowercase c) = utf8.ascii_lowercase c
  /\ utf8.ascii_uppercase (utf8.ascii_uppercase c) = utf8.ascii_uppercase c
  /\ utf8.ascii_uppercase (utf8.ascii_lowercase c) = utf8.ascii_uppercase c
  /\ utf8.ascii_lowercase (utf8.ascii_uppercase c) = utf8.ascii_lowercase c
  /\ (utf8.ascii_lowercase c = utf8.ascii_uppercase c + 32)%Z
  /\ (utf8.ascii_lowercase c = c \/ utf8.ascii_uppercase c = c)
  /\ ((c <= 127 -> -128 <= utf8.ascii_uppercase c
                   /\ utf8.ascii_lowercase c <= 127)
      /\ (0 <= c -> 0 <= utf8.ascii_uppercase c
                    /\ utf8.ascii_lowercase c <= 255))%Z.
Proof.
  pose proof (all_from_range
    (fun c =>
       (utf8.ascii_lowercase (utf8.ascii_lowercase c) =? utf8.ascii_lowercase c)
       && (utf8.ascii_uppercase (utf8.ascii_uppercase c) =? utf8.ascii_uppercase c)
       && (utf8.ascii_uppercase (utf8.ascii_lowercase c) =? utf8.ascii_uppercase c)
       && (utf8.ascii_lowercase (utf8.ascii_uppercase c) =? utf8.ascii_lowercase c)
       && (utf8.ascii_lowercase c =? utf8.ascii_uppercase c + 32)
       && ((utf8.ascii_lowercase c =? c) || (utf8.ascii_uppercase c =? c))
       && ((127 <? c) || ((-128 <=? utf8.ascii_uppercase c)
                          && (utf8.ascii_lowercase c <=? 127)))
       && ((c <? 0) || ((0 <=? utf8.ascii_uppercase c)
                        && (utf8.ascii_lowercase c <=? 255))))%Z
    (-128) 255 ltac:(vm_compute; reflexivity) c Hc) as H.
  bool_to_prop H. rewrite !Z.ltb_lt in H.
  destruct H as (((((((H1 & H2) & H3) & H4) & H5) & H6) & H7) & H8).
  repeat split; try assumption; intros; lia.
Qed.

Lemma utf8_ascii_case_algebra_witness :
  char_value 64
  /\ utf8.ascii_uppercase (utf8.ascii_lowercase 64) = utf8.ascii_uppercase 64.
Proof.
  assert (H : char_value 64) by (unfold char_value; lia).
  split; [exact H|].
  exact (proj1 (proj2 (proj2 (utf8_ascii_case_algebra 64 H)))).
Defined.

(** X3. The same for [util::wide] on every 16-bit unit; the results are
    again 16-bit units. *)
Theorem wide_ascii_case_algebra (c : Z) (Hc : wide_unit c) :
  wide.ascii_lowercase (wide.ascii_lowercase c) = wide.ascii_lowercase c
  /\ wide.ascii_uppercase (wide.ascii_uppercase c) = wide.ascii_uppercase c
  /\ wide.ascii_uppercase (wide.ascii_lowercase c) = wide.ascii_uppercase c
  /\ wide.ascii_lowercase (wide.ascii_uppercase c) = wide.ascii_lowercase c
  /\ (wide.ascii_lowercase c = wide.ascii_uppercase c + 32)%Z
  /\ (wide.ascii_lowercase c = c \/ wide.ascii_uppercase c = c)
  /\ wide_unit (wide.ascii_lowercase c)
  /\ wide_unit (wide.ascii_uppercase c).
Proof.
  pose proof (all_from_range
    (fun c =>
       (wide.ascii_lowercase (wide.ascii_lowercase c) =? wide.ascii_lowercase c)
       && (wide.ascii_uppercase (wide.ascii_uppercase c) =? wide.ascii_uppercase c)
       && (wide.ascii_uppercase (wide.ascii_lowercase c) =? wide.ascii_uppercase c)
       && (wide.ascii_lowercase (wide.ascii_uppercase c) =? wide.ascii_lowercase c)
       && (wide.ascii_lowercase c =? wide.ascii_uppercase c + 32)
       && ((wide.ascii_lowercase c =? c) || (wide.ascii_uppercase c =? c))
       && ((0 <=? wide.ascii_uppercase c)
           && (wide.ascii_lowercase c <=? 65535)))%Z
    0 65535 ltac:(vm_compute; reflexivity) c Hc) as H.
  bool_to_prop H.
  destruct H as ((((((H1 & H2) & H3) & H4) & H5) & H6) & H7).
  unfold wide_unit.
  repeat split; try assumption; lia.
Qed.

Lemma wide_ascii_case_algebra_witness :
  wide_unit 321
  /\ wide.ascii_lowercase (wide.ascii_lowercase 321) = wide.ascii_lowercase 321.
Proof.
  assert (H : wide_unit 321) by (unfold wide_unit; lia).
  split; [exact H|].
  exact (proj1 (wide_ascii_case_algebra 321 H)).
Defined.

(** ** The wide namespace on every 16-bit unit *)

Lemma wide_letter_ascii (c : Z) :
  wide_unit c -> wide_letter c = is_ascii_letter c.
Proof.
  intros Hc. apply eqb_prop.
  exact (all_from_range (fun c => eqb (wide_letter c) (is_ascii_letter c))
           0 65535 ltac:(vm_compute; reflexivity) c Hc).
Qed.

Lemma wide_unit_nth (m : storage) (i : nat) :
  Forall wide_unit m -> wide_unit (nth i m 0%Z).
Proof.
  intros H. destruct (nth_in_or_default i m 0%Z) as [Hin | ->].
  - rewrite Forall_forall in H. now apply H.
  - unfold wide_unit. lia.
Qed.

Lemma wide_has_drive_letter_prefix_eq (m : storage) (first last : ptr) :
  first <= last -> last <= length m ->
  wide.has_drive_letter_prefix m first last
  = Some ((2 <=? last - first)
          && wide_letter (nth first m 0%Z)
          && (nth (first + 1) m 0%Z =? COLON)%Z).
Proof.
  intros Hfl Hl. unfold wide.has_drive_letter_prefix, wide.is_drive_prefix.
  fold wide_letter. unfold test_eq, test.
  ptrdiff_to_nat.
  destruct (Nat.leb_spec 2 (last - first)); simpl; [|reflexivity].
  rewrite !load_nth by lia. simpl.
  now destruct (wide_letter (nth first m 0%Z)).
Qed.

(** X4. [wide::has_drive_letter_prefix] is true exactly for a span of at
    least two units that starts with [A-Z] or [a-z] and a colon: no other
    16-bit unit, in particular none above 127, passes the bit test.  It
    returns for every span of the storage and never reads past the span. *)
Theorem wide_has_drive_letter_prefix_iff (m : storage) (first last : ptr)
  (Hfl : first <= last) (Hl : last <= length m) (Hm : Forall wide_unit m) :
  (exists b,
      wide.has_drive_letter_prefix m first last = Some b
      /\ (b = true <->
          2 <= last - first
          /\ (65 <= nth first m 0 <= 90 \/ 97 <= nth first m 0 <= 122)%Z
          /\ nth (first + 1) m 0%Z = COLON))
  /\ wide.has_drive_letter_prefix (firstn last m) first last
     = wide.has_drive_letter_prefix m first last.
Proof.
  split.
  - rewrite wide_has_drive_letter_prefix_eq by assumption.
    eexists. split; [reflexivity|].
    rewrite !andb_true_iff, Nat.leb_le, Z.eqb_eq.
    rewrite wide_letter_ascii by now apply wide_unit_nth.
    rewrite is_ascii_letter_true. tauto.
  - rewrite !wide_has_drive_letter_prefix_eq;
      try assumption; [|rewrite length_firstn; lia].
    destruct (Nat.leb_spec 2 (last - first)); [|reflexivity].
    rewrite !nth_firstn.
    destruct (Nat.ltb_spec first last); [|lia].
    destruct (Nat.ltb_spec (first + 1) last); [|lia].
    reflexivity.
Qed.

Lemma wide_has_drive_letter_prefix_iff_witness :
  0 <= 2 /\ 2 <= length [65345%Z; 58%Z] /\ Forall wide_unit [65345%Z; 58%Z]
  /\ exists b,
      wide.has_drive_letter_prefix [65345%Z; 58%Z] 0 2 = Some b
      /\ (b = true <->
          2 <= 2 - 0
          /\ (65 <= nth 0 [65345; 58] 0 <= 90
              \/ 97 <= nth 0 [65345; 58] 0 <= 122)%Z
          /\ nth (0 + 1) [65345%Z; 58%Z] 0%Z = COLON).
Proof.
  assert (H0 : 0 <= 2) by lia.
  assert (H1 : 2 <= length [65345%Z; 58%Z]) by (simpl; lia).
  assert (H2 : Forall wide_unit [65345%Z; 58%Z])
    by (repeat (apply Forall_cons; [unfold wide_unit; lia|]); apply Forall_nil).
  split; [exact H0 | split; [exact H1 | split; [exact H2|]]].
  exact (proj1 (wide_has_drive_letter_prefix_iff _ 0 2 H0 H1 H2)).
Defined.

Lemma wide_root_name_length (m : storage) (first last : ptr) :
  Forall wide_unit m ->
  root_name_length wide_letter (span m first last)
  = root_name_end_spec (span m first last).
Proof.
  intros Hm. unfold root_name_end_spec.
  apply root_name_length_letter, wide_letter_ascii.
  rewrite hd_span. destruct (first <? last).
  - now apply wide_unit_nth.
  - unfold wide_unit. lia.
Qed.

(** X5. [wide::find_root_name_end] returns the boundary of the same
    six-step decision order as the narrow function, on every storage of
    16-bit units, and [wide::root_name] is the view up to it. *)
Theorem wide_find_root_name_end_decision_order (m : storage) (p : string_view)
  (Hv : valid m p) (Hm : Forall wide_unit m) :
  wide.find_root_name_end m (data p) (view_end p)
  = Some (data p + root_name_end_spec (contents m p))
  /\ wide.root_name m p
     = Some (mk_view (data p) (root_name_end_spec (contents m p))).
Proof.
  destruct (valid_range m p Hv) as [Hfl Hl].
  assert (Heq : wide.find_root_name_end m (data p) (view_end p)
                = Some (data p + root_name_end_spec (contents m p))).
  { rewrite wide_find_root_name_end_eq by assumption.
    now rewrite wide_root_name_length. }
  split; [assumption|].
  unfold wide.root_name. fold (view_end p). rewrite Heq.
  pose proof (root_name_length_le is_ascii_letter (contents m p)) as Hle.
  fold (root_name_end_spec (contents m p)) in Hle.
  unfold contents in Hle at 2. rewrite span_length in Hle by assumption.
  destruct Hv as [_ Hsz]. unfold view_end in *.
  rewrite size_t_ptrdiff by lia.
  do 2 f_equal. lia.
Qed.

Lemma wide_find_root_name_end_decision_order_witness :
  valid (units "\\?\C:\dir") (whole (units "\\?\C:\dir"))
  /\ Forall wide_unit (units "\\?\C:\dir")
  /\ wide.find_root_name_end (units "\\?\C:\dir") 0 10 = Some 3.
Proof.
  assert (Hv : valid (units "\\?\C:\dir") (whole (units "\\?\C:\dir")))
    by valid_by_computation.
  assert (Hm : Forall wide_unit (units "\\?\C:\dir"))
    by (repeat (apply Forall_cons;
                [unfold wide_unit; vm_compute; split; discriminate|]);
        apply Forall_nil).
  split; [exact Hv | split; [exact Hm|]].
  exact (proj1 (wide_find_root_name_end_decision_order _ _ Hv Hm)).
Defined.

(** ** The same grammar on another storage *)

Lemma utf8_shared_bodies :
  utf8.root_name = shared_root_name utf8.find_root_name_end
  /\ utf8.find_relative_path = shared_find_relative_path utf8.find_root_name_end
  /\ utf8.relative_path = shared_relative_path utf8.find_root_name_end
  /\ utf8.parent_path = shared_parent_path utf8.find_root_name_end
  /\ utf8.find_filename = shared_find_filename utf8.find_root_name_end
  /\ utf8.filename = shared_filename utf8.find_root_name_end
  /\ utf8.stem = shared_stem utf8.find_root_name_end
  /\ utf8.extension = shared_extension utf8.find_root_name_end.
Proof. repeat split; reflexivity. Qed.

Lemma wide_shared_bodies :
  wide.root_name = shared_root_name wide.find_root_name_end
  /\ wide.find_relative_path = shared_find_relative_path wide.find_root_name_end
  /\ wide.relative_path = shared_relative_path wide.find_root_name_end
  /\ wide.parent_path = shared_parent_path wide.find_root_name_end
  /\ wide.find_filename = shared_find_filename wide.find_root_name_end
  /\ wide.filename = shared_filename wide.find_root_name_end
  /\ wide.stem = shared_stem wide.find_root_name_end
  /\ wide.extension = shared_extension wide.find_root_name_end
  /\ wide.find_extension = utf8.find_extension.
Proof. repeat split; reflexivity. Qed.

Section Simulation.

Variable g : Z -> Z.
Variable m : storage.

Hypothesis Hslash : forall c, In c m -> utf8.is_slash (g c) = utf8.is_slash c.
Hypothesis Hcolon : forall c, In c m -> (g c =? COLON)%Z = (c =? COLON)%Z.
Hypothesis Hdot : forall c, In c m -> (g c =? DOT)%Z = (c =? DOT)%Z.
Hypothesis Hquestion :
  forall c, In c m -> (g c =? QUESTION)%Z = (c =? QUESTION)%Z.

Lemma load_map (i : ptr) : load (map g m) i = option_map g (load m i).
Proof. unfold load. apply nth_error_map. Qed.

Lemma load_In (i : ptr) (c : Z) : load m i = Some c -> In c m.
Proof. unfold load. apply nth_error_In. Qed.

Lemma test_map (pred : Z -> bool) (i : ptr) :
  (forall c, In c m -> pred (g c) = pred c) ->
  test pred (map g m) i = test pred m i.
Proof.
  intros Hp. unfold test. rewrite load_map.
  destruct (load m i) as [c|] eqn:Hc; [|reflexivity].
  simpl. f_equal. apply Hp. now apply (load_In i).
Qed.

Lemma find_if_loop_map (pred : Z -> bool) (n : nat) :
  (forall c, In c m -> pred (g c) = pred c) ->
  forall p, find_if_loop pred (map g m) n p = find_if_loop pred m n p.
Proof.
  intros Hp. induction n as [|n IH]; intros p; simpl; [reflexivity|].
  rewrite load_map. destruct (load m p) as [c|] eqn:Hc; [|reflexivity].
  simpl. rewrite Hp by now apply (load_In p). now rewrite IH.
Qed.

Lemma find_if_map (pred : Z -> bool) (a b : ptr) :
  (forall c, In c m -> pred (g c) = pred c) ->
  find_if pred (map g m) a b = find_if pred m a b.
Proof.
  intros Hp. unfold find_if. now rewrite find_if_loop_map.
Qed.

Lemma retreat_while_map (pred : Z -> bool) (stop tail : ptr) :
  (forall c, In c m -> pred (g c) = pred c) ->
  retreat_while pred (map g m) stop tail = retreat_while pred m stop tail.
Proof.
  intros Hp. induction tail as [|t IH]; simpl; [reflexivity|].
  destruct (stop =? S t); [reflexivity|].
  rewrite load_map. destruct (load m t) as [c|] eqn:Hc; [|reflexivity].
  simpl. rewrite Hp by now apply (load_In t). now rewrite IH.
Qed.

Lemma find_extension_scan_map (fn ad ext : ptr) :
  utf8.find_extension_scan (map g m) fn ad ext
  = utf8.find_extension_scan m fn ad ext.
Proof.
  induction ext as [|e IH]; simpl; [reflexivity|].
  destruct (fn =? e); [reflexivity|].
  rewrite load_map. destruct (load m e) as [c|] eqn:Hc; [|reflexivity].
  simpl. rewrite Hdot by now apply (load_In e). now rewrite IH.
Qed.

Lemma find_extension_map (fn ad : ptr) :
  utf8.find_extension (map g m) fn ad = utf8.find_extension m fn ad.
Proof.
  unfold utf8.find_extension.
  destruct (fn =? ad); [reflexivity|].
  destruct ad as [|ext]; [reflexivity|].
  destruct (fn =? ext); [reflexivity|].
  unfold test_eq. rewrite test_map by (intros; now apply Hdot).
  rewrite find_extension_scan_map.
  replace (load_prev (map g m) ext) with (option_map g (load_prev m ext))
    by (destruct ext; [reflexivity | symmetry; apply load_map]).
  destruct (test (fun c => (c =? DOT)%Z) m ext) as [[|]|]; try reflexivity.
  destruct (fn =? ext - 1); [|reflexivity].
  simpl. destruct (load_prev m ext) as [c|] eqn:Hc; [|reflexivity].
  simpl. rewrite Hdot; [reflexivity|].
  destruct ext; [discriminate | now apply (load_In ext)].
Qed.

Lemma not_slash_map (c : Z) :
  In c m -> negb (utf8.is_slash (g c)) = negb (utf8.is_slash c).
Proof. intros H. now rewrite Hslash. Qed.

Variables fre1 fre2 : storage -> ptr -> ptr -> option ptr.
Hypothesis Hroot : forall a b, fre2 (map g m) a b = fre1 m a b.

Lemma shared_find_relative_path_map (a b : ptr) :
  shared_find_relative_path fre2 (map g m) a b
  = shared_find_relative_path fre1 m a b.
Proof.
  unfold shared_find_relative_path, find_if_not. rewrite Hroot.
  destruct (fre1 m a b); [|reflexivity].
  apply find_if_map, not_slash_map.
Qed.

Lemma shared_find_filename_map (a b : ptr) :
  shared_find_filename fre2 (map g m) a b = shared_find_filename fre1 m a b.
Proof.
  unfold shared_find_filename. rewrite shared_find_relative_path_map.
  destruct (shared_find_relative_path fre1 m a b); [|reflexivity].
  apply retreat_while_map, not_slash_map.
Qed.

Lemma shared_views_map (p : string_view) :
  shared_root_name fre2 (map g m) p = shared_root_name fre1 m p
  /\ shared_relative_path fre2 (map g m) p = shared_relative_path fre1 m p
  /\ shared_parent_path fre2 (map g m) p = shared_parent_path fre1 m p
  /\ shared_filename fre2 (map g m) p = shared_filename fre1 m p
  /\ shared_stem fre2 (map g m) p = shared_stem fre1 m p
  /\ shared_extension fre2 (map g m) p = shared_extension fre1 m p.
Proof.
  unfold shared_root_name, shared_relative_path, shared_parent_path,
    shared_filename, shared_stem, shared_extension, find.
  rewrite Hroot, shared_find_relative_path_map, shared_find_filename_map.
  repeat split; try reflexivity.
  - destruct (shared_find_relative_path fre1 m _ _) as [rel|]; [|reflexivity].
    rewrite (retreat_while_map _ _ _ not_slash_map).
    destruct (retreat_while _ m rel _) as [t|]; [|reflexivity].
    now rewrite (retreat_while_map _ _ _ Hslash).
  - destruct (shared_find_filename fre1 m _ _) as [f|]; [|reflexivity].
    rewrite (find_if_map _ _ _ Hcolon).
    destruct (find_if _ m f _) as [ads|]; [|reflexivity].
    now rewrite find_extension_map.
  - destruct (shared_find_filename fre1 m _ _) as [f|]; [|reflexivity].
    rewrite (find_if_map _ _ _ Hcolon).
    destruct (find_if _ m f _) as [ads|]; [|reflexivity].
    now rewrite find_extension_map.
Qed.

End Simulation.

Lemma drive_test_map (g : Z -> Z) (m : storage) (L1 L2 : Z -> bool) (a : ptr) :
  (forall c, In c m -> L2 (g c) = L1 c) ->
  (forall c, In c m -> (g c =? COLON)%Z = (c =? COLON)%Z) ->
  option_map L2 (load (map g m) a) &&& test_eq COLON (map g m) (a + 1)
  = option_map L1 (load m a) &&& test_eq COLON m (a + 1).
Proof.
  intros HL Hcolon. unfold test_eq.
  rewrite (test_map g m _ _ Hcolon), load_map.
  destruct (load m a) as [c|] eqn:Hc; [|reflexivity].
  simpl. rewrite HL; [reflexivity|]. now apply (load_In m a).
Qed.

Ltac root_map_tests g m Hslash Hquestion Hdot :=
  unfold test_eq;
  rewrite ?(test_map g m _ _ Hslash), ?(test_map g m _ _ Hquestion),
    ?(test_map g m _ _ Hdot), ?(find_if_map g m _ _ _ Hslash).

Lemma utf8_find_root_name_end_map (g : Z -> Z) (m : storage) (a b : ptr) :
  (forall c, In c m -> utf8_letter (g c) = utf8_letter c) ->
  (forall c, In c m -> utf8.is_slash (g c) = utf8.is_slash c) ->
  (forall c, In c m -> (g c =? COLON)%Z = (c =? COLON)%Z) ->
  (forall c, In c m -> (g c =? DOT)%Z = (c =? DOT)%Z) ->
  (forall c, In c m -> (g c =? QUESTION)%Z = (c =? QUESTION)%Z) ->
  utf8.find_root_name_end (map g m) a b = utf8.find_root_name_end m a b.
Proof.
  intros HL Hslash Hcolon Hdot Hquestion.
  unfold utf8.find_root_name_end, utf8.has_drive_letter_prefix,
    utf8.is_drive_prefix.
  fold utf8_letter.
  rewrite (drive_test_map g m utf8_letter utf8_letter a HL Hcolon).
  root_map_tests g m Hslash Hquestion Hdot.
  reflexivity.
Qed.

Lemma narrow_find_root_name_end (m : storage) (a b : ptr) :
  (forall c, In c m -> utf8_letter (narrow c) = wide_letter c) ->
  (forall c, In c m -> utf8.is_slash (narrow c) = utf8.is_slash c) ->
  (forall c, In c m -> (narrow c =? COLON)%Z = (c =? COLON)%Z) ->
  (forall c, In c m -> (narrow c =? DOT)%Z = (c =? DOT)%Z) ->
  (forall c, In c m -> (narrow c =? QUESTION)%Z = (c =? QUESTION)%Z) ->
  utf8.find_root_name_end (map narrow m) a b = wide.find_root_name_end m a b.
Proof.
  intros HL Hslash Hcolon Hdot Hquestion.
  unfold utf8.find_root_name_end, utf8.has_drive_letter_prefix,
    utf8.is_drive_prefix, wide.find_root_name_end,
    wide.has_drive_letter_prefix, wide.is_drive_prefix.
  fold utf8_letter. fold wide_letter. change wide.is_slash with utf8.is_slash.
  rewrite (drive_test_map narrow m wide_letter utf8_letter a HL Hcolon).
  root_map_tests narrow m Hslash Hquestion Hdot.
  reflexivity.
Qed.

Lemma narrow_keeps_grammar (c : Z) :
  wide_unit c ->
  utf8_letter (narrow c) = wide_letter c
  /\ utf8.is_slash (narrow c) = utf8.is_slash c
  /\ (narrow c =? COLON)%Z = (c =? COLON)%Z
  /\ (narrow c =? DOT)%Z = (c =? DOT)%Z
  /\ (narrow c =? QUESTION)%Z = (c =? QUESTION)%Z.
Proof.
  intros Hc. unfold narrow.
  destruct (Z.leb_spec c 255).
  - split; [symmetry; apply wide_letter_utf8; unfold wide_unit in Hc; lia|].
    repeat split; reflexivity.
  - rewrite wide_letter_ascii by assumption.
    assert (Hl : is_ascii_letter c = false).
    { destruct (is_ascii_letter c) eqn:E; [|reflexivity].
      apply is_ascii_letter_true in E. lia. }
    rewrite Hl. split; [reflexivity|].
    split.
    { symmetry. apply is_slash_false. unfold BACKSLASH, SLASH. lia. }
    repeat split; symmetry; apply Z.eqb_neq;
      unfold COLON, DOT, QUESTION; lia.
Qed.

Lemma narrow_hyps (m : storage) :
  Forall wide_unit m ->
  (forall c, In c m -> utf8_letter (narrow c) = wide_letter c)
  /\ (forall c, In c m -> utf8.is_slash (narrow c) = utf8.is_slash c)
  /\ (forall c, In c m -> (narrow c =? COLON)%Z = (c =? COLON)%Z)
  /\ (forall c, In c m -> (narrow c =? DOT)%Z = (c =? DOT)%Z)
  /\ (forall c, In c m -> (narrow c =? QUESTION)%Z = (c =? QUESTION)%Z).
Proof.
  intros Hm. rewrite Forall_forall in Hm.
  repeat split; intros c Hc; apply narrow_keeps_grammar; auto.
Qed.

Lemma wide_finders_narrow (m : storage) (a b : ptr) :
  Forall wide_unit m ->
  wide.find_root_name_end m a b = utf8.find_root_name_end (map narrow m) a b
  /\ wide.find_relative_path m a b
     = utf8.find_relative_path (map narrow m) a b
  /\ wide.find_filename m a b = utf8.find_filename (map narrow m) a b
  /\ wide.find_extension m a b = utf8.find_extension (map narrow m) a b.
Proof.
  intros Hm.
  destruct (narrow_hyps m Hm) as (HL & Hs & Hc & Hd & Hq).
  assert (Hroot : forall a b, utf8.find_root_name_end (map narrow m) a b
                              = wide.find_root_name_end m a b)
    by (intros; now apply narrow_find_root_name_end).
  split; [symmetry; apply Hroot|].
  split; [symmetry;
          apply (shared_find_relative_path_map narrow m Hs _ _ Hroot)|].
  split; [symmetry; apply (shared_find_filename_map narrow m Hs _ _ Hroot)|].
  symmetry. exact (find_extension_map narrow m Hd a b).
Qed.

Lemma wide_views_narrow (m : storage) (p : string_view) :
  Forall wide_unit m ->
  wide.root_name m p = utf8.root_name (map narrow m) p
  /\ wide.relative_path m p = utf8.relative_path (map narrow m) p
  /\ wide.parent_path m p = utf8.parent_path (map narrow m) p
  /\ wide.filename m p = utf8.filename (map narrow m) p
  /\ wide.stem m p = utf8.stem (map narrow m) p
  /\ wide.extension m p = utf8.extension (map narrow m) p.
Proof.
  intros Hm.
  destruct (narrow_hyps m Hm) as (HL & Hs & Hc & Hd & Hq).
  assert (Hroot : forall a b, utf8.find_root_name_end (map narrow m) a b
                              = wide.find_root_name_end m a b)
    by (intros; now apply narrow_find_root_name_end).
  pose proof (shared_views_map narrow m Hs Hc Hd _ _ Hroot p) as H.
  repeat split; symmetry; apply H.
Qed.

(** X6. On every storage of 16-bit units the functions of [util::wide]
    give what the functions of [util::utf8] give once every unit above
    255 is replaced by the unit 0: a unit outside the narrow range is to
    the grammar an ordinary character, never a letter or a separator. *)
Theorem wide_grammar_on_every_unit (m : storage) (Hm : Forall wide_unit m) :
  (forall a b,
      wide.find_root_name_end m a b
      = utf8.find_root_name_end (map narrow m) a b
      /\ wide.find_relative_path m a b
         = utf8.find_relative_path (map narrow m) a b
      /\ wide.find_filename m a b = utf8.find_filename (map narrow m) a b
      /\ wide.find_extension m a b = utf8.find_extension (map narrow m) a b)
  /\ (forall p,
         wide.root_name m p = utf8.root_name (map narrow m) p
         /\ wide.relative_path m p = utf8.relative_path (map narrow m) p
         /\ wide.parent_path m p = utf8.parent_path (map narrow m) p
         /\ wide.filename m p = utf8.filename (map narrow m) p
         /\ wide.stem m p = utf8.stem (map narrow m) p
         /\ wide.extension m p = utf8.extension (map narrow m) p).
Proof.
  split; intros.
  - now apply wide_finders_narrow.
  - now apply wide_views_narrow.
Qed.

Lemma wide_grammar_on_every_unit_witness :
  Forall wide_unit [92; 92; 26381; 92; 65345; 58; 46; 8364]%Z
  /\ wide.relative_path [92; 92; 26381; 92; 65345; 58; 46; 8364]%Z
       (mk_view 0 8)
     = utf8.relative_path (map narrow [92; 92; 26381; 92; 65345; 58; 46; 8364]%Z)
         (mk_view 0 8).
Proof.
  assert (Hm : Forall wide_unit [92; 92; 26381; 92; 65345; 58; 46; 8364]%Z)
    by (repeat (apply Forall_cons; [unfold wide_unit; lia|]); apply Forall_nil).
  split; [exact Hm|].
  apply (wide_grammar_on_every_unit _ Hm).
Defined.

Lemma valid_map (g : Z -> Z) (m : storage) (p : string_view) :
  valid (map g m) p <-> valid m p.
Proof. unfold valid. now rewrite length_map. Qed.

(** X7. Each of the six component functions of [util::wide] returns, on
    every valid view of 16-bit units, a view inside the input view. *)
Theorem wide_components_within_input (m : storage) (p : string_view)
  (Hv : valid m p) (Hm : Forall wide_unit m) :
  forall f, In f wide_components ->
            exists v, f m p = Some v /\ sub_view p v.
Proof.
  intros f Hf.
  pose proof (wide_views_narrow m p Hm) as (H1 & H2 & H3 & H4 & H5 & H6).
  assert (Hv' : valid (map narrow m) p) by now apply valid_map.
  pose proof (components_defined (map narrow m) p Hv') as Hu.
  unfold wide_components in Hf. simpl in Hf.
  destruct Hf as [<- | [<- | [<- | [<- | [<- | [<- | []]]]]]].
  - rewrite H1. destruct (Hu utf8.root_name) as (v & ? & ? & _);
      [unfold utf8_components; simpl; tauto | eauto].
  - rewrite H2. destruct (Hu utf8.relative_path) as (v & ? & ? & _);
      [unfold utf8_components; simpl; tauto | eauto].
  - rewrite H3. destruct (Hu utf8.parent_path) as (v & ? & ? & _);
      [unfold utf8_components; simpl; tauto | eauto].
  - rewrite H4. destruct (Hu utf8.filename) as (v & ? & ? & _);
      [unfold utf8_components; simpl; tauto | eauto].
  - rewrite H5. destruct (Hu utf8.stem) as (v & ? & ? & _);
      [unfold utf8_components; simpl; tauto | eauto].
  - rewrite H6. destruct (Hu utf8.extension) as (v & ? & ? & _);
      [unfold utf8_components; simpl; tauto | eauto].
Qed.

Lemma wide_components_within_input_witness :
  valid [92; 92; 26381; 92; 65345; 58; 46; 8364]%Z (mk_view 0 8)
  /\ Forall wide_unit [92; 92; 26381; 92; 65345; 58; 46; 8364]%Z
  /\ forall f, In f wide_components ->
               exists v, f [92; 92; 26381; 92; 65345; 58; 46; 8364]%Z
                           (mk_view 0 8) = Some v
                         /\ sub_view (mk_view 0 8) v.
Proof.
  assert (Hv : valid [92; 92; 26381; 92; 65345; 58; 46; 8364]%Z (mk_view 0 8))
    by valid_by_computation.
  assert (Hm : Forall wide_unit [92; 92; 26381; 92; 65345; 58; 46; 8364]%Z)
    by (repeat (apply Forall_cons; [unfold wide_unit; lia|]); apply Forall_nil).
  split; [exact Hv | split; [exact Hm|]].
  exact (wide_components_within_input _ _ Hv Hm).
Defined.

(** ** Slashes and backslashes *)

Lemma wide_find_root_name_end_map (g : Z -> Z) (m : storage) (a b : ptr) :
  (forall c, In c m -> wide_letter (g c) = wide_letter c) ->
  (forall c, In c m -> utf8.is_slash (g c) = utf8.is_slash c) ->
  (forall c, In c m -> (g c =? COLON)%Z = (c =? COLON)%Z) ->
  (forall c, In c m -> (g c =? DOT)%Z = (c =? DOT)%Z) ->
  (forall c, In c m -> (g c =? QUESTION)%Z = (c =? QUESTION)%Z) ->
  wide.find_root_name_end (map g m) a b = wide.find_root_name_end m a b.
Proof.
  intros HL Hslash Hcolon Hdot Hquestion.
  unfold wide.find_root_name_end, wide.has_drive_letter_prefix,
    wide.is_drive_prefix.
  fold wide_letter. change wide.is_slash with utf8.is_slash.
  rewrite (drive_test_map g m wide_letter wide_letter a HL Hcolon).
  root_map_tests g m Hslash Hquestion Hdot.
  reflexivity.
Qed.

Lemma slash_is_plain (c : Z) :
  utf8.is_slash c = true ->
  utf8_letter c = false /\ wide_letter c = false
  /\ (c =? COLON)%Z = false /\ (c =? DOT)%Z = false
  /\ (c =? QUESTION)%Z = false.
Proof.
  intros H. apply is_slash_true in H.
  destruct H as [-> | ->]; repeat split; reflexivity.
Qed.

Lemma exchanges_separators_hyps (g : Z -> Z) :
  exchanges_separators g ->
  forall c,
    utf8_letter (g c) = utf8_letter c /\ wide_letter (g c) = wide_letter c
    /\ utf8.is_slash (g c) = utf8.is_slash c
    /\ (g c =? COLON)%Z = (c =? COLON)%Z
    /\ (g c =? DOT)%Z = (c =? DOT)%Z
    /\ (g c =? QUESTION)%Z = (c =? QUESTION)%Z.
Proof.
  intros Hg c. specialize (Hg c).
  destruct (utf8.is_slash c) eqn:Hc.
  - destruct (slash_is_plain c Hc) as (-> & -> & -> & -> & ->).
    destruct (slash_is_plain (g c) Hg) as (-> & -> & -> & -> & ->).
    rewrite Hg. repeat split; reflexivity.
  - rewrite Hg, Hc. repeat split; reflexivity.
Qed.

Lemma to_backslash_exchanges : exchanges_separators to_backslash.
Proof.
  intros c. unfold to_backslash.
  destruct (utf8.is_slash c) eqn:Hc.
  - destruct (Z.eqb_spec c SLASH); [reflexivity | assumption].
  - destruct (Z.eqb_spec c SLASH) as [->|]; [discriminate Hc | reflexivity].
Qed.

Lemma to_slash_exchanges : exchanges_separators to_slash.
Proof.
  intros c. unfold to_slash.
  destruct (utf8.is_slash c) eqn:Hc.
  - destruct (Z.eqb_spec c BACKSLASH); [reflexivity | assumption].
  - destruct (Z.eqb_spec c BACKSLASH) as [->|]; [discriminate Hc | reflexivity].
Qed.

(** X8. The two separators are interchangeable: when every slash of the
    storage is replaced by a slash of either kind (all backslashes, all
    forward slashes, or any mix), every function of both namespaces
    returns the same boundary and the same view. *)
Theorem separators_interchangeable (g : Z -> Z) (Hg : exchanges_separators g)
  (m : storage) :
  (forall a b,
      utf8.find_root_name_end (map g m) a b = utf8.find_root_name_end m a b
      /\ utf8.find_relative_path (map g m) a b = utf8.find_relative_path m a b
      /\ utf8.find_filename (map g m) a b = utf8.find_filename m a b
      /\ utf8.find_extension (map g m) a b = utf8.find_extension m a b
      /\ wide.find_root_name_end (map g m) a b = wide.find_root_name_end m a b
      /\ wide.find_relative_path (map g m) a b = wide.find_relative_path m a b
      /\ wide.find_filename (map g m) a b = wide.find_filename m a b
      /\ wide.find_extension (map g m) a b = wide.find_extension m a b)
  /\ (forall p,
         utf8.root_name (map g m) p = utf8.root_name m p
         /\ utf8.relative_path (map g m) p = utf8.relative_path m p
         /\ utf8.parent_path (map g m) p = utf8.parent_path m p
         /\ utf8.filename (map g m) p = utf8.filename m p
         /\ utf8.stem (map g m) p = utf8.stem m p
         /\ utf8.extension (map g m) p = utf8.extension m p
         /\ wide.root_name (map g m) p = wide.root_name m p
         /\ wide.relative_path (map g m) p = wide.relative_path m p
         /\ wide.parent_path (map g m) p = wide.parent_path m p
         /\ wide.filename (map g m) p = wide.filename m p
         /\ wide.stem (map g m) p = wide.stem m p
         /\ wide.extension (map g m) p = wide.extension m p)
  /\ exchanges_separators to_backslash
  /\ exchanges_separators to_slash.
Proof.
  pose proof (exchanges_separators_hyps g Hg) as H.
  assert (HLu : forall c, In c m -> utf8_letter (g c) = utf8_letter c)
    by (intros; apply H).
  assert (HLw : forall c, In c m -> wide_letter (g c) = wide_letter c)
    by (intros; apply H).
  assert (Hs : forall c, In c m -> utf8.is_slash (g c) = utf8.is_slash c)
    by (intros; apply H).
  assert (Hc : forall c, In c m -> (g c =? COLON)%Z = (c =? COLON)%Z)
    by (intros; apply H).
  assert (Hd : forall c, In c m -> (g c =? DOT)%Z = (c =? DOT)%Z)
    by (intros; apply H).
  assert (Hq : forall c, In c m -> (g c =? QUESTION)%Z = (c =? QUESTION)%Z)
    by (intros; apply H).
  assert (Hru : forall a b, utf8.find_root_name_end (map g m) a b
                            = utf8.find_root_name_end m a b)
    by (intros; now apply utf8_find_root_name_end_map).
  assert (Hrw : forall a b, wide.find_root_name_end (map g m) a b
                            = wide.find_root_name_end m a b)
    by (intros; now apply wide_find_root_name_end_map).
  split; [|split; [|split; [exact to_backslash_exchanges
                           | exact to_slash_exchanges]]].
  - intros a b.
    split; [apply Hru|].
    split; [apply (shared_find_relative_path_map g m Hs _ _ Hru)|].
    split; [apply (shared_find_filename_map g m Hs _ _ Hru)|].
    split; [apply (find_extension_map g m Hd)|].
    split; [apply Hrw|].
    split; [apply (shared_find_relative_path_map g m Hs _ _ Hrw)|].
    split; [apply (shared_find_filename_map g m Hs _ _ Hrw)|].
    apply (find_extension_map g m Hd).
  - intros p.
    pose proof (shared_views_map g m Hs Hc Hd _ _ Hru p)
      as (U1 & U2 & U3 & U4 & U5 & U6).
    pose proof (shared_views_map g m Hs Hc Hd _ _ Hrw p)
      as (W1 & W2 & W3 & W4 & W5 & W6).
    repeat split; assumption.
Qed.

Lemma separators_interchangeable_witness :
  exchanges_separators to_backslash
  /\ utf8.parent_path (map to_backslash (units "C:/dir\sub/file.txt"))
       (whole (units "C:/dir\sub/file.txt"))
     = utf8.parent_path (units "C:/dir\sub/file.txt")
         (whole (units "C:/dir\sub/file.txt")).
Proof.
  split; [exact to_backslash_exchanges|].
  apply (separators_interchangeable to_backslash to_backslash_exchanges).
Defined.

(** ** Empty paths and paths of separators *)

Lemma retreat_while_stop (pred : Z -> bool) (m : storage) (t : ptr) :
  retreat_while pred m t t = Some t.
Proof. destruct t; simpl; [reflexivity | now rewrite Nat.eqb_refl]. Qed.

Lemma find_if_empty (pred : Z -> bool) (m : storage) (a : ptr) :
  find_if pred m a a = Some a.
Proof.
  unfold find_if. rewrite Nat.ltb_irrefl, Nat.sub_diag. reflexivity.
Qed.

Lemma ptrdiff_diag (a : ptr) : ptrdiff a a = 0%Z.
Proof. unfold ptrdiff. lia. Qed.

(** X9. On an empty view every function of both namespaces returns the
    empty view at the same position, without reading the storage: this
    holds wherever the view points, also at the end of the storage or
    into an empty one. *)
Theorem empty_path_components (m : storage) (p : string_view)
  (He : size p = 0) :
  (forall f, In f utf8_components -> f m p = Some (mk_view (data p) 0))
  /\ (forall f, In f wide_components -> f m p = Some (mk_view (data p) 0))
  /\ utf8.find_root_name_end m (data p) (view_end p) = Some (data p)
  /\ utf8.find_relative_path m (data p) (view_end p) = Some (data p)
  /\ utf8.find_filename m (data p) (view_end p) = Some (data p)
  /\ utf8.find_extension m (data p) (view_end p) = Some (data p).
Proof.
  destruct p as [d n]. simpl in He. subst n. unfold view_end. simpl.
  rewrite Nat.add_0_r.
  assert (Hr : utf8.find_root_name_end m d d = Some d)
    by (unfold utf8.find_root_name_end; now rewrite ptrdiff_diag).
  assert (Hrw : wide.find_root_name_end m d d = Some d)
    by (unfold wide.find_root_name_end; now rewrite ptrdiff_diag).
  assert (Hrel : utf8.find_relative_path m d d = Some d)
    by (unfold utf8.find_relative_path, find_if_not;
        now rewrite Hr, find_if_empty).
  assert (Hrelw : wide.find_relative_path m d d = Some d)
    by (unfold wide.find_relative_path, find_if_not;
        now rewrite Hrw, find_if_empty).
  assert (Hf : utf8.find_filename m d d = Some d)
    by (unfold utf8.find_filename; now rewrite Hrel, retreat_while_stop).
  assert (Hfw : wide.find_filename m d d = Some d)
    by (unfold wide.find_filename; now rewrite Hrelw, retreat_while_stop).
  assert (Hx : utf8.find_extension m d d = Some d)
    by (unfold utf8.find_extension; now rewrite Nat.eqb_refl).
  assert (Hsz : size_t 0 = 0) by reflexivity.
  repeat split; try assumption.
  - intros f Hf'. unfold utf8_components in Hf'. simpl in Hf'.
    destruct Hf' as [<- | [<- | [<- | [<- | [<- | [<- | []]]]]]];
      unfold utf8.root_name, utf8.relative_path, utf8.parent_path,
        utf8.filename, utf8.stem, utf8.extension, find; simpl;
      rewrite ?Nat.add_0_r, ?Hr, ?Hrel, ?Hf, ?retreat_while_stop,
        ?find_if_empty, ?Hx, ?ptrdiff_diag, ?Hsz; reflexivity.
  - intros f Hf'. unfold wide_components in Hf'. simpl in Hf'.
    change wide.find_extension with utf8.find_extension in *.
    destruct Hf' as [<- | [<- | [<- | [<- | [<- | [<- | []]]]]]];
      unfold wide.root_name, wide.relative_path, wide.parent_path,
        wide.filename, wide.stem, wide.extension, find; simpl;
      change wide.find_extension with utf8.find_extension;
      rewrite ?Nat.add_0_r, ?Hrw, ?Hrelw, ?Hfw, ?retreat_while_stop,
        ?find_if_empty, ?Hx, ?ptrdiff_diag, ?Hsz; reflexivity.
Qed.

Lemma empty_path_components_witness :
  size (mk_view 3 0) = 0
  /\ forall f, In f utf8_components ->
               f (units "abc") (mk_view 3 0) = Some (mk_view 3 0).
Proof.
  assert (He : size (mk_view 3 0) = 0) by reflexivity.
  split; [exact He|].
  exact (proj1 (empty_path_components (units "abc") (mk_view 3 0) He)).
Defined.

Lemma root_name_length_separators (letter : Z -> bool) (s : list Z) :
  Forall (fun c => utf8.is_slash c = true) s -> root_name_length letter s = 0.
Proof.
  intros H. unfold root_name_length.
  destruct s as [|c0 [|c1 [|c2 s]]]; try reflexivity.
  - inversion H as [|? ? H0 H']; subst. inversion H' as [|? ? H1 _]; subst.
    destruct (slash_is_plain c1 H1) as (_ & _ & Hc & _).
    simpl. rewrite Hc, H0, andb_false_r. reflexivity.
  - inversion H as [|? ? H0 H']; subst. inversion H' as [|? ? H1 H'']; subst.
    inversion H'' as [|? ? H2 _]; subst.
    destruct (slash_is_plain c1 H1) as (_ & _ & Hc & _ & Hq1).
    destruct (slash_is_plain c2 H2) as (_ & _ & _ & Hd2 & Hq2).
    simpl. rewrite Hc, H0, H1, H2, Hd2, Hq2, Hq1, !andb_false_r. simpl.
    destruct s; reflexivity.
Qed.

Lemma Forall_span (P : Z -> Prop) (m : storage) (a b : ptr) :
  b <= length m ->
  (forall i, a <= i < b -> P (nth i m 0%Z)) -> Forall P (span m a b).
Proof.
  intros Hb H. apply Forall_forall. intros c Hin.
  destruct (In_nth _ _ 0%Z Hin) as (i & Hi & <-).
  rewrite span_length in Hi by assumption.
  rewrite nth_span by lia. apply H. lia.
Qed.

Lemma span_Forall (P : Z -> Prop) (m : storage) (a b : ptr) :
  b <= length m -> Forall P (span m a b) ->
  forall i, a <= i < b -> P (nth i m 0%Z).
Proof.
  intros Hb H i Hi. rewrite Forall_forall in H.
  replace i with (a + (i - a)) by lia.
  rewrite <- (nth_span m a b) by lia.
  apply H, nth_In. rewrite span_length by assumption. lia.
Qed.

(** X10. A path made of separators only has no root-name, no relative
    path and no filename, and is its own parent: [root_name] is empty at
    the start, [relative_path], [filename], [stem] and [extension] are
    empty at the end, and [parent_path] returns the path unchanged. *)
Theorem separator_path_components (m : storage) (p : string_view)
  (Hv : valid m p)
  (Hs : Forall (fun c => utf8.is_slash c = true) (contents m p)) :
  utf8.root_name m p = Some (mk_view (data p) 0)
  /\ utf8.relative_path m p = Some (mk_view (view_end p) 0)
  /\ utf8.parent_path m p = Some p
  /\ utf8.filename m p = Some (mk_view (view_end p) 0)
  /\ utf8.stem m p = Some (mk_view (view_end p) 0)
  /\ utf8.extension m p = Some (mk_view (view_end p) 0).
Proof.
  destruct (valid_range m p Hv) as [Hfl Hl].
  destruct (utf8_views m p Hv)
    as (rel & fname & pend & ads & exts & Hb & _ & _
        & Hroot & Hrp & Hpp & Hfn & Hst & Hex).
  pose proof (boundaries_order _ _ _ _ _ _ _ _ Hfl Hl Hb) as Hord.
  assert (Hre : root_end m (data p) (view_end p) = data p).
  { unfold root_end. rewrite root_name_length_separators; [lia | exact Hs]. }
  pose proof (span_Forall _ m _ _ Hl Hs) as Hall.
  destruct Hb as [(_ & _ & Hat) _ _ _ _].
  assert (Hrel : rel = view_end p).
  { destruct (Nat.eq_dec rel (view_end p)) as [|Hne]; [assumption|].
    specialize (Hat ltac:(lia)). unfold not_slash in Hat.
    rewrite Hall in Hat by lia. discriminate. }
  assert (pend = view_end p /\ fname = view_end p /\ ads = view_end p
          /\ exts = view_end p) as (-> & -> & -> & ->) by lia.
  subst rel. rewrite Hroot, Hrp, Hpp, Hfn, Hst, Hex, Hre, !Nat.sub_diag.
  repeat split; try reflexivity.
  destruct p as [d n]. unfold view_end. simpl. do 2 f_equal. lia.
Qed.

Lemma separator_path_components_witness :
  valid (units "/\/") (whole (units "/\/"))
  /\ Forall (fun c => utf8.is_slash c = true)
       (contents (units "/\/") (whole (units "/\/")))
  /\ utf8.parent_path (units "/\/") (whole (units "/\/"))
     = Some (whole (units "/\/")).
Proof.
  assert (Hv : valid (units "/\/") (whole (units "/\/")))
    by valid_by_computation.
  assert (Hs : Forall (fun c => utf8.is_slash c = true)
                 (contents (units "/\/") (whole (units "/\/"))))
    by (repeat (apply Forall_cons; [reflexivity|]); apply Forall_nil).
  split; [exact Hv | split; [exact Hs|]].
  exact (proj1 (proj2 (proj2 (separator_path_components _ _ Hv Hs)))).
Defined.

(** ** The shape of the components *)

Lemma root_name_length_shape (letter : Z -> bool) (s : list Z) :
  (root_name_length letter s = 0 \/ root_name_length letter s = 2
   \/ 3 <= root_name_length letter s)
  /\ (root_name_length letter s = 2 <-> drive_form letter s = true)
  /\ (3 <= root_name_length letter s ->
      utf8.is_slash (nth 0 s 0%Z) = true
      /\ (forall i, 2 <= i < root_name_length letter s ->
                    utf8.is_slash (nth i s 0%Z) = false)
      /\ (root_name_length letter s < length s ->
          utf8.is_slash (nth (root_name_length letter s) s 0%Z) = true)).
Proof.
  destruct (root_name_length_cases letter s)
    as [H | [(H & Hd) | [(H & Hnd & Hd)
        | (c0 & c1 & c2 & rest & -> & Hnd & _ & H0 & H1 & H2 & H)]]];
    rewrite H.
  - split; [auto|]. split; [|lia]. split; [lia|].
    intros Hd. unfold root_name_length in H.
    destruct s as [|c0 [|c1 s]]; try discriminate Hd.
    simpl in H, Hd. rewrite Hd in H. discriminate.
  - split; [auto|]. split; [tauto | lia].
  - split; [auto|]. split; [split; [lia | congruence]|]. intros _.
    apply device_form_inv in Hd.
    destruct Hd as (c0 & c1 & c2 & c3 & rest & -> & H0 & H3 & _ & Hform).
    simpl. split; [assumption|]. split; [|auto].
    intros i Hi. assert (i = 2) as -> by lia. simpl.
    apply is_slash_false.
    unfold BACKSLASH, SLASH, QUESTION, DOT in *. lia.
  - split; [lia|]. split; [split; [lia | congruence]|]. intros _.
    simpl. split; [assumption|].
    pose proof (find_index_before utf8.is_slash rest) as Hbefore.
    pose proof (find_index_at utf8.is_slash rest) as Hat.
    split.
    + intros i Hi.
      destruct i as [|[|[|i]]]; try lia; [assumption|].
      apply Hbefore. lia.
    + intros Hlt. apply Hat. lia.
Qed.

(** X11. The root-name [root_name] returns starts where the path starts
    and has 0, 2, or at least 3 units.  It has 2 units exactly when the
    path has a drive-letter prefix.  It never ends in a slash.  With 3 or
    more units it starts with a slash, has no slash from its third unit
    on, and is followed by a slash or by the end of the path. *)
Theorem root_name_shape (m : storage) (p : string_view) (Hv : valid m p) :
  exists r,
    utf8.root_name m p = Some r
    /\ data r = data p
    /\ (size r = 0 \/ size r = 2 \/ 3 <= size r)
    /\ (size r = 2
        <-> utf8.has_drive_letter_prefix m (data p) (view_end p) = Some true)
    /\ (0 < size r -> utf8.is_slash (nth (view_end r - 1) m 0%Z) = false)
    /\ (3 <= size r ->
        utf8.is_slash (nth (data p) m 0%Z) = true
        /\ (forall i, data p + 2 <= i < view_end r ->
                      utf8.is_slash (nth i m 0%Z) = false)
        /\ (view_end r < view_end p ->
            utf8.is_slash (nth (view_end r) m 0%Z) = true)).
Proof.
  destruct (valid_range m p Hv) as [Hfl Hl].
  destruct (utf8_views m p Hv) as (? & ? & ? & ? & ? & _ & _ & _ & Hroot & _).
  pose proof (root_end_bounds m _ _ Hfl Hl) as Hre.
  set (s := span m (data p) (view_end p)).
  assert (Hn : root_end m (data p) (view_end p) - data p
               = root_name_length utf8_letter s)
    by (unfold root_end; fold s; lia).
  rewrite Hn in Hroot.
  exists (mk_view (data p) (root_name_length utf8_letter s)).
  split; [assumption|]. split; [reflexivity|].
  replace (view_end (mk_view (data p) (root_name_length utf8_letter s)))
    with (data p + root_name_length utf8_letter s) by reflexivity.
  cbn [size].
  assert (Hlen : length s = view_end p - data p)
    by (apply span_length; assumption).
  assert (Hnth : forall i, i < view_end p - data p ->
                           nth i s 0%Z = nth (data p + i) m 0%Z)
    by (intros; apply nth_span; lia).
  pose proof (root_name_length_shape utf8_letter s) as (S1 & S2 & S3).
  pose proof (root_name_length_last utf8_letter s) as S4.
  split; [assumption|].
  split.
  { rewrite S2. unfold s. rewrite drive_form_span by assumption.
    rewrite utf8_has_drive_letter_prefix_eq by assumption.
    split; [congruence | intros H; now injection H]. }
  split.
  { intros Hpos. specialize (S4 Hpos). rewrite Hnth in S4 by lia.
    replace (data p + root_name_length utf8_letter s - 1)
      with (data p + (root_name_length utf8_letter s - 1)) by lia.
    assumption. }
  intros H3. destruct (S3 H3) as (T1 & T2 & T3).
  split; [rewrite Hnth in T1 by lia; now rewrite Nat.add_0_r in T1|].
  split.
  - intros i Hi. specialize (T2 (i - data p) ltac:(lia)).
    rewrite Hnth in T2 by lia.
    now replace (data p + (i - data p)) with i in T2 by lia.
  - intros Hlt. specialize (T3 ltac:(lia)).
    now rewrite Hnth in T3 by lia.
Qed.

Lemma root_name_shape_witness :
  valid (units "\\server\share") (whole (units "\\server\share"))
  /\ exists r,
      utf8.root_name (units "\\server\share") (whole (units "\\server\share"))
      = Some r
      /\ data r = 0.
Proof.
  assert (Hv : valid (units "\\server\share") (whole (units "\\server\share")))
    by valid_by_computation.
  split; [exact Hv|].
  destruct (root_name_shape _ _ Hv) as (r & Hr & Hd & _).
  exists r. split; assumption.
Defined.

Lemma before_colon_span (m : storage) (fname last ads : ptr) :
  last <= length m -> first_such is_colon m fname last ads ->
  before_colon (span m fname last) = span m fname ads.
Proof.
  intros Hl Hads. unfold before_colon.
  pose proof (first_such_index is_colon m fname last ads Hl Hads) as Hk.
  destruct Hads as (Hr & _).
  replace (find_index is_colon (span m fname last)) with (ads - fname) by lia.
  apply span_firstn. lia.
Qed.

(** X12. What the components cannot contain: a relative path does not
    start with a slash, a filename holds no slash, and a stem and an
    extension hold neither a slash nor a colon. *)
Theorem components_hold_no_separator (m : storage) (p : string_view)
  (Hv : valid m p) :
  exists rp f s e,
    utf8.relative_path m p = Some rp
    /\ utf8.filename m p = Some f
    /\ utf8.stem m p = Some s
    /\ utf8.extension m p = Some e
    /\ utf8.is_slash (hd 0%Z (contents m rp)) = false
    /\ Forall (fun c => utf8.is_slash c = false) (contents m f)
    /\ Forall (fun c => utf8.is_slash c = false /\ c <> COLON) (contents m s)
    /\ Forall (fun c => utf8.is_slash c = false /\ c <> COLON) (contents m e).
Proof.
  destruct (valid_range m p Hv) as [Hfl Hl].
  destruct (utf8_views m p Hv)
    as (rel & fname & pend & ads & exts & Hb & _ & _ & _ & Hrp & _
        & Hfn & Hst & Hex).
  pose proof (boundaries_order _ _ _ _ _ _ _ _ Hfl Hl Hb) as Hord.
  destruct Hb as [(_ & _ & Hat) (_ & Hall & _) _ (_ & Hnc & _) _].
  exists (mk_view rel (view_end p - rel)), (mk_view fname (view_end p - fname)),
    (mk_view fname (exts - fname)), (mk_view exts (ads - exts)).
  do 4 (split; [assumption|]).
  rewrite !contents_view by lia.
  assert (Hns : forall i, fname <= i < view_end p ->
                          utf8.is_slash (nth i m 0%Z) = false)
    by (intros; apply negb_true_iff, Hall; lia).
  assert (Hcol : forall i, fname <= i < ads -> nth i m 0%Z <> COLON).
  { intros i Hi. specialize (Hnc i ltac:(lia)). unfold is_colon in Hnc.
    now apply Z.eqb_neq. }
  split.
  { rewrite hd_span. destruct (Nat.ltb_spec rel (view_end p)); [|reflexivity].
    apply negb_true_iff. now apply Hat. }
  split; [apply Forall_span; [lia | assumption]|].
  split; apply Forall_span; try lia;
    intros i Hi; (split; [apply Hns | apply Hcol]); lia.
Qed.

Lemma components_hold_no_separator_witness :
  valid (units "C:\dir\a.b:s") (whole (units "C:\dir\a.b:s"))
  /\ exists rp f s e,
      utf8.relative_path (units "C:\dir\a.b:s") (whole (units "C:\dir\a.b:s"))
      = Some rp
      /\ utf8.filename (units "C:\dir\a.b:s") (whole (units "C:\dir\a.b:s"))
         = Some f
      /\ utf8.stem (units "C:\dir\a.b:s") (whole (units "C:\dir\a.b:s"))
         = Some s
      /\ utf8.extension (units "C:\dir\a.b:s") (whole (units "C:\dir\a.b:s"))
         = Some e
      /\ utf8.is_slash (hd 0%Z (contents (units "C:\dir\a.b:s") rp)) = false
      /\ Forall (fun c => utf8.is_slash c = false)
           (contents (units "C:\dir\a.b:s") f)
      /\ Forall (fun c => utf8.is_slash c = false /\ c <> COLON)
           (contents (units "C:\dir\a.b:s") s)
      /\ Forall (fun c => utf8.is_slash c = false /\ c <> COLON)
           (contents (units "C:\dir\a.b:s") e).
Proof.
  assert (Hv : valid (units "C:\dir\a.b:s") (whole (units "C:\dir\a.b:s")))
    by valid_by_computation.
  split; [exact Hv|].
  exact (components_hold_no_separator _ _ Hv).
Defined.

(** X13. The shape of stem and extension: an extension is empty or is a
    dot followed by units that are not dots, and the stem is empty only
    when the filename has nothing in front of its first colon (so a
    lone dot, a leading-dot name or [..] is all stem). *)
Theorem stem_extension_shape (m : storage) (p : string_view)
  (Hv : valid m p) :
  exists f s e,
    utf8.filename m p = Some f
    /\ utf8.stem m p = Some s
    /\ utf8.extension m p = Some e
    /\ (contents m e = []
        \/ exists t, contents m e = DOT :: t /\ ~ In DOT t)
    /\ (contents m s = [] <-> before_colon (contents m f) = [])
    /\ (contents m e <> [] -> contents m s <> []).
Proof.
  destruct (valid_range m p Hv) as [Hfl Hl].
  destruct (utf8_views m p Hv)
    as (rel & fname & pend & ads & exts & Hb & _ & _ & _ & _ & _
        & Hfn & Hst & Hex).
  pose proof (boundaries_order _ _ _ _ _ _ _ _ Hfl Hl Hb) as Hord.
  destruct Hb as [_ _ _ Hads Hexts].
  exists (mk_view fname (view_end p - fname)), (mk_view fname (exts - fname)),
    (mk_view exts (ads - exts)).
  do 3 (split; [assumption|]).
  assert (Hse : contents m (mk_view fname (exts - fname)) = [] <-> fname = exts)
    by (apply contents_nil; lia).
  assert (Hee : contents m (mk_view exts (ads - exts)) = [] <-> exts = ads)
    by (apply contents_nil; lia).
  assert (Hbc : before_colon (contents m (mk_view fname (view_end p - fname)))
                = [] <-> fname = ads).
  { rewrite contents_view by lia.
    rewrite (before_colon_span m fname (view_end p) ads Hl Hads).
    rewrite <- (contents_view m fname ads) by lia. apply contents_nil; lia. }
  assert (Hstem : fname = exts -> fname = ads) by (destruct Hexts; lia).
  split.
  - destruct Hexts as [Hs | Hd H0 H1 | Hlen Hdot Hnd | e Hlen Hndot Hr Hdot Hno
                      | Hlen Hndot Hno];
      try (left; apply contents_nil; lia).
    + right. exists []. split; [|auto].
      rewrite contents_view by lia. rewrite span_head by lia.
      rewrite Hdot. f_equal. apply span_empty. lia.
    + right. exists (span m (S e) ads). rewrite contents_view by lia.
      split; [rewrite span_head by lia; now rewrite Hdot|].
      intros Hin. destruct (In_nth _ _ 0%Z Hin) as (i & Hi & Hnth).
      rewrite span_length in Hi by lia. rewrite nth_span in Hnth by lia.
      apply (Hno (S e + i)); [lia | assumption].
  - split.
    + rewrite Hse, Hbc. split; [assumption | lia].
    + rewrite Hse, Hee. intros Hne Heq. apply Hne.
      specialize (Hstem Heq). lia.
Qed.

Lemma stem_extension_shape_witness :
  valid (units "dir/.profile") (whole (units "dir/.profile"))
  /\ exists f s e,
      utf8.filename (units "dir/.profile") (whole (units "dir/.profile"))
      = Some f
      /\ utf8.stem (units "dir/.profile") (whole (units "dir/.profile"))
         = Some s
      /\ utf8.extension (units "dir/.profile") (whole (units "dir/.profile"))
         = Some e
      /\ (contents (units "dir/.profile") e = []
          \/ exists t, contents (units "dir/.profile") e = DOT :: t
                       /\ ~ In DOT t)
      /\ (contents (units "dir/.profile") s = []
          <-> before_colon (contents (units "dir/.profile") f) = [])
      /\ (contents (units "dir/.profile") e <> []
          -> contents (units "dir/.profile") s <> []).
Proof.
  assert (Hv : valid (units "dir/.profile") (whole (units "dir/.profile")))
    by valid_by_computation.
  split; [exact Hv|].
  exact (stem_extension_shape _ _ Hv).
Defined.

(** ** Parent paths *)

Lemma find_index_firstn_ge (pred : Z -> bool) (l : list Z) (j : nat) :
  find_index pred l <= j -> find_index pred (firstn j l) = find_index pred l.
Proof.
  revert j; induction l as [|c l IH]; intros j Hj; [now destruct j|].
  simpl in *. destruct (pred c) eqn:Hc.
  - destruct j; simpl; [reflexivity | now rewrite Hc].
  - destruct j; [lia|]. simpl. rewrite Hc. f_equal. apply IH. lia.
Qed.

Lemma hd_firstn (s : list Z) (k : nat) :
  1 <= k -> hd 0%Z (firstn k s) = hd 0%Z s.
Proof. destruct s, k; simpl; try reflexivity; lia. Qed.

Lemma drive_form_firstn (letter : Z -> bool) (s : list Z) (k : nat) :
  2 <= k -> drive_form letter (firstn k s) = drive_form letter s.
Proof.
  destruct s as [|c0 [|c1 s]], k as [|[|k]]; simpl; try reflexivity; lia.
Qed.

Lemma server_form_firstn (s : list Z) (k : nat) :
  3 <= k -> server_form (firstn k s) = server_form s.
Proof.
  destruct s as [|c0 [|c1 [|c2 s]]], k as [|[|[|k]]]; simpl;
    try reflexivity; lia.
Qed.

Lemma device_form_firstn (s : list Z) (k : nat) :
  5 <= k -> device_form (firstn k s) = device_form s.
Proof.
  destruct s as [|c0 [|c1 [|c2 [|c3 [|c4 s]]]]], k as [|[|[|[|[|k]]]]]; simpl;
    try reflexivity; lia.
Qed.

(** The offset of the relative path in the units [s] of a path. *)
Lemma relative_offset_device (letter : Z -> bool) (s : list Z) :
  device_form s = true ->
  4 <= 3 + find_index not_slash (skipn 3 s).
Proof.
  intros Hd. apply device_form_inv in Hd.
  destruct Hd as (c0 & c1 & c2 & c3 & rest & -> & _ & H3 & _).
  simpl. unfold not_slash at 1. rewrite H3. simpl. lia.
Qed.

Section RootNameOfPrefix.

Variable letter : Z -> bool.

(** Cutting a path behind the start of its relative path, not right
    after a slash unless at that start, keeps the root-name. *)
Lemma root_name_length_prefix (s : list Z) (k : nat) :
  root_name_length letter s
  + find_index not_slash (skipn (root_name_length letter s) s) <= k ->
  k <= length s ->
  (k = root_name_length letter s
       + find_index not_slash (skipn (root_name_length letter s) s)
   \/ utf8.is_slash (nth (k - 1) s 0%Z) = false) ->
  root_name_length letter (firstn k s) = root_name_length letter s.
Proof.
  intros Hrel Hk Hend.
  pose proof (root_name_length_shape letter s) as (Hshape & Hdrive & _).
  assert (Hlen' : length (firstn k s) = k) by (rewrite length_firstn; lia).
  destruct (Nat.ltb_spec k 2) as [Hk2 | Hk2].
  { assert (Hn : root_name_length letter s = 0) by lia.
    rewrite Hn. unfold root_name_length. rewrite Hlen'.
    destruct (Nat.ltb_spec k 2); [reflexivity | lia]. }
  revert Hrel Hend. unfold root_name_length.
  rewrite Hlen', drive_form_firstn, hd_firstn by lia.
  destruct (Nat.ltb_spec k 2); [lia|].
  destruct (Nat.ltb_spec (length s) 2); [lia|].
  destruct (drive_form letter s); [reflexivity|].
  destruct (utf8.is_slash (hd 0%Z s)) eqn:Hhd; cbn [negb]; [|reflexivity].
  destruct (device_form s) eqn:HD.
  - (* a device prefix: the cut is behind its slash *)
    intros Hrel _.
    pose proof (relative_offset_device letter s HD) as H4.
    apply device_form_inv in HD.
    destruct HD as (c0 & c1 & c2 & c3 & rest & -> & Hc0 & Hc3 & Hc4 & Hform).
    destruct k as [|[|[|[|k]]]]; try lia.
    assert (Hdev : device_form (firstn (S (S (S (S k))))
                                  (c0 :: c1 :: c2 :: c3 :: rest)) = true).
    { simpl. rewrite Hc0, Hc3.
      assert (Hpat : (utf8.is_slash c1 && ((c2 =? QUESTION)%Z || (c2 =? DOT)%Z)
                      || (c1 =? QUESTION)%Z && (c2 =? QUESTION)%Z) = true).
      { destruct Hform as [(H1 & [-> | ->]) | (-> & ->)];
          rewrite ?H1; reflexivity. }
      rewrite Hpat. simpl.
      destruct k, rest; simpl; try reflexivity; exact (proj2 (negb_true_iff _) Hc4). }
    now rewrite Hdev.
  - destruct (server_form s) eqn:HS.
    + (* a server name: the cut is behind the name *)
      intros Hrel _.
      assert (Hj : 3 + find_index utf8.is_slash (skipn 3 s) <= k) by lia.
      rewrite server_form_firstn, HS by lia.
      assert (Hskip : skipn 3 (firstn k s) = firstn (k - 3) (skipn 3 s)).
      { rewrite skipn_firstn_comm. reflexivity. }
      rewrite Hskip, find_index_firstn_ge by lia.
      destruct (device_form (firstn k s)) eqn:HD'; [|reflexivity].
      exfalso.
      destruct (Nat.leb_spec 5 k) as [H5 | H5].
      { rewrite device_form_firstn in HD' by assumption. congruence. }
      destruct s as [|c0 [|c1 [|c2 [|c3 [|c4 rest]]]]];
        destruct k as [|[|[|[|[|k]]]]]; try lia; try discriminate HD'.
      * simpl in HD, HD'. congruence.
      * simpl in HD, HD', Hrel.
        destruct (utf8.is_slash c4) eqn:Hc4; [|simpl in HD; congruence].
        rewrite andb_true_r in HD'.
        apply andb_true_iff in HD'. destruct HD' as [_ Hc3].
        unfold not_slash in Hrel. rewrite Hc3 in Hrel. simpl in Hrel.
        rewrite Hc3, Hc4 in Hrel. simpl in Hrel. lia.
    + (* no root-name *)
      intros Hrel Hend.
      assert (HS' : server_form (firstn k s) = false).
      { destruct (Nat.leb_spec 3 k).
        - now rewrite server_form_firstn.
        - assert (k = 2) as -> by lia.
          destruct s as [|c0 [|c1 s']]; reflexivity. }
      rewrite HS'.
      destruct (device_form (firstn k s)) eqn:HD'; [|reflexivity].
      exfalso.
      destruct (Nat.leb_spec 5 k) as [H5 | H5].
      { rewrite device_form_firstn in HD' by assumption. congruence. }
      destruct s as [|c0 [|c1 [|c2 [|c3 [|c4 rest]]]]];
        destruct k as [|[|[|[|[|k]]]]]; try lia; try discriminate HD'.
      * simpl in HD, HD'. congruence.
      * simpl in HD, HD', HS, Hrel, Hend, Hhd.
        destruct (utf8.is_slash c4) eqn:Hc4; [|simpl in HD; congruence].
        rewrite andb_true_r in HD'.
        apply andb_true_iff in HD'. destruct HD' as [HD' Hc3].
        rewrite Hhd in HD', HS. simpl in HD', HS.
        destruct (utf8.is_slash c1) eqn:Hc1.
        -- simpl in HS. apply negb_false_iff in HS.
           simpl in HD'.
           destruct (slash_is_plain c2 HS) as (_ & _ & _ & Hd2 & Hq2).
           rewrite Hd2, Hq2 in HD'. simpl in HD'.
           rewrite andb_false_r in HD'. discriminate.
        -- unfold not_slash in Hend at 1. rewrite Hhd in Hend. simpl in Hend.
           unfold not_slash in Hend at 1. rewrite Hc1 in Hend. simpl in Hend.
           destruct Hend as [Hend | Hend]; [lia | congruence].
Qed.

End RootNameOfPrefix.

Lemma root_end_of_parent (m : storage) (a last rel fname pend : ptr) :
  a <= last -> last <= length m ->
  first_such not_slash m (root_end m a last) last rel ->
  last_such utf8.is_slash m rel fname pend -> fname <= last ->
  root_end m a pend = root_end m a last.
Proof.
  intros Hal Hl Hrel Hpend Hf.
  pose proof (root_end_bounds m a last Hal Hl) as Hre.
  pose proof (first_such_index not_slash m _ last rel Hl Hrel) as Hidx.
  destruct Hrel as (Hr & _). destruct Hpend as (Hp & _ & Hprev).
  unfold root_end in *.
  set (s := span m a last) in *.
  assert (Hskip : span m (a + root_name_length utf8_letter s) last
                  = skipn (root_name_length utf8_letter s) s)
    by (unfold s; now rewrite span_skipn).
  rewrite Hskip in Hidx.
  replace (span m a pend) with (firstn (pend - a) s)
    by (unfold s; apply span_firstn; lia).
  f_equal. apply root_name_length_prefix.
  - lia.
  - unfold s. rewrite span_length by assumption. lia.
  - destruct (Nat.eq_dec rel pend) as [Heq | Hne]; [left; lia|].
    right. unfold s. rewrite nth_span by lia.
    replace (a + (pend - a - 1)) with (pend - 1) by lia.
    apply Hprev. lia.
Qed.

(** X14. [parent_path] only removes units of the relative path: the
    parent has the root-name of the path, and its relative path starts
    where the relative path of the path starts. *)
Theorem parent_path_keeps_root (m : storage) (p : string_view)
  (Hv : valid m p) :
  exists pp rp,
    utf8.parent_path m p = Some pp
    /\ utf8.relative_path m p = Some rp
    /\ data rp <= view_end pp
    /\ utf8.root_name m pp = utf8.root_name m p
    /\ utf8.relative_path m pp
       = Some (mk_view (data rp) (view_end pp - data rp)).
Proof.
  destruct (valid_range m p Hv) as [Hfl Hl].
  destruct (utf8_views m p Hv)
    as (rel & fname & pend & ads & exts & Hb & _ & _ & Hroot & Hrp & Hpp & _).
  pose proof (boundaries_order _ _ _ _ _ _ _ _ Hfl Hl Hb) as Hord.
  destruct Hb as [Hrel _ Hpend _ _].
  exists (mk_view (data p) (pend - data p)), (mk_view rel (view_end p - rel)).
  split; [assumption|]. split; [assumption|].
  rewrite view_end_mk by lia. cbn [data].
  split; [lia|].
  assert (Hvp : valid m (mk_view (data p) (pend - data p)))
    by (apply (valid_sub m p); [assumption | lia..]).
  destruct (utf8_views m _ Hvp)
    as (rel' & ? & ? & ? & ? & Hb' & _ & _ & Hroot' & Hrp' & _).
  rewrite view_end_mk in * by lia. cbn [data] in *.
  assert (Hre : root_end m (data p) pend = root_end m (data p) (view_end p))
    by (apply (root_end_of_parent m _ _ rel fname); try assumption; lia).
  rewrite Hroot', Hroot, Hrp', Hre.
  split; [reflexivity|].
  destruct Hb' as [Hrel' _ _ _ _]. rewrite Hre in Hrel'.
  assert (rel' = rel); [|now subst].
  apply (first_such_unique not_slash m
           (root_end m (data p) (view_end p)) pend); [assumption|].
  destruct Hrel as (Hr & Hbefore & Hat).
  split; [lia|]. split; [assumption|]. intros Hlt. apply Hat. lia.
Qed.

Lemma parent_path_keeps_root_witness :
  valid (units "\\?\C:\dir\file") (whole (units "\\?\C:\dir\file"))
  /\ exists pp rp,
      utf8.parent_path (units "\\?\C:\dir\file")
        (whole (units "\\?\C:\dir\file")) = Some pp
      /\ utf8.relative_path (units "\\?\C:\dir\file")
           (whole (units "\\?\C:\dir\file")) = Some rp
      /\ data rp <= view_end pp
      /\ utf8.root_name (units "\\?\C:\dir\file") pp
         = utf8.root_name (units "\\?\C:\dir\file")
             (whole (units "\\?\C:\dir\file"))
      /\ utf8.relative_path (units "\\?\C:\dir\file") pp
         = Some (mk_view (data rp) (view_end pp - data rp)).
Proof.
  assert (Hv : valid (units "\\?\C:\dir\file")
                 (whole (units "\\?\C:\dir\file")))
    by valid_by_computation.
  split; [exact Hv|].
  exact (parent_path_keeps_root _ _ Hv).
Defined.

(** X15. [parent_path] and [filename] split the path: the parent is a
    prefix, the filename a suffix, and only slashes lie between them.
    The parent is the whole path exactly when the relative path is empty
    and is shorter otherwise. *)
Theorem parent_filename_split (m : storage) (p : string_view)
  (Hv : valid m p) :
  exists pp f rp,
    utf8.parent_path m p = Some pp
    /\ utf8.filename m p = Some f
    /\ utf8.relative_path m p = Some rp
    /\ data pp = data p /\ view_end pp <= data f /\ view_end f = view_end p
    /\ Forall (fun c => utf8.is_slash c = true) (span m (view_end pp) (data f))
    /\ contents m pp ++ span m (view_end pp) (data f) ++ contents m f
       = contents m p
    /\ (size rp = 0 -> pp = p)
    /\ (0 < size rp -> size pp < size p).
Proof.
  destruct (valid_range m p Hv) as [Hfl Hl].
  destruct (utf8_views m p Hv)
    as (rel & fname & pend & ads & exts & Hb & _ & _ & _ & Hrp & Hpp & Hfn & _).
  pose proof (boundaries_order _ _ _ _ _ _ _ _ Hfl Hl Hb) as Hord.
  destruct Hb as [_ (_ & _ & Hprev) (_ & Hall & Hprev') _ _].
  exists (mk_view (data p) (pend - data p)), (mk_view fname (view_end p - fname)),
    (mk_view rel (view_end p - rel)).
  do 3 (split; [assumption|]).
  rewrite !view_end_mk by lia. cbn [data size].
  split; [reflexivity|]. split; [lia|]. split; [reflexivity|].
  split; [apply Forall_span; [lia | intros; apply Hall; lia]|].
  split.
  { rewrite !contents_view by lia.
    assert (Hw : contents m p = span m (data p) (view_end p)) by reflexivity.
    rewrite Hw, !span_app by lia. reflexivity. }
  unfold not_slash in Hprev.
  split.
  - intros Hz. destruct p as [d n]. unfold view_end in *. simpl in *.
    f_equal. lia.
  - intros Hpos.
    assert (pend < view_end p); [|unfold view_end in *; lia].
    destruct (Nat.eq_dec pend (view_end p)) as [Heq | Hne]; [|lia].
    exfalso. subst pend. assert (fname = view_end p) by lia. subst fname.
    specialize (Hprev ltac:(lia)). specialize (Hprev' ltac:(lia)).
    rewrite Hprev' in Hprev. discriminate.
Qed.

Lemma parent_filename_split_witness :
  valid (units "a/b//c") (whole (units "a/b//c"))
  /\ exists pp f rp,
      utf8.parent_path (units "a/b//c") (whole (units "a/b//c")) = Some pp
      /\ utf8.filename (units "a/b//c") (whole (units "a/b//c")) = Some f
      /\ utf8.relative_path (units "a/b//c") (whole (units "a/b//c")) = Some rp
      /\ data pp = 0 /\ view_end pp <= data f /\ view_end f = 6.
Proof.
  assert (Hv : valid (units "a/b//c") (whole (units "a/b//c")))
    by valid_by_computation.
  split; [exact Hv|].
  destruct (parent_filename_split _ _ Hv)
    as (pp & f & rp & H1 & H2 & H3 & H4 & H5 & H6 & _).
  exists pp, f, rp. repeat split; assumption.
Defined.

(** ** Only the units of the view matter *)

Lemma span_all (s : list Z) : span s 0 (length s) = s.
Proof. unfold span. simpl. rewrite Nat.sub_0_r. apply firstn_all. Qed.

Lemma extension_start_unique (m : storage) (fn ad e e' : ptr) :
  fn <= ad ->
  extension_start m fn ad e -> extension_start m fn ad e' -> e = e'.
Proof.
  intros Hle He He'.
  destruct (Nat.eq_dec fn ad) as [-> | Hne].
  { pose proof (extension_start_bounds m ad ad e ltac:(lia) He).
    pose proof (extension_start_bounds m ad ad e' ltac:(lia) He'). lia. }
  assert (Hlt : fn < ad) by lia.
  destruct (extension_start_rules m fn ad e Hlt He) as (R1 & R2 & R3 & R4 & R5).
  destruct He' as [Hs | Hd H0 H1 | Hlen Hdot Hnd | e' Hlen Hndot Hr Hdot Hno
                  | Hlen Hndot Hno].
  - apply R1. lia.
  - apply R2. auto.
  - apply R3; try assumption. tauto.
  - now apply R4.
  - now apply R5.
Qed.

Section Rebase.

Variable m : storage.
Variables a b : ptr.
Hypothesis Hab : a <= b.
Hypothesis Hb : b <= length m.

Lemma rebase_length : length (span m a b) = b - a.
Proof. now apply span_length. Qed.

Lemma rebase_nth (i : nat) : i < b - a -> nth i (span m a b) 0%Z = nth (a + i) m 0%Z.
Proof. intros H. apply nth_span. lia. Qed.

Lemma rebase_first_such (pred : Z -> bool) (x r : ptr) :
  first_such pred (span m a b) x (b - a) r -> first_such pred m (a + x) b (a + r).
Proof.
  intros (Hr & Hbefore & Hat). split; [lia|]. split.
  - intros i Hi. specialize (Hbefore (i - a) ltac:(lia)).
    rewrite rebase_nth in Hbefore by lia.
    now replace (a + (i - a)) with i in Hbefore by lia.
  - intros Hlt. rewrite <- rebase_nth by lia. apply Hat. lia.
Qed.

Lemma rebase_last_such (pred : Z -> bool) (stop tail r : ptr) :
  tail <= b - a ->
  last_such pred (span m a b) stop tail r -> last_such pred m (a + stop) (a + tail) (a + r).
Proof.
  intros Ht (Hr & Hall & Hprev). split; [lia|]. split.
  - intros i Hi. specialize (Hall (i - a) ltac:(lia)).
    rewrite rebase_nth in Hall by lia.
    now replace (a + (i - a)) with i in Hall by lia.
  - intros Hlt. specialize (Hprev ltac:(lia)).
    rewrite rebase_nth in Hprev by lia.
    now replace (a + r - 1) with (a + (r - 1)) by lia.
Qed.

Lemma rebase_extension_start (fn ad e : ptr) :
  ad <= b - a ->
  extension_start (span m a b) fn ad e -> extension_start m (a + fn) (a + ad) (a + e).
Proof.
  intros Had He.
  destruct He as [Hs | Hd H0 H1 | Hlen Hdot Hnd | e Hlen Hndot Hr Hdot Hno
                 | Hlen Hndot Hno].
  - apply ext_short. lia.
  - apply ext_dotdot; [lia | |].
    + now rewrite <- rebase_nth by lia.
    + replace (a + fn + 1) with (a + (fn + 1)) by lia.
      now rewrite <- rebase_nth by lia.
  - replace (a + (ad - 1)) with (a + ad - 1) by lia.
    apply ext_trailing_dot; [lia | |].
    + replace (a + ad - 1) with (a + (ad - 1)) by lia.
      now rewrite <- rebase_nth by lia.
    + intros (Heq & Hfn). apply Hnd. split; [lia|].
      now rewrite rebase_nth by lia.
  - apply ext_interior_dot; try lia.
    + replace (a + ad - 1) with (a + (ad - 1)) by lia.
      now rewrite <- rebase_nth by lia.
    + now rewrite <- rebase_nth by lia.
    + intros i Hi. replace i with (a + (i - a)) by lia.
      rewrite <- rebase_nth by lia. apply Hno. lia.
  - apply ext_no_dot; try lia.
    + replace (a + ad - 1) with (a + (ad - 1)) by lia.
      now rewrite <- rebase_nth by lia.
    + intros i Hi. replace i with (a + (i - a)) by lia.
      rewrite <- rebase_nth by lia. apply Hno. lia.
Qed.

Lemma rebase_root_end : root_end m a b = a + root_end (span m a b) 0 (b - a).
Proof.
  unfold root_end. rewrite <- rebase_length, span_all. lia.
Qed.

End Rebase.

Lemma rebase_views (m : storage) (p : string_view) :
  valid m p ->
  forall rel fname pend ads exts rel' fname' pend' ads' exts',
    boundaries m (data p) (view_end p) rel fname pend ads exts ->
    boundaries (contents m p) 0 (length (contents m p))
      rel' fname' pend' ads' exts' ->
    rel = data p + rel' /\ fname = data p + fname' /\ pend = data p + pend'
    /\ ads = data p + ads' /\ exts = data p + exts'.
Proof.
  intros Hv rel fname pend ads exts rel' fname' pend' ads' exts' Hb Hb'.
  destruct (valid_range m p Hv) as [Hfl Hl].
  pose proof (boundaries_order _ _ _ _ _ _ _ _ Hfl Hl Hb) as Hord.
  assert (Hlen : length (contents m p) = view_end p - data p)
    by (apply span_length; assumption).
  assert (Hord' : 0 <= root_end (contents m p) 0 (length (contents m p))
                  /\ root_end (contents m p) 0 (length (contents m p)) <= rel'
                  /\ rel' <= pend' /\ pend' <= fname' /\ fname' <= exts'
                  /\ exts' <= ads' /\ ads' <= length (contents m p))
    by (apply boundaries_order; [lia | lia | assumption]).
  destruct Hb as [Hrel Hfname Hpend Hads Hexts].
  destruct Hb' as [Hrel' Hfname' Hpend' Hads' Hexts'].
  rewrite Hlen in Hrel', Hfname', Hads'.
  unfold contents in *.
  apply (rebase_first_such m _ _ Hfl) in Hrel'; try assumption.
  rewrite <- rebase_root_end in Hrel' by assumption.
  replace (data p + (view_end p - data p)) with (view_end p) in * by lia.
  assert (E1 : rel = data p + rel')
    by (eapply first_such_unique; eassumption).
  apply (rebase_last_such m _ _ Hfl) in Hfname'; try assumption; try lia.
  replace (data p + (view_end p - data p)) with (view_end p) in * by lia.
  rewrite <- E1 in Hfname'.
  assert (E2 : fname = data p + fname')
    by (eapply last_such_unique; eassumption).
  apply (rebase_last_such m _ _ Hfl) in Hpend'; try assumption; try lia.
  rewrite <- E1, <- E2 in Hpend'.
  assert (E3 : pend = data p + pend')
    by (eapply last_such_unique; eassumption).
  apply (rebase_first_such m _ _ Hfl) in Hads'; try assumption.
  rewrite <- E2 in Hads'.
  assert (E4 : ads = data p + ads')
    by (eapply first_such_unique; eassumption).
  apply (rebase_extension_start m _ _ Hfl) in Hexts'; try assumption; try lia.
  rewrite <- E2, <- E4 in Hexts'.
  assert (E5 : exts = data p + exts')
    by (apply (extension_start_unique m fname ads); [lia | assumption..]).
  auto.
Qed.

Lemma valid_contents (m : storage) (p : string_view) :
  valid m p -> valid (contents m p) (whole (contents m p)).
Proof.
  intros Hv. destruct (valid_range m p Hv) as [Hfl Hl].
  destruct Hv as [_ Hsz]. unfold valid, whole, view_end in *. simpl.
  unfold contents, view_end. rewrite span_length by assumption.
  split; lia.
Qed.

(** X16. The functions read nothing but the units of the view: applied
    to a view of a larger storage they return what they return on the
    units of the view alone, moved to the position of the view. *)
Theorem only_the_view_matters (m : storage) (p : string_view)
  (Hv : valid m p) :
  (forall f, In f utf8_components ->
             f m p = option_map (shift (data p))
                       (f (contents m p) (whole (contents m p))))
  /\ utf8.find_root_name_end m (data p) (view_end p)
     = option_map (Nat.add (data p))
         (utf8.find_root_name_end (contents m p) 0 (length (contents m p)))
  /\ utf8.find_relative_path m (data p) (view_end p)
     = option_map (Nat.add (data p))
         (utf8.find_relative_path (contents m p) 0 (length (contents m p)))
  /\ utf8.find_filename m (data p) (view_end p)
     = option_map (Nat.add (data p))
         (utf8.find_filename (contents m p) 0 (length (contents m p))).
Proof.
  destruct (valid_range m p Hv) as [Hfl Hl].
  pose proof (valid_contents m p Hv) as Hv'.
  destruct (utf8_views m p Hv)
    as (rel & fname & pend & ads & exts & Hb & Hfr & Hff
        & Hroot & Hrp & Hpp & Hfn & Hst & Hex).
  destruct (utf8_views _ _ Hv')
    as (rel' & fname' & pend' & ads' & exts' & Hb' & Hfr' & Hff'
        & Hroot' & Hrp' & Hpp' & Hfn' & Hst' & Hex').
  assert (Hlen : length (contents m p) = view_end p - data p)
    by (apply span_length; assumption).
  assert (Hwe : view_end (whole (contents m p)) = length (contents m p))
    by reflexivity.
  rewrite Hwe in *. cbn [whole data] in *.
  pose proof (boundaries_order _ _ _ _ _ _ _ _ Hfl Hl Hb) as Hord.
  destruct (rebase_views m p Hv _ _ _ _ _ _ _ _ _ _ Hb Hb')
    as (-> & -> & -> & -> & ->).
  assert (Hre : root_end m (data p) (view_end p)
                = data p + root_end (contents m p) 0 (length (contents m p))).
  { rewrite Hlen. unfold contents. now apply rebase_root_end. }
  split; [|split; [|split]].
  - intros f Hf. unfold utf8_components in Hf. simpl in Hf.
    destruct Hf as [<- | [<- | [<- | [<- | [<- | [<- | []]]]]]];
      rewrite ?Hroot, ?Hroot', ?Hrp, ?Hrp', ?Hpp, ?Hpp', ?Hfn, ?Hfn',
        ?Hst, ?Hst', ?Hex, ?Hex'; simpl; unfold shift; simpl;
      do 2 f_equal; lia.
  - rewrite !utf8_find_root_name_end_eq by lia.
    fold (root_end m (data p) (view_end p)).
    fold (root_end (contents m p) 0 (length (contents m p))).
    rewrite Hre. reflexivity.
  - rewrite Hfr, Hfr'. reflexivity.
  - rewrite Hff, Hff'. reflexivity.
Qed.

Lemma only_the_view_matters_witness :
  valid (units "xx C:\dir\a.txt yy") (mk_view 3 12)
  /\ utf8.stem (units "xx C:\dir\a.txt yy") (mk_view 3 12)
     = option_map (shift 3)
         (utf8.stem (contents (units "xx C:\dir\a.txt yy") (mk_view 3 12))
            (whole (contents (units "xx C:\dir\a.txt yy") (mk_view 3 12)))).
Proof.
  assert (Hv : valid (units "xx C:\dir\a.txt yy") (mk_view 3 12))
    by valid_by_computation.
  split; [exact Hv|].
  apply (proj1 (only_the_view_matters _ _ Hv)).
  unfold utf8_components. simpl. tauto.
Defined.

(** ** Components of components *)

Lemma stem_extension_from (m : storage) (p : string_view) (fname : ptr) :
  valid m p ->
  utf8.find_filename m (data p) (view_end p) = Some fname ->
  forall q, valid m q -> view_end q = view_end p ->
            utf8.find_filename m (data q) (view_end q) = Some fname ->
            utf8.stem m q = utf8.stem m p
            /\ utf8.extension m q = utf8.extension m p.
Proof.
  intros Hv Hf q Hvq Hend Hfq.
  unfold utf8.stem, utf8.extension.
  fold (view_end p). fold (view_end q).
  rewrite Hfq, Hend, Hf. split; reflexivity.
Qed.

(** X17. Stem and extension can be taken from the filename: when the
    filename [filename] returns has no drive-letter prefix, [filename],
    [stem] and [extension] applied to it give the filename, the stem and
    the extension of the path. *)
Theorem stem_extension_of_filename (m : storage) (p f : string_view)
  (Hv : valid m p) (Hf : utf8.filename m p = Some f)
  (Hd : utf8.has_drive_letter_prefix m (data f) (view_end f) = Some false) :
  utf8.filename m f = Some f
  /\ utf8.stem m f = utf8.stem m p
  /\ utf8.extension m f = utf8.extension m p.
Proof.
  split; [now apply (filename_reparse m p)|].
  destruct (valid_range m p Hv) as [Hfl Hl].
  destruct (utf8_views m p Hv)
    as (rel & fname & pend & ads & exts & Hb & _ & Hff & _ & _ & _ & Hfn & _).
  pose proof (boundaries_order _ _ _ _ _ _ _ _ Hfl Hl Hb) as Hord.
  destruct Hb as [_ (_ & Hall & _) _ _ _].
  rewrite Hfn in Hf. injection Hf as <-.
  rewrite view_end_mk in Hd by lia. cbn [data] in Hd.
  assert (Hvf : valid m (mk_view fname (view_end p - fname)))
    by (apply (valid_sub m p); [assumption | lia..]).
  apply (stem_extension_from m p fname); try assumption.
  - apply view_end_mk. lia.
  - rewrite view_end_mk by lia. cbn [data].
    apply find_filename_plain; try assumption; try lia.
    intros i Hi. apply negb_true_iff. now apply Hall.
Qed.

Lemma stem_extension_of_filename_witness :
  valid (units "C:\dir\a.tar.gz") (whole (units "C:\dir\a.tar.gz"))
  /\ utf8.filename (units "C:\dir\a.tar.gz") (whole (units "C:\dir\a.tar.gz"))
     = Some (mk_view 7 8)
  /\ utf8.has_drive_letter_prefix (units "C:\dir\a.tar.gz")
       (data (mk_view 7 8)) (view_end (mk_view 7 8)) = Some false
  /\ utf8.stem (units "C:\dir\a.tar.gz") (mk_view 7 8)
     = utf8.stem (units "C:\dir\a.tar.gz") (whole (units "C:\dir\a.tar.gz")).
Proof.
  assert (Hv : valid (units "C:\dir\a.tar.gz")
                 (whole (units "C:\dir\a.tar.gz")))
    by valid_by_computation.
  assert (Hf : utf8.filename (units "C:\dir\a.tar.gz")
                 (whole (units "C:\dir\a.tar.gz")) = Some (mk_view 7 8))
    by (vm_compute; reflexivity).
  assert (Hd : utf8.has_drive_letter_prefix (units "C:\dir\a.tar.gz")
                 (data (mk_view 7 8)) (view_end (mk_view 7 8)) = Some false)
    by (vm_compute; reflexivity).
  split; [exact Hv | split; [exact Hf | split; [exact Hd|]]].
  exact (proj1 (proj2 (stem_extension_of_filename _ _ _ Hv Hf Hd))).
Defined.

(** With a drive-letter prefix in the filename the two differ: the stem
    of [a/C:b.x] is [C], the stem of its filename [C:b.x] is [b]. *)
Example stem_of_filename_with_drive_prefix :
  on_path utf8.filename "a/C:b.x" = Some (units "C:b.x")
  /\ on_path utf8.stem "a/C:b.x" = Some (units "C")
  /\ on_path utf8.stem "C:b.x" = Some (units "b").
Proof. repeat split; vm_compute; reflexivity. Qed.

(** X18. The inner components can be taken from the relative path: when
    the relative path [relative_path] returns has no drive-letter prefix,
    it has no root-name, it is its own relative path, and its filename,
    stem and extension are those of the path; its parent is the parent of
    the path without the root. *)
Theorem components_of_relative_path (m : storage) (p rp : string_view)
  (Hv : valid m p) (Hr : utf8.relative_path m p = Some rp)
  (Hd : utf8.has_drive_letter_prefix m (data rp) (view_end rp) = Some false) :
  utf8.root_name m rp = Some (mk_view (data rp) 0)
  /\ utf8.relative_path m rp = Some rp
  /\ utf8.filename m rp = utf8.filename m p
  /\ utf8.stem m rp = utf8.stem m p
  /\ utf8.extension m rp = utf8.extension m p
  /\ exists pp, utf8.parent_path m p = Some pp
                /\ data rp <= view_end pp
                /\ utf8.parent_path m rp
                   = Some (mk_view (data rp) (view_end pp - data rp)).
Proof.
  assert (Hrr : utf8.relative_path m rp = Some rp)
    by now apply (relative_path_reparse m p).
  destruct (valid_range m p Hv) as [Hfl Hl].
  destruct (utf8_views m p Hv)
    as (rel & fname & pend & ads & exts & Hb & Hfr & Hff & _ & Hrp & Hpp
        & Hfn & _).
  pose proof (boundaries_order _ _ _ _ _ _ _ _ Hfl Hl Hb) as Hord.
  destruct Hb as [(_ & _ & Hat) Hfname Hpend _ _].
  rewrite Hrp in Hr. injection Hr as <-.
  rewrite view_end_mk in * by lia. cbn [data] in *.
  assert (Hvr : valid m (mk_view rel (view_end p - rel)))
    by (apply (valid_sub m p); [assumption | lia..]).
  assert (Hns : rel < view_end p -> utf8.is_slash (nth rel m 0%Z) = false)
    by (intros; apply negb_true_iff; now apply Hat).
  assert (Hre : root_end m rel (view_end p) = rel)
    by (apply root_end_plain; try assumption; lia).
  destruct (utf8_views m _ Hvr)
    as (rel2 & fname2 & pend2 & ads2 & exts2 & Hb2 & Hfr2 & Hff2 & Hroot2
        & _ & Hpp2 & Hfn2 & _).
  rewrite view_end_mk in * by lia. cbn [data] in *.
  rewrite find_relative_path_plain in Hfr2 by (try assumption; lia).
  injection Hfr2 as <-.
  destruct Hb2 as [_ Hfname2 Hpend2 _ _].
  assert (fname2 = fname) as -> by (eapply last_such_unique; eassumption).
  assert (pend2 = pend) as -> by (eapply last_such_unique; eassumption).
  split; [rewrite Hroot2, Hre; do 2 f_equal; lia|].
  split; [assumption|].
  split; [now rewrite Hfn2, Hfn|].
  destruct (stem_extension_from m p fname Hv Hff _ Hvr) as [Hs He].
  { apply view_end_mk. lia. }
  { now rewrite view_end_mk by lia. }
  split; [assumption|]. split; [assumption|].
  exists (mk_view (data p) (pend - data p)).
  split; [assumption|].
  rewrite view_end_mk by lia. split; [lia|].
  rewrite Hpp2. do 2 f_equal.
Qed.

Lemma components_of_relative_path_witness :
  valid (units "\\srv\dir\a.txt") (whole (units "\\srv\dir\a.txt"))
  /\ utf8.relative_path (units "\\srv\dir\a.txt")
       (whole (units "\\srv\dir\a.txt")) = Some (mk_view 6 9)
  /\ utf8.has_drive_letter_prefix (units "\\srv\dir\a.txt")
       (data (mk_view 6 9)) (view_end (mk_view 6 9)) = Some false
  /\ utf8.filename (units "\\srv\dir\a.txt") (mk_view 6 9)
     = utf8.filename (units "\\srv\dir\a.txt")
         (whole (units "\\srv\dir\a.txt")).
Proof.
  assert (Hv : valid (units "\\srv\dir\a.txt")
                 (whole (units "\\srv\dir\a.txt")))
    by valid_by_computation.
  assert (Hr : utf8.relative_path (units "\\srv\dir\a.txt")
                 (whole (units "\\srv\dir\a.txt")) = Some (mk_view 6 9))
    by (vm_compute; reflexivity).
  assert (Hd : utf8.has_drive_letter_prefix (units "\\srv\dir\a.txt")
                 (data (mk_view 6 9)) (view_end (mk_view 6 9)) = Some false)
    by (vm_compute; reflexivity).
  split; [exact Hv | split; [exact Hr | split; [exact Hd|]]].
  exact (proj1 (proj2 (proj2 (components_of_relative_path _ _ _ Hv Hr Hd)))).
Defined.

(** ** Joining a directory and a name *)

Lemma find_index_app_le (pred : Z -> bool) (l l' : list Z) (x : Z) :
  pred x = true -> find_index pred (l ++ x :: l') <= length l.
Proof.
  intros Hx. induction l as [|c l IH]; simpl.
  - now rewrite Hx.
  - destruct (pred c); lia.
Qed.

Lemma root_name_length_joined (letter : Z -> bool) (d name : list Z) (sep : Z) :
  utf8.is_slash sep = true -> letter sep = false ->
  Forall (fun c => utf8.is_slash c = false) name ->
  ~ (length d = 1 /\ utf8.is_slash (hd 0%Z d) = true) ->
  root_name_length letter (d ++ sep :: name) <= S (length d).
Proof.
  intros Hsep Hlet Hname Hd.
  assert (Hn : forall i, utf8.is_slash (nth i name 0%Z) = true -> False).
  { intros i Hi. destruct (nth_in_or_default i name 0%Z) as [Hin | Hdef].
    - rewrite Forall_forall in Hname. rewrite (Hname _ Hin) in Hi. discriminate.
    - rewrite Hdef in Hi. discriminate. }
  destruct (root_name_length_cases letter (d ++ sep :: name))
    as [H | [(H & Hdr) | [(H & _ & Hdev)
        | (c0 & c1 & c2 & rest & Heq & _ & _ & H0 & H1 & H2 & H)]]];
    rewrite H; clear H.
  - lia.
  - destruct d as [|d0 d]; [|simpl; lia].
    simpl in Hdr. destruct name; [discriminate|].
    rewrite Hlet in Hdr. discriminate.
  - apply device_form_inv in Hdev.
    destruct Hdev as (c0 & c1 & c2 & c3 & rest & Heq & _ & H3 & _).
    destruct d as [|d0 [|d1 d]]; [| |simpl; lia]; simpl in Heq.
    + destruct name as [|n0 [|n1 [|n2 name]]]; try discriminate.
      injection Heq as -> -> -> -> ->. exfalso. apply (Hn 2). exact H3.
    + destruct name as [|n0 [|n1 name]]; try discriminate.
      injection Heq as -> -> -> -> ->. exfalso. apply (Hn 1). exact H3.
  - destruct d as [|d0 [|d1 [|d2 d]]]; simpl in Heq.
    + destruct name as [|n0 name]; try discriminate.
      injection Heq as -> -> _. exfalso. apply (Hn 0). exact H1.
    + injection Heq as -> -> _. exfalso. apply Hd. now split.
    + destruct name as [|n0 name]; injection Heq as -> -> -> _; congruence.
    + injection Heq as -> -> -> <-.
      pose proof (find_index_app_le utf8.is_slash d name sep Hsep).
      simpl. lia.
Qed.

Lemma skipn_joined (d name : list Z) (sep : Z) :
  skipn (S (length d)) (d ++ sep :: name) = name.
Proof. induction d as [|c d IH]; [reflexivity | exact IH]. Qed.

(** X19. Splitting what was joined: for a directory [d], a separator and
    a name without slashes, [filename] of [d], separator, name is the
    name, except when [d] is a single slash, where the two slashes start
    a server name. *)
Theorem filename_of_joined (d name : list Z) (sep : Z)
  (Hsep : utf8.is_slash sep = true)
  (Hname : Forall (fun c => utf8.is_slash c = false) name)
  (Hd : ~ (length d = 1 /\ utf8.is_slash (hd 0%Z d) = true))
  (Hsz : (Z.of_nat (length (d ++ sep :: name)) < 2 ^ 64)%Z) :
  utf8.filename (d ++ sep :: name) (whole (d ++ sep :: name))
  = Some (mk_view (S (length d)) (length name))
  /\ contents (d ++ sep :: name) (mk_view (S (length d)) (length name)) = name.
Proof.
  set (m := d ++ sep :: name).
  assert (Hlen : length m = S (length d) + length name)
    by (unfold m; rewrite length_app; simpl; lia).
  assert (Hv : valid m (whole m)) by (split; [reflexivity | exact Hsz]).
  assert (Hsepn : nth (length d) m 0%Z = sep)
    by (unfold m; now rewrite nth_middle).
  assert (Hnn : forall i, S (length d) <= i < length m ->
                          utf8.is_slash (nth i m 0%Z) = false).
  { intros i Hi. unfold m.
    rewrite app_nth2 by lia.
    replace (i - length d) with (S (i - S (length d))) by lia. simpl.
    rewrite Forall_forall in Hname. apply Hname, nth_In. lia. }
  split.
  - destruct (utf8_views m (whole m) Hv)
      as (rel & fname & pend & ads & exts & Hb & _ & _ & _ & _ & _ & Hfn & _).
    change (view_end (whole m)) with (length m) in *.
    cbn [whole data] in *.
    destruct Hb as [(Hr & Hbefore & Hat) Hfname _ _ _].
    assert (Hre : root_end m 0 (length m) <= S (length d)).
    { unfold root_end. rewrite span_all. simpl.
      apply root_name_length_joined; try assumption.
      now destruct (slash_is_plain sep Hsep) as (-> & _). }
    assert (Hrel : rel <= S (length d)).
    { destruct (Nat.le_gt_cases rel (S (length d))) as [|Hgt]; [assumption|].
      specialize (Hbefore (S (length d)) ltac:(lia)).
      unfold not_slash in Hbefore. rewrite Hnn in Hbefore by lia.
      discriminate. }
    assert (fname = S (length d)) as ->.
    { apply (last_such_unique not_slash m rel (length m)); [assumption|].
      split; [lia|]. split.
      - intros i Hi. unfold not_slash. now rewrite Hnn.
      - intros _. simpl. rewrite Nat.sub_0_r.
        unfold not_slash. now rewrite Hsepn, Hsep. }
    rewrite Hfn. do 2 f_equal. lia.
  - unfold contents, view_end, span. cbn [data size].
    replace (S (length d) + length name - S (length d)) with (length name)
      by lia.
    unfold m. rewrite skipn_joined. apply firstn_all.
Qed.

Lemma filename_of_joined_witness :
  utf8.is_slash SLASH = true
  /\ Forall (fun c => utf8.is_slash c = false) (units "a.txt")
  /\ ~ (length (units "C:\dir") = 1
        /\ utf8.is_slash (hd 0%Z (units "C:\dir")) = true)
  /\ (Z.of_nat (length (units "C:\dir" ++ SLASH :: units "a.txt")) < 2 ^ 64)%Z
  /\ utf8.filename (units "C:\dir" ++ SLASH :: units "a.txt")
       (whole (units "C:\dir" ++ SLASH :: units "a.txt"))
     = Some (mk_view (S (length (units "C:\dir"))) (length (units "a.txt"))).
Proof.
  assert (H1 : utf8.is_slash SLASH = true) by reflexivity.
  assert (H2 : Forall (fun c => utf8.is_slash c = false) (units "a.txt"))
    by (repeat (apply Forall_cons; [reflexivity|]); apply Forall_nil).
  assert (H3 : ~ (length (units "C:\dir") = 1
                  /\ utf8.is_slash (hd 0%Z (units "C:\dir")) = true))
    by (intros [H _]; discriminate H).
  assert (H4 : (Z.of_nat (length (units "C:\dir" ++ SLASH :: units "a.txt"))
                < 2 ^ 64)%Z)
    by (vm_compute; reflexivity).
  split; [exact H1 | split; [exact H2 | split; [exact H3 | split; [exact H4|]]]].
  exact (proj1 (filename_of_joined _ _ _ H1 H2 H3 H4)).
Defined.

(** The excluded case: behind a single slash the name becomes a server
    name, and the filename is empty. *)
Example filename_of_joined_to_slash :
  on_path utf8.root_name "//name" = Some (units "//name")
  /\ on_path utf8.filename "//name" = Some (units "").
Proof. split; vm_compute; reflexivity. Qed.
